(** * Bob build: Android.mk backend and late-template engine

    A shallow embedding of the parts of the Android.mk backend
    ([androidMkGenerator], [androidMkOrderer], the name mapper),
    [core/late_template.go] and [core/template.go] that the backend
    specification talks about, together with the properties proved
    about them.

    Conventions of the embedding:
    - Go strings are [string]; [+] on strings is [+:+].
    - A [strings.Builder] is the list of chunks handed to [WriteString],
      in order; the file contents are their concatenation.
    - [utils.Die] and [panic] end the process: a computation that may
      reach them returns [Die msg], otherwise [Ok v].
    - Go maps are [gmap]s.
    - Functions of other packages (blueprint, pathtools, ccflags, utils,
      the toolchain) are either modelled next to their use, with a
      comment saying so, or taken as parameters. *)

From Stdlib Require Import String Ascii List Bool Arith Lia Sorted.
From stdpp Require Import gmap strings list fin_maps pretty.

Open Scope string_scope.
Open Scope list_scope.

(** Line feed and horizontal tab. *)
Definition nl : string := String "010"%char EmptyString.
Definition tab : string := String "009"%char EmptyString.
Definition dquote : ascii := "034"%char.
Definition backslash : ascii := "092"%char.

(** ** Results of computations that may abort *)

Inductive Res (A : Type) : Type :=
| Ok (a : A)
| Die (msg : string).
Arguments Ok {A} a.
Arguments Die {A} msg.

Definition bindRes {A B} (r : Res A) (k : A -> Res B) : Res B :=
  match r with
  | Ok a => k a
  | Die msg => Die msg
  end.

#[global] Instance Res_ret : MRet Res := @Ok.
#[global] Instance Res_bind : MBind Res := fun A B k r => bindRes r k.

Definition isOk {A} (r : Res A) : bool :=
  match r with Ok _ => true | Die _ => false end.

(** ** Go's [strings] package, as far as the backend uses it *)

Module GoStrings.

(** [strings.Join] *)
Definition Join (elems : list string) (sep : string) : string :=
  String.concat sep elems.

(** [strings.HasPrefix] *)
Fixpoint HasPrefix (s p : string) : bool :=
  match p, s with
  | EmptyString, _ => true
  | String c p', String d s' => if Ascii.eqb c d then HasPrefix s' p' else false
  | String _ _, EmptyString => false
  end.

(** The scanning loop of [strings.Replace(s, old, new, -1)] for a
    non-empty [old]: left to right, non-overlapping; [skip] counts the
    bytes of a matched occurrence of [old] still to be stepped over. *)
Fixpoint replaceFrom (old new s : string) (skip : nat) : string :=
  match s with
  | EmptyString => EmptyString
  | String c s' =>
      match skip with
      | S k => replaceFrom old new s' k
      | O =>
          if HasPrefix s old
          then new +:+ replaceFrom old new s' (String.length old - 1)
          else String c (replaceFrom old new s' 0)
      end
  end.

(** [strings.Replace(s, old, new, -1)].  For an empty [old] Go inserts
    [new] before every byte and at the end (for single-byte runes). *)
Definition ReplaceAll (s old new : string) : string :=
  match old with
  | EmptyString =>
      (fix ins (t : string) : string :=
         match t with
         | EmptyString => new
         | String c t' => new +:+ String c (ins t')
         end) s
  | _ => replaceFrom old new s 0
  end.

End GoStrings.

(** ** [pathToModuleName] *)

Definition pathToModuleName (path : string) : string :=
  let path := GoStrings.ReplaceAll path "/" "__" in
  let path := GoStrings.ReplaceAll path "." "_" in
  let path := GoStrings.ReplaceAll path "(" "_" in
  let path := GoStrings.ReplaceAll path "$" "_" in
  let path := GoStrings.ReplaceAll path ")" "_" in
  path.

Example pathToModuleName_ex : pathToModuleName "a/b/c.conf(2)" = "a__b__c_conf_2_".
Proof. reflexivity. Qed.

(** ** String builders and list assignments *)

(** A [strings.Builder]: the chunks written so far, oldest first. *)
Definition Builder := list string.

Definition WriteString (sb : Builder) (s : string) : Builder := sb ++ [s].

Definition contents (sb : Builder) : string := String.concat EmptyString sb.

Definition writeListAssignment (sb : Builder) (varname : string) (entries : list string) : Builder :=
  if (0 <? length entries)%nat
  then WriteString sb (varname +:+ " := " +:+ GoStrings.Join entries " " +:+ nl)
  else sb.

Definition newlineSeparatedList (l : list string) : string :=
  (" \" +:+ nl +:+ "    ") +:+ GoStrings.Join l (" \" +:+ nl +:+ "    ") +:+ nl.

(** ** The module graph *)

Inductive ModuleKind :=
| KStaticLibrary | KSharedLibrary | KBinary | KKernelModule
| KGenerateSource | KTransformSource
| KGenerateStaticLibrary | KGenerateSharedLibrary | KGenerateBinary
| KResource | KAlias | KDefaults | KExternalLib.

#[global] Instance ModuleKind_eq_dec : EqDecision ModuleKind.
Proof. solve_decision. Defined.

Inductive DepTag :=
| staticDepTag | sharedDepTag | wholeStaticDepTag | headerDepTag
| installDepTag | kernelModuleDepTag | otherDepTag.

#[global] Instance DepTag_eq_dec : EqDecision DepTag.
Proof. solve_decision. Defined.

(** What the backend reads off one module.  [modNaming] is [Some
    (altName, altShortName)] when the module's type implements the
    [androidNaming] interface.  [modEnabledAndRequired] is the value of
    [enabledAndRequired(m)], [modForwarding] the value of
    [Build.isForwardingSharedLibrary()] for a shared library. *)
Record ModInfo := {
  modName : string;
  modKind : ModuleKind;
  modNaming : option (string * string);
  modEnabledAndRequired : bool;
  modForwarding : bool
}.

#[local] Set Warnings "-register-all".

(** A module together with its direct dependencies, each under the tag
    it was added with.  [Mod i id deps]: [id] stands for the identity of
    the module (the pointer blueprint compares).  Blueprint rejects
    dependency cycles, so the direct-dependency structure is a finite
    tree unfolding. *)
Inductive Module :=
| Mod (info : ModInfo) (ident : nat) (directDeps : list (DepTag * Module)).

Definition modInfo (m : Module) : ModInfo := let 'Mod i _ _ := m in i.
Definition modIdent (m : Module) : nat := let 'Mod _ n _ := m in n.
Definition modDirectDeps (m : Module) : list (DepTag * Module) := let 'Mod _ _ d := m in d.

Definition enabledAndRequired (m : Module) : bool := modEnabledAndRequired (modInfo m).

Definition altName (m : Module) : string :=
  match modNaming (modInfo m) with Some (a, _) => a | None => EmptyString end.

Definition altShortName (m : Module) : string :=
  match modNaming (modInfo m) with Some (_, s) => s | None => EmptyString end.

(** blueprint's [VisitDepsDepthFirst]: every transitive dependency is
    visited once, after its own dependencies.  The state is the set of
    modules already walked and the modules handed to the visitor so far. *)
Fixpoint walkDepthFirst (m : Module) (st : list nat * list Module) {struct m}
  : list nat * list Module :=
  match m with
  | Mod _ _ deps =>
      (fix go (ds : list (DepTag * Module)) (st : list nat * list Module) :=
         match ds with
         | [] => st
         | (_, d) :: ds' =>
             if bool_decide (modIdent d ∈ st.1) then go ds' st
             else
               let st1 := walkDepthFirst d st in
               go ds' (modIdent d :: st1.1, st1.2 ++ [d])
         end) deps st
  end.

Definition VisitDepsDepthFirst (m : Module) : list Module :=
  (walkDepthFirst m ([], [])).2.

(** ** The orderer singleton *)

Record androidMkFile := { Name : string; Deps : list string }.

Definition generatesAndroidIncFile (m : Module) : bool :=
  match modKind (modInfo m) with
  | KDefaults => false
  | KExternalLib => false
  | _ => true
  end.

(** The visitor passed to [VisitDepsDepthFirst] inside
    [GenerateBuildActions]; [m] is the module whose list is being built. *)
Definition orderVisitChild (m : Module) (deps : list string) (child : Module) : list string :=
  match modNaming (modInfo child) with
  | Some (_, short) =>
      if generatesAndroidIncFile child && enabledAndRequired m
      then deps ++ [short]
      else deps
  | None => deps
  end.

(** The visitor passed to [VisitAllModules]. *)
Definition orderVisitModule (order : list androidMkFile) (m : Module) : list androidMkFile :=
  match modNaming (modInfo m) with
  | Some (_, short) =>
      if enabledAndRequired m then
        let deps := foldl (orderVisitChild m) [] (VisitDepsDepthFirst m) in
        if generatesAndroidIncFile m
        then order ++ [{| Name := short; Deps := deps |}]
        else order
      else order
  | None => order
  end.

Definition collectOrder (mods : list Module) : list androidMkFile :=
  foldl orderVisitModule [] mods.

(** The inner [for i, val := range order] loop choosing [lowindex];
    [None] is Go's [-1].  [rest] is the part of [order] still to scan and
    [i] the index of its head.  [order[lowindex]] is always in range. *)
Fixpoint lowLoop (order rest : list androidMkFile) (i : nat) (lowindex : option nat)
  : option nat :=
  match rest with
  | [] => lowindex
  | val :: rest' =>
      let better :=
        match lowindex with
        | None => true
        | Some li =>
            match order !! li with
            | Some o => String.ltb (Name val) (Name o)
            | None => false
            end
        end in
      lowLoop order rest' (S i)
        (if better && (length (Deps val) =? 0)%nat then Some i else lowindex)
  end.

Definition findLow (order : list androidMkFile) : option nat := lowLoop order order 0 None.

(** The text accumulated for [utils.Die] when no module is ready. *)
Definition remainingDeps (order : list androidMkFile) : string :=
  foldl (fun deps o =>
           foldl (fun deps d => deps +:+ (tab +:+ d +:+ nl))
                 (deps +:+ (Name o +:+ " depends on" +:+ nl)) (Deps o))
        EmptyString order.

Definition natToString (n : nat) : string := pretty n.

Definition unmetMessage (order : list androidMkFile) : string :=
  "unmet or circular dependency. " +:+ natToString (length order) +:+ " remaining." +:+ nl +:+ remainingDeps order.

Definition includeLine (name : string) : string :=
  "include $(BOB_ANDROIDMK_DIR)/" +:+ name +:+ ".inc" +:+ nl.

(** Dropping the emitted name from one entry's dependency list. *)
Definition dropDep (name : string) (o : androidMkFile) : androidMkFile :=
  {| Name := Name o;
     Deps := foldl (fun newdeps dep =>
                      if bool_decide (dep ≠ name) then newdeps ++ [dep] else newdeps)
                   [] (Deps o) |}.

(** [append(order[:lowindex], order[lowindex+1:]...)] *)
Definition removeAt (lowindex : nat) (order : list androidMkFile) : list androidMkFile :=
  take lowindex order ++ drop (S lowindex) order.

(** One pass of the [for len(order) > 0] loop, given [lowindex]. *)
Definition sortStep (order : list androidMkFile) (sb : Builder) (lowindex : nat)
  : list androidMkFile * Builder :=
  match order !! lowindex with
  | Some low =>
      (removeAt lowindex (map (dropDep (Name low)) order),
       WriteString sb (includeLine (Name low)))
  | None => (order, sb)
  end.

(** The sorting loop.  Every pass removes one entry, so [length order]
    passes suffice; [None] means the pass budget ran out (shown below
    not to happen). *)
Fixpoint sortLoop (passes : nat) (order : list androidMkFile) (sb : Builder)
  : option (Res Builder) :=
  match order with
  | [] => Some (Ok sb)
  | _ :: _ =>
      match findLow order with
      | None => Some (Die (unmetMessage order))
      | Some lowindex =>
          match passes with
          | O => None
          | S passes' =>
              let '(order', sb') := sortStep order sb lowindex in
              sortLoop passes' order' sb'
          end
      end
  end.

Definition sortOrder (order : list androidMkFile) (sb : Builder) : Res Builder :=
  match sortLoop (length order) order sb with
  | Some r => r
  | None => Die "unreachable"
  end.

(** The files of the build directory: path to contents. *)
Definition getPathInBuildDir (buildDir name : string) : string := buildDir +:+ "/" +:+ name.

(** [androidMkOrderer.GenerateBuildActions]: the result is the build
    directory after [Android.inc] has been written, or the abort. *)
Definition GenerateBuildActions (buildDir : string) (mods : list Module)
    (fs : gmap string string) : Res (gmap string string) :=
  sb ← sortOrder (collectOrder mods) [];
  Ok (<[getPathInBuildDir buildDir "Android.inc" := contents sb]> fs).

(** ** The name mapper *)

Record NameMaps := {
  androidModuleNameMap : gmap string string;
  androidModuleReverseMap : gmap string string
}.

Definition emptyNameMaps : NameMaps :=
  {| androidModuleNameMap := ∅; androidModuleReverseMap := ∅ |}.

(** Indexing a Go [map[string]string]: the zero value when absent. *)
Definition androidModuleName (st : NameMaps) (name : string) : string :=
  default EmptyString (androidModuleNameMap st !! name).

Definition androidModuleNames (st : NameMaps) (names : list string) : list string :=
  foldl (fun androidNames name => androidNames ++ [androidModuleName st name]) [] names.

Definition collisionMessage (moduleName existing alt : string) : string :=
  "out name collision. Both " +:+ moduleName +:+ " and " +:+ existing +:+
  " are required and map to " +:+ alt.

(** The bottom-up mutator [mapAndroidNames], run on one module.  The
    write lock is held across the check and both updates, so the
    mutator calls of a pass act one after the other. *)
Definition mapAndroidNames (m : Module) (st : NameMaps) : Res NameMaps :=
  match modNaming (modInfo m) with
  | Some (alt, _) =>
      if bool_decide (modKind (modInfo m) = KDefaults) then Ok st
      else if enabledAndRequired m then
        let register :=
          Ok {| androidModuleNameMap := <[modName (modInfo m) := alt]> (androidModuleNameMap st);
                androidModuleReverseMap := <[alt := modName (modInfo m)]> (androidModuleReverseMap st) |} in
        match androidModuleReverseMap st !! alt with
        | Some existing =>
            if bool_decide (existing ≠ modName (modInfo m))
            then Die (collisionMessage (modName (modInfo m)) existing alt)
            else register
        | None => register
        end
      else Ok st
  | None => Ok st
  end.

(** A mutator pass: the calls in the order the lock admits them. *)
Fixpoint mapAndroidNamesAll (ms : list Module) (st : NameMaps) : Res NameMaps :=
  match ms with
  | [] => Ok st
  | m :: ms' => st' ← mapAndroidNames m st; mapAndroidNamesAll ms' st'
  end.

(** ** The late-template engine *)

Inductive tgtType := tgtTypeTarget | tgtTypeHost.

#[global] Instance tgtType_eq_dec : EqDecision tgtType.
Proof. solve_decision. Defined.

(** What the engine asks of other packages:
    [pathMatch pattern name] is [pathtools.Match] ([None] when it
    returns an error), [getBackendPathInSourceDir] the backend's
    rendering of a source path, [IsNotCompilableSource] the predicate of
    [utils], and [checkFlagIsSupported tgt lang flag] the query on the
    toolchain selected for target type [tgt]. *)
Record LateEnv := {
  pathMatch : string -> string -> option bool;
  getBackendPathInSourceDir : string -> string;
  IsNotCompilableSource : string -> bool;
  checkFlagIsSupported : tgtType -> string -> string -> bool
}.

(** A property record as [reflect] shows it: the kinds the engine
    switches on, and everything else. *)
Inductive PropValue :=
| PVString (s : string)
| PVSlice (l : list string)
| PVPtr (target : option string)
| PVStruct (fields : list (string * PropValue))
| PVOther.

Definition PropStruct := list (string * PropValue).

(** The module as the mutator context shows it.  Each optional field
    is [Some] when the module's type implements the interface named:
    [featurable] ([featurableProperties]), [matchSourceInterface]
    ([getMatchSourcePropNames]; [ltSources] is then the value of
    [getSourceProperties().getSources]), [moduleWithBuildProps]
    ([build().TargetType]) and [enableable] ([isEnabled]).
    [ltIsLibrary] is the [ok] of [getLibrary]. *)
Record LTModule := {
  ltModuleName : string;
  ltFeaturable : option (list PropStruct);
  ltMatchSource : option (list string);
  ltSources : list string;
  ltIsLibrary : bool;
  ltBuildProps : option tgtType;
  ltEnabled : option bool
}.

(** The closures registered in a [template.FuncMap]. *)
Inductive LateFn :=
| FnMatchSrcs
| FnAddIfSupported (tc : tgtType) (languages : list string).

Definition addtoFuncmap (propfnmap : gmap string (gmap string LateFn))
    (propList : list string) (name : string) (fn : LateFn)
  : gmap string (gmap string LateFn) :=
  foldl (fun pm prop => <[prop := <[name := fn]> (default ∅ (pm !! prop))]> pm)
        propfnmap propList.

Definition initializeNonCompiledSourceMap (env : LateEnv) (m : LTModule) : gmap string bool :=
  if ltIsLibrary m then
    foldl (fun nc src => if IsNotCompilableSource env src then <[src := false]> nc else nc)
          ∅ (ltSources m)
  else ∅.

Definition matchSrcProps (m : LTModule) : list string := default [] (ltMatchSource m).

Definition setupMatchSources (env : LateEnv) (m : LTModule)
    (propfnmap : gmap string (gmap string LateFn))
  : gmap string (gmap string LateFn) * gmap string bool :=
  (addtoFuncmap propfnmap (matchSrcProps m) "match_srcs" FnMatchSrcs,
   initializeNonCompiledSourceMap env m).

(** The [for _, src := range s.getSources(ctx)] loop of [matchSources]. *)
Fixpoint matchLoop (env : LateEnv) (arg : string) (srcs : list string)
    (st : gmap string bool * list string) : Res (gmap string bool * list string) :=
  match srcs with
  | [] => Ok st
  | src :: srcs' =>
      match pathMatch env ("**/" +:+ arg) src with
      | None => Die "Error during matching filepath pattern"
      | Some true =>
          matchLoop env arg srcs'
            (<[src := true]> st.1, st.2 ++ [getBackendPathInSourceDir env src])
      | Some false => matchLoop env arg srcs' st
      end
  end.

Definition couldNotMatch (arg moduleName : string) : string :=
  "Could not match '" +:+ arg +:+ "' for module '" +:+ moduleName +:+ "'".

(** The callback implementing [{{match_srcs}}]. *)
Definition matchSources (env : LateEnv) (m : LTModule) (arg : string)
    (matchedNonCompiledSources : gmap string bool) : Res (string * gmap string bool) :=
  '(matched, matchedSources) ← matchLoop env arg (ltSources m) (matchedNonCompiledSources, []);
  if (length matchedSources =? 0)%nat
  then Die (couldNotMatch arg (ltModuleName m))
  else Ok (GoStrings.Join matchedSources " ", matched).

Definition notUsedMessage (src : string) : string :=
  "Non-compiled source " +:+ src +:+ " is not used by match_srcs.".

(** [verifyMatchSources].  Go ranges over the map in no fixed order;
    the model takes the order of [map_to_list]. *)
Definition verifyMatchSources (matchedNonCompiledSources : gmap string bool) : Res unit :=
  match List.find (fun kv => negb kv.2) (map_to_list matchedNonCompiledSources) with
  | Some (src, _) => Die (notUsedMessage src)
  | None => Ok tt
  end.

Fixpoint checkCompilerFlag (env : LateEnv) (flag : string) (languages : list string)
    (tc : tgtType) : string :=
  match languages with
  | [] => EmptyString
  | lang :: languages' =>
      if checkFlagIsSupported env tc lang flag then flag
      else checkCompilerFlag env flag languages' tc
  end.

Definition setupAddIfSupported (m : LTModule) (propfnmap : gmap string (gmap string LateFn))
  : gmap string (gmap string LateFn) :=
  match ltBuildProps m with
  | Some tgt =>
      let p1 := addtoFuncmap propfnmap ["Cflags"; "Export_cflags"] "add_if_supported"
                  (FnAddIfSupported tgt ["c++"; "c"]) in
      let p2 := addtoFuncmap p1 ["Cxxflags"] "add_if_supported" (FnAddIfSupported tgt ["c++"]) in
      addtoFuncmap p2 ["Conlyflags"] "add_if_supported" (FnAddIfSupported tgt ["c"])
  | None => propfnmap
  end.

(** *** The template language

    [text/template] is modelled for the templates late expansion is
    used with: literal text, and actions [{{name "arg"}}] calling a
    function of the funcmap on one string literal without escapes.
    As in Go, text without the left delimiter is a template that
    prints itself, a line feed inside the quotes is a parse error
    (unterminated quoted string), and the argument handed to the
    function is what [strconv.Unquote] makes of the bytes between the
    quotes.  Actions of any other form (pipelines, built-in
    functions, several arguments, raw strings, escapes, trim markers,
    comments, control structures) are outside the model, which
    reports them as parse errors. *)

Inductive TmplNode :=
| TText (s : string)
| TAction (name arg : string).

Inductive LexState :=
| InText (acc : string)
| AfterBrace (acc : string)
| ActionStart
| InName (name : string)
| AfterName (name : string)
| InArg (name arg : string)
| AfterArg (name arg : string)
| ClosingBrace (name arg : string).

Definition textNode (acc : string) : list TmplNode :=
  match acc with
  | EmptyString => []
  | _ => [TText acc]
  end.

Definition snoc (s : string) (c : ascii) : string := s +:+ String c EmptyString.

Definition isNameChar (c : ascii) : bool :=
  let n := nat_of_ascii c in
  ((97 <=? n) && (n <=? 122) || (65 <=? n) && (n <=? 90) ||
   (48 <=? n) && (n <=? 57) || (n =? 95))%nat.

(** [strconv.Unquote] on the bytes between the quotes of a string
    literal without escapes.  A byte that does not start a UTF-8
    encoding accepted by [utf8.DecodeRuneInString] is replaced by the
    encoding of U+FFFD; everything else is kept. *)
Definition replacementChar : string :=
  String "239"%char (String "191"%char (String "189"%char EmptyString)).

Definition byteIn (lo hi : nat) (c : ascii) : bool :=
  ((lo <=? nat_of_ascii c) && (nat_of_ascii c <=? hi))%nat.

(** The second byte accepted after the first byte [c0] of an encoding
    of three or four bytes. *)
Definition secondByte (c0 c1 : ascii) : bool :=
  if (nat_of_ascii c0 =? 224)%nat then byteIn 160 191 c1
  else if (nat_of_ascii c0 =? 237)%nat then byteIn 128 159 c1
  else if (nat_of_ascii c0 =? 240)%nat then byteIn 144 191 c1
  else if (nat_of_ascii c0 =? 244)%nat then byteIn 128 143 c1
  else byteIn 128 191 c1.

Fixpoint strconvUnquote (s : string) : string :=
  match s with
  | EmptyString => EmptyString
  | String c0 s1 =>
      if byteIn 0 127 c0 then String c0 (strconvUnquote s1)
      else if byteIn 194 223 c0 then
        match s1 with
        | String c1 s2 =>
            if byteIn 128 191 c1 then String c0 (String c1 (strconvUnquote s2))
            else replacementChar +:+ strconvUnquote s1
        | EmptyString => replacementChar
        end
      else if byteIn 224 239 c0 then
        match s1 with
        | String c1 (String c2 s3) =>
            if secondByte c0 c1 && byteIn 128 191 c2
            then String c0 (String c1 (String c2 (strconvUnquote s3)))
            else replacementChar +:+ strconvUnquote s1
        | _ => replacementChar +:+ strconvUnquote s1
        end
      else if byteIn 240 244 c0 then
        match s1 with
        | String c1 (String c2 (String c3 s4)) =>
            if secondByte c0 c1 && byteIn 128 191 c2 && byteIn 128 191 c3
            then String c0 (String c1 (String c2 (String c3 (strconvUnquote s4))))
            else replacementChar +:+ strconvUnquote s1
        | _ => replacementChar +:+ strconvUnquote s1
        end
      else replacementChar +:+ strconvUnquote s1
  end.

Fixpoint lexTemplate (s : string) (st : LexState) (out : list TmplNode)
  : option (list TmplNode) :=
  match s with
  | EmptyString =>
      match st with
      | InText acc => Some (out ++ textNode acc)
      | AfterBrace acc => Some (out ++ textNode (snoc acc "{"))
      | _ => None
      end
  | String c s' =>
      match st with
      | InText acc =>
          if Ascii.eqb c "{" then lexTemplate s' (AfterBrace acc) out
          else lexTemplate s' (InText (snoc acc c)) out
      | AfterBrace acc =>
          if Ascii.eqb c "{" then lexTemplate s' ActionStart (out ++ textNode acc)
          else lexTemplate s' (InText (snoc (snoc acc "{") c)) out
      | ActionStart =>
          if Ascii.eqb c " " then lexTemplate s' ActionStart out
          else if isNameChar c then lexTemplate s' (InName (String c EmptyString)) out
          else None
      | InName name =>
          if Ascii.eqb c " " then lexTemplate s' (AfterName name) out
          else if isNameChar c then lexTemplate s' (InName (snoc name c)) out
          else None
      | AfterName name =>
          if Ascii.eqb c " " then lexTemplate s' (AfterName name) out
          else if Ascii.eqb c dquote then lexTemplate s' (InArg name EmptyString) out
          else None
      | InArg name arg =>
          if Ascii.eqb c dquote then lexTemplate s' (AfterArg name (strconvUnquote arg)) out
          else if Ascii.eqb c backslash then None
          else if Ascii.eqb c "010" then None
          else lexTemplate s' (InArg name (snoc arg c)) out
      | AfterArg name arg =>
          if Ascii.eqb c " " then lexTemplate s' (AfterArg name arg) out
          else if Ascii.eqb c "}" then lexTemplate s' (ClosingBrace name arg) out
          else None
      | ClosingBrace name arg =>
          if Ascii.eqb c "}"
          then lexTemplate s' (InText EmptyString) (out ++ [TAction name arg])
          else None
      end
  end.

(** [Template.Parse]: the nodes, or [None] for a syntax error or a
    function that the funcmap does not define. *)
Definition parseTemplate (funcmap : gmap string LateFn) (s : string) : option (list TmplNode) :=
  match lexTemplate s (InText EmptyString) [] with
  | Some nodes =>
      if forallb (fun n => match n with
                           | TText _ => true
                           | TAction name _ => bool_decide (is_Some (funcmap !! name))
                           end) nodes
      then Some nodes else None
  | None => None
  end.

Definition parseError (s : string) : string :=
  "Error parsing string '" +:+ s +:+ "': template: TemplateProps: parse error".

(** Calling a registered closure. *)
Definition callLateFn (env : LateEnv) (m : LTModule) (fn : LateFn) (arg : string)
    (st : gmap string bool) : Res (string * gmap string bool) :=
  match fn with
  | FnMatchSrcs => matchSources env m arg st
  | FnAddIfSupported tc languages => Ok (checkCompilerFlag env arg languages tc, st)
  end.

(** [Template.Execute] into a buffer. *)
Fixpoint executeTemplate (env : LateEnv) (m : LTModule) (funcmap : gmap string LateFn)
    (nodes : list TmplNode) (buf : string) (st : gmap string bool)
  : Res (string * gmap string bool) :=
  match nodes with
  | [] => Ok (buf, st)
  | TText s :: nodes' => executeTemplate env m funcmap nodes' (buf +:+ s) st
  | TAction name arg :: nodes' =>
      match funcmap !! name with
      | Some fn =>
          '(r, st') ← callLateFn env m fn arg st;
          executeTemplate env m funcmap nodes' (buf +:+ r) st'
      | None => Die (parseError name)
      end
  end.

(** [applyTemplateString] (template.go) with [stringvalues = nil]. *)
Definition applyTemplateString (env : LateEnv) (m : LTModule) (funcmap : gmap string LateFn)
    (elem : string) (st : gmap string bool) : Res (string * gmap string bool) :=
  match parseTemplate funcmap elem with
  | None => Die (parseError elem)
  | Some tmpl => executeTemplate env m funcmap tmpl EmptyString st
  end.

Definition stripEmptyComponents (l : list string) : list string :=
  List.filter (fun s => negb (String.eqb s EmptyString)) l.

(** The [for j := 0; j < field.Len(); j++] loop over a string slice:
    the expanded elements, whether an empty string was seen, the map. *)
Fixpoint applySlice (env : LateEnv) (m : LTModule) (funcmap : gmap string LateFn)
    (elems : list string) (emptyStrings : bool) (st : gmap string bool)
  : Res (list string * bool * gmap string bool) :=
  match elems with
  | [] => Ok ([], emptyStrings, st)
  | elem :: elems' =>
      '(elem', st1) ← applyTemplateString env m funcmap elem st;
      '(rest, e, st2) ← applySlice env m funcmap elems'
                           (if String.eqb elem' EmptyString then true else emptyStrings) st1;
      Ok (elem' :: rest, e, st2)
  end.

(** The [for i := 0; i < propsVal.NumField(); i++] loop, given what is
    done to one field. *)
Definition eachField
    (onField : string -> PropValue -> gmap string bool -> Res (PropValue * gmap string bool))
  : list (string * PropValue) -> gmap string bool
    -> Res (list (string * PropValue) * gmap string bool) :=
  fix loop (fs : list (string * PropValue)) (st : gmap string bool) :=
    match fs with
    | [] => Ok ([], st)
    | (name, v) :: fs' =>
        '(v', st1) ← onField name v st;
        '(fs'', st2) ← loop fs' st1;
        Ok ((name, v') :: fs'', st2)
    end.

(** [applyLateTemplateRecursive], one field of kind [field] named
    [propName]; the [PVStruct] case is the function itself. *)
Fixpoint applyLateTemplateField (env : LateEnv) (m : LTModule)
    (propfnmap : gmap string (gmap string LateFn))
    (propName : string) (field : PropValue) (st : gmap string bool) {struct field}
  : Res (PropValue * gmap string bool) :=
  match field with
  | PVString s =>
      match propfnmap !! propName with
      | Some funcmap =>
          '(s', st') ← applyTemplateString env m funcmap s st; Ok (PVString s', st')
      | None => Ok (field, st)
      end
  | PVSlice l =>
      match propfnmap !! propName with
      | Some funcmap =>
          '(l', emptyStrings, st') ← applySlice env m funcmap l false st;
          Ok (PVSlice (if emptyStrings : bool then stripEmptyComponents l' else l'), st')
      | None => Ok (field, st)
      end
  | PVPtr target =>
      match propfnmap !! propName, target with
      | Some funcmap, Some s =>
          '(s', st') ← applyTemplateString env m funcmap s st; Ok (PVPtr (Some s'), st')
      | _, _ => Ok (field, st)
      end
  | PVStruct fields =>
      '(fields', st') ← eachField (applyLateTemplateField env m propfnmap) fields st;
      Ok (PVStruct fields', st')
  | PVOther => Ok (field, st)
  end.

Definition applyLateTemplateRecursive (env : LateEnv) (m : LTModule)
    (propfnmap : gmap string (gmap string LateFn))
    (propsVal : PropStruct) (st : gmap string bool)
  : Res (PropStruct * gmap string bool) :=
  '(v, st') ← applyLateTemplateField env m propfnmap EmptyString (PVStruct propsVal) st;
  match v with
  | PVStruct fields => Ok (fields, st')
  | _ => Ok (propsVal, st')
  end.

(** The [for _, p := range m.featurableProperties()] loop. *)
Fixpoint applyEach (env : LateEnv) (m : LTModule)
    (propfnmap : gmap string (gmap string LateFn))
    (ps : list PropStruct) (st : gmap string bool)
  : Res (list PropStruct * gmap string bool) :=
  match ps with
  | [] => Ok ([], st)
  | p :: ps' =>
      '(p', st1) ← applyLateTemplateRecursive env m propfnmap p st;
      '(ps'', st2) ← applyEach env m propfnmap ps' st1;
      Ok (p' :: ps'', st2)
  end.

Definition latePropfnmap (env : LateEnv) (m : LTModule) : gmap string (gmap string LateFn) :=
  setupAddIfSupported m (setupMatchSources env m ∅).1.

(** [applyLateTemplates]: the property records after the pass. *)
Definition applyLateTemplates (env : LateEnv) (m : LTModule) : Res (option (list PropStruct)) :=
  match ltFeaturable m with
  | None => Ok None
  | Some props =>
      let '(pfm0, nonCompiledSources) := setupMatchSources env m ∅ in
      let propfnmap := setupAddIfSupported m pfm0 in
      if (size propfnmap =? 0)%nat then Ok (Some props)
      else
        '(props', matched) ← applyEach env m propfnmap props nonCompiledSources;
        _ ← verifyMatchSources matched;
        Ok (Some props')
  end.

Definition withProps (m : LTModule) (props : option (list PropStruct)) : LTModule :=
  {| ltModuleName := ltModuleName m; ltFeaturable := props;
     ltMatchSource := ltMatchSource m; ltSources := ltSources m;
     ltIsLibrary := ltIsLibrary m; ltBuildProps := ltBuildProps m;
     ltEnabled := ltEnabled m |}.


(** ** The library and binary emitter *)

Inductive binType := binTypeStatic | binTypeShared | binTypeExecutable.

#[global] Instance binType_eq_dec : EqDecision binType.
Proof. solve_decision. Defined.

Definition classes (bt : binType) : string :=
  match bt with
  | binTypeStatic => "STATIC_LIBRARIES"
  | binTypeShared => "SHARED_LIBRARIES"
  | binTypeExecutable => "EXECUTABLES"
  end.

Definition rulePrefix (tgt : tgtType) : string :=
  match tgt with
  | tgtTypeTarget => "BUILD_"
  | tgtTypeHost => "BUILD_HOST_"
  end.

Definition ruleSuffix (bt : binType) : string :=
  match bt with
  | binTypeStatic => "STATIC_LIBRARY"
  | binTypeShared => "SHARED_LIBRARY"
  | binTypeExecutable => "EXECUTABLE"
  end.

(** Functions of [utils], [ccflags], [filepath], the configuration and
    the toolchains that the emitter calls.  [GetArmMode] returns [Die]
    where the Go function returns an error (the emitter panics on it). *)
Record AndroidEnv := {
  buildDir : string;
  PrefixDirs : list string -> string -> list string;
  IsCompilableSource : string -> bool;
  IsNotCompilable : string -> bool;
  AndroidCompileFlags : string -> bool;
  AndroidLinkFlags : string -> bool;
  GetCompilerStandard : list (list string) -> string;
  GetArmMode : list (list string) -> Res string;
  target_toolchain_clang : bool;
  keepSharedLibraryTransitivity : tgtType -> string;
  setVersionScript : tgtType -> string -> string;
  filepathJoin : string -> string -> string
}.

(** [m.Properties] of a [library], and what its methods and the module
    context return for it. *)
Record Library := {
  Build_wrapper : option string;
  outputFileName : string;
  outputDir : string;
  Local_include_dirs : list string;
  Export_local_include_dirs : list string;
  Include_dirs : list string;
  Export_include_dirs : list string;
  GetGeneratedHeaders : list string * list string;
  getAllGeneratedSourceModules : list string;
  getSources : list string;
  getVersionScript : option string;
  Cflags : list string;
  Export_cflags : list string;
  exportedCflags : list string;
  Cxxflags : list string;
  Conlyflags : list string;
  Shared_libs : list string;
  ResolvedStaticLibs : list string;
  Whole_static_libs : list string;
  Export_header_libs : list string;
  Header_libs : list string;
  Reexport_libs : list string;
  Tags : list string;
  isProprietary : bool;
  Owner : option string;
  stripRequested : bool;
  TargetType : tgtType;
  getAndroidInstallPath : string * string * bool;
  Post_install_cmd : option string;
  Post_install_tool : option string;
  Post_install_args : list string;
  getInstallDepPhonyNames : list string;
  Ldflags : list string;
  Ldlibs : list string
}.

Definition specifyCompilerStandard (env : AndroidEnv) (varname : string)
    (flags : list (list string)) : string :=
  let std := GetCompilerStandard env flags in
  if negb (String.eqb std EmptyString) then varname +:+ ":=" +:+ std +:+ nl else EmptyString.

Definition specifyArmMode (env : AndroidEnv) (flags : list (list string)) : Res string :=
  armMode ← GetArmMode env flags;
  Ok (if negb (String.eqb armMode EmptyString)
      then "LOCAL_ARM_MODE:=" +:+ armMode +:+ nl else EmptyString).

Definition isLinkTag (tag : DepTag) : bool :=
  match tag with
  | staticDepTag | sharedDepTag | wholeStaticDepTag => true
  | _ => false
  end.

Definition isGeneratedLibrary (m : Module) : bool :=
  match modKind (modInfo m) with
  | KGenerateStaticLibrary | KGenerateSharedLibrary => true
  | _ => false
  end.

(** [linksToGeneratedLibrary]: blueprint's [WalkDeps] calls the visitor
    on the dependency edges below the module, top down, and descends
    where the visitor returns true; [seenGeneratedLib] is threaded
    through the walk.  Blueprint descends into a module once; the
    model descends along every path, which calls the visitor on the
    same edges again and leaves the flag as it is.  [linkDepsLoop walk]
    is the pass over the direct dependencies of one module, [walk]
    being the descent. *)
Definition linkDepsLoop (walk : Module -> bool -> bool)
  : list (DepTag * Module) -> bool -> bool :=
  fix loop (ds : list (DepTag * Module)) (seenGeneratedLib : bool) : bool :=
    match ds with
    | [] => seenGeneratedLib
    | (tag, dep) :: ds' =>
        if isLinkTag tag then
          if isGeneratedLibrary dep then loop ds' true
          else loop ds' (walk dep seenGeneratedLib)
        else loop ds' seenGeneratedLib
    end.

Fixpoint walkLinkDeps (m : Module) (seenGeneratedLib : bool) {struct m} : bool :=
  match m with
  | Mod _ _ deps => linkDepsLoop walkLinkDeps deps seenGeneratedLib
  end.

Definition linksToGeneratedLibrary (m : Module) : bool := walkLinkDeps m false.

Definition notSharedLibrary (name : string) : string := name +:+ " is not a shared library".

(** The [VisitDirectDepsIf] call looking for a forwarding library. *)
Fixpoint visitSharedDeps (ds : list (DepTag * Module)) (hasForwardingLib : bool) : Res bool :=
  match ds with
  | [] => Ok hasForwardingLib
  | (tag, p) :: ds' =>
      if bool_decide (tag = sharedDepTag) then
        match modKind (modInfo p) with
        | KSharedLibrary =>
            visitSharedDeps ds' (if modForwarding (modInfo p) then true else hasForwardingLib)
        | KGenerateSharedLibrary => visitSharedDeps ds' hasForwardingLib
        | KExternalLib => visitSharedDeps ds' hasForwardingLib
        | _ => Die (notSharedLibrary (modName (modInfo p)))
        end
      else visitSharedDeps ds' hasForwardingLib
  end.

(** The copy rules for one generated-source module. *)
Definition writeGeneratedSource (altname : string) (sb : Builder) (module : string) : Builder :=
  let sources := "$(" +:+ module +:+ "_OUTPUTS)" in
  let sourcesDir := "$(" +:+ module +:+ "_GEN_DIR)" in
  let localSourceExpr :=
    "$(subst " +:+ sourcesDir +:+ ", $(local-generated-sources-dir), " +:+ sources +:+ ")" in
  let localSources := "$(" +:+ altname +:+ "_" +:+ module +:+ "_SRCS)" in
  let sb := WriteString sb (altname +:+ "_" +:+ module +:+ "_SRCS:=" +:+ localSourceExpr +:+ nl) in
  let sb := WriteString sb ("LOCAL_GENERATED_SOURCES+=" +:+ localSources +:+ nl) in
  let sb := WriteString sb
    (localSources +:+ ": $(local-generated-sources-dir)" +:+ "/%: " +:+ sourcesDir +:+ "/%" +:+ nl) in
  WriteString sb (tab +:+ "cp $< $@" +:+ nl +:+ nl).

(** The partition of [Reexport_libs]. *)
Definition reexportStep (sharedLibs staticLibs headerLibs : list string)
    (acc : list string * list string * list string) (lib : string)
  : list string * list string * list string :=
  let '(reexportShared, reexportStatic, reexportHeaders) := acc in
  if bool_decide (lib ∈ sharedLibs) then (reexportShared ++ [lib], reexportStatic, reexportHeaders)
  else if bool_decide (lib ∈ staticLibs) then (reexportShared, reexportStatic ++ [lib], reexportHeaders)
  else if bool_decide (lib ∈ headerLibs) then (reexportShared, reexportStatic, reexportHeaders ++ [lib])
  else acc.

(** [LOCAL_POST_INSTALL_CMD]: [${args}] first, then the entries of the
    [args] map in the order the range yields them. *)
Definition postInstallCmd (m : Library) (cmd0 : string) : string :=
  let args : gmap string string :=
    <["out" := "$(LOCAL_INSTALLED_MODULE)"]>
      (match Post_install_tool m with
       | Some tool => <["tool" := tool]> ∅
       | None => ∅
       end) in
  let cmd := GoStrings.ReplaceAll cmd0 "${args}" (GoStrings.Join (Post_install_args m) " ") in
  foldl (fun cmd kv => GoStrings.ReplaceAll cmd ("${" +:+ kv.1 +:+ "}") kv.2)
        cmd (map_to_list args).

Definition isMultiLibOf (md : Module) (tgt : tgtType) (bt : binType) (ok : bool) : bool :=
  let isMultiLib :=
    bool_decide (tgt = tgtTypeTarget) &&
    (bool_decide (bt = binTypeShared) || bool_decide (bt = binTypeStatic) || ok) in
  if isMultiLib && linksToGeneratedLibrary md then false else isMultiLib.

Definition binTypeOf (md : Module) : Res binType :=
  match modKind (modInfo md) with
  | KStaticLibrary => Ok binTypeStatic
  | KSharedLibrary => Ok binTypeShared
  | KBinary => Ok binTypeExecutable
  | _ => Die "Unexpected module type"
  end.

Definition isSharedOrExecutable (bt : binType) : bool :=
  bool_decide (bt = binTypeShared) || bool_decide (bt = binTypeExecutable).

(** [androidLibraryBuildAction] is embedded in three parts, in source
    order.  First part: from the header to [LOCAL_STRIP_MODULE]. *)
Definition libraryCompileSection (env : AndroidEnv) (names : NameMaps) (sb : Builder)
    (md : Module) (m : Library) (bt : binType) : Res Builder :=
  let sb := WriteString sb
    ("##########################" +:+ nl +:+ "include $(CLEAR_VARS)" +:+ nl +:+ nl) in
  let sb := WriteString sb ("LOCAL_MODULE:=" +:+ altName md +:+ nl) in
  let sb := WriteString sb ("LOCAL_MODULE_CLASS:=" +:+ classes bt +:+ nl +:+ nl) in
  let includes := PrefixDirs env (Local_include_dirs m) "$(LOCAL_PATH)" in
  let includes := includes ++ PrefixDirs env (Export_local_include_dirs m) "$(LOCAL_PATH)" in
  let includes := includes ++ Include_dirs m in
  let includes := includes ++ Export_include_dirs m in
  let exportIncludeDirs :=
    Export_include_dirs m ++ PrefixDirs env (Export_local_include_dirs m) "$(LOCAL_PATH)" in
  let '(headerDirs, headerOutputs) := GetGeneratedHeaders m in
  let includes := includes ++ headerDirs in
  let additionalDeps := headerOutputs in
  let sb := foldl (writeGeneratedSource (altName md)) sb (getAllGeneratedSourceModules m) in
  let sb := WriteString sb
    (if target_toolchain_clang env then "LOCAL_CLANG := true" +:+ nl
     else "LOCAL_CLANG := false" +:+ nl) in
  let srcs := getSources m in
  let nonCompiledDeps := List.filter (IsNotCompilable env) srcs in
  let srcs := List.filter (IsCompilableSource env) srcs in
  let sb := writeListAssignment sb "LOCAL_SRC_FILES" srcs in
  let versionScript := getVersionScript m in
  let additionalDeps :=
    if isSharedOrExecutable bt then
      match versionScript with
      | Some v => additionalDeps ++ [v]
      | None => additionalDeps
      end
    else additionalDeps in
  let additionalDeps := additionalDeps ++ PrefixDirs env nonCompiledDeps "$(LOCAL_PATH)" in
  let sb := writeListAssignment sb "LOCAL_ADDITIONAL_DEPENDENCIES" additionalDeps in
  let sb := writeListAssignment sb "LOCAL_C_INCLUDES" includes in
  let cflagsList := Cflags m ++ Export_cflags m in
  let cflagsList := cflagsList ++ exportedCflags m in
  let sb := writeListAssignment sb "LOCAL_CFLAGS"
              (List.filter (AndroidCompileFlags env) cflagsList) in
  let sb := writeListAssignment sb "LOCAL_CPPFLAGS"
              (List.filter (AndroidCompileFlags env) (Cxxflags m)) in
  let sb := writeListAssignment sb "LOCAL_CONLYFLAGS"
              (List.filter (AndroidCompileFlags env) (Conlyflags m)) in
  let sb := WriteString sb
              (specifyCompilerStandard env "LOCAL_C_STD" [cflagsList; Conlyflags m]) in
  let sb := WriteString sb
              (specifyCompilerStandard env "LOCAL_CPP_STD" [cflagsList; Cxxflags m]) in
  armLine ← specifyArmMode env [cflagsList; Conlyflags m; Cxxflags m];
  let sb := WriteString sb armLine in
  let sharedLibs := androidModuleNames names (Shared_libs m) in
  let staticLibs := androidModuleNames names (ResolvedStaticLibs m) in
  let wholeStaticLibs := androidModuleNames names (Whole_static_libs m) in
  let exportHeaderLibs := androidModuleNames names (Export_header_libs m) in
  let headerLibs := androidModuleNames names (Header_libs m) ++ exportHeaderLibs in
  let sb := writeListAssignment sb "LOCAL_SHARED_LIBRARIES" sharedLibs in
  let sb := writeListAssignment sb "LOCAL_STATIC_LIBRARIES" staticLibs in
  let sb := writeListAssignment sb "LOCAL_WHOLE_STATIC_LIBRARIES" wholeStaticLibs in
  let sb := writeListAssignment sb "LOCAL_HEADER_LIBRARIES" headerLibs in
  let '(reexportShared, reexportStatic, reexportHeaders) :=
    foldl (reexportStep sharedLibs staticLibs headerLibs) ([], [], exportHeaderLibs)
          (androidModuleNames names (Reexport_libs m)) in
  let sb := writeListAssignment sb "LOCAL_EXPORT_SHARED_LIBRARY_HEADERS" reexportShared in
  let sb := writeListAssignment sb "LOCAL_EXPORT_STATIC_LIBRARY_HEADERS" reexportStatic in
  let sb := writeListAssignment sb "LOCAL_EXPORT_HEADER_LIBRARY_HEADERS" reexportHeaders in
  let sb := writeListAssignment sb "LOCAL_MODULE_TAGS" (Tags m) in
  let sb := writeListAssignment sb "LOCAL_EXPORT_C_INCLUDE_DIRS" exportIncludeDirs in
  let sb :=
    if isProprietary m then
      let sb := WriteString sb
        ("LOCAL_MODULE_OWNER := " +:+ default EmptyString (Owner m) +:+ nl) in
      WriteString sb ("LOCAL_PROPRIETARY_MODULE := true" +:+ nl)
    else sb in
  let sb :=
    if stripRequested m then WriteString sb ("LOCAL_STRIP_MODULE := true" +:+ nl) else sb in
  Ok sb.

(** Second part: the installation block, [ok] being the third result of
    [getAndroidInstallPath]. *)
Definition libraryInstallSection (env : AndroidEnv) (names : NameMaps) (sb : Builder)
    (m : Library) (bt : binType) (isMultiLib : bool) : Builder :=
  let tgt := TargetType m in
  let '(installBase, installRel, ok) := getAndroidInstallPath m in
  if ok then
    let sb :=
      match Post_install_cmd m with
      | Some cmd0 => WriteString sb ("LOCAL_POST_INSTALL_CMD=" +:+ postInstallCmd m cmd0 +:+ nl)
      | None => sb
      end in
    let sb :=
      if bool_decide (bt = binTypeExecutable) then
        if isMultiLib then
          let fullInstallPath := filepathJoin env installBase installRel in
          let sb := WriteString sb ("LOCAL_MODULE_PATH_32:=" +:+ fullInstallPath +:+ nl) in
          WriteString sb ("LOCAL_MODULE_PATH_64:=" +:+ fullInstallPath +:+ "64" +:+ nl)
        else
          let sb := WriteString sb ("LOCAL_MODULE_PATH:=" +:+ installBase +:+ nl) in
          let sb := WriteString sb ("LOCAL_MODULE_RELATIVE_PATH:=" +:+ installRel +:+ nl) in
          if bool_decide (tgt = tgtTypeTarget)
          then WriteString sb
                 ("LOCAL_UNSTRIPPED_PATH:=$(TARGET_OUT_EXECUTABLES_UNSTRIPPED)" +:+ nl)
          else sb
      else WriteString sb ("LOCAL_MODULE_RELATIVE_PATH:=" +:+ installRel +:+ nl) in
    let requiredModuleNames := getInstallDepPhonyNames m in
    if (0 <? length requiredModuleNames)%nat then
      WriteString sb ("LOCAL_REQUIRED_MODULES:=" +:+
                      newlineSeparatedList (map (androidModuleName names) requiredModuleNames))
    else sb
  else
    if bool_decide (tgt = tgtTypeTarget) && negb (bool_decide (bt = binTypeShared))
    then WriteString sb ("LOCAL_UNINSTALLABLE_MODULE:=true" +:+ nl)
    else sb.

(** The list handed to the [LOCAL_LDFLAGS] assignments. *)
Definition libraryLdflags (env : AndroidEnv) (m : Library) (bt : binType)
    (copydtneeded : string) : list string :=
  let ldflags := List.filter (AndroidLinkFlags env) (Ldflags m) in
  let ldflags := ldflags ++ [copydtneeded] in
  if isSharedOrExecutable bt then
    match getVersionScript m with
    | Some v => ldflags ++ [setVersionScript env (TargetType m) v]
    | None => ldflags
    end
  else ldflags.

(** Third part: link flags, libraries and the closing [include]. *)
Definition libraryLinkSection (env : AndroidEnv) (sb : Builder)
    (m : Library) (bt : binType) (isMultiLib : bool) (copydtneeded : string) : Builder :=
  let tgt := TargetType m in
  let ldflags := libraryLdflags env m bt copydtneeded in
  let sb :=
    if isMultiLib then
      let sb := WriteString sb ("LOCAL_MULTILIB:=both" +:+ nl) in
      let sb := writeListAssignment sb "LOCAL_LDFLAGS_32" ldflags in
      writeListAssignment sb "LOCAL_LDFLAGS_64" ldflags
    else writeListAssignment sb "LOCAL_LDFLAGS" ldflags in
  let sb :=
    if bool_decide (tgt = tgtTypeTarget)
    then writeListAssignment sb "LOCAL_LDLIBS" (Ldlibs m)
    else writeListAssignment sb "LOCAL_LDLIBS_$(HOST_OS)" (Ldlibs m) in
  WriteString sb (nl +:+ "include $(" +:+ rulePrefix tgt +:+ ruleSuffix bt +:+ ")" +:+ nl).

Definition copyDtNeeded (env : AndroidEnv) (m : Library) (hasForwardingLib : bool) : string :=
  if hasForwardingLib
  then "-fuse-ld=bfd " +:+ keepSharedLibraryTransitivity env (TargetType m)
  else EmptyString.

(** What a call leaves behind: the builder, the build directory and
    the recorded [m.outs]. *)
Record Emitted := {
  emBuilder : Builder;
  emFiles : gmap string string;
  emOuts : list string
}.

Definition androidMkWriteString (env : AndroidEnv) (name : string) (sb : Builder)
    (fs : gmap string string) : gmap string string :=
  <[getPathInBuildDir (buildDir env) (name +:+ ".inc") := contents sb]> fs.

Definition androidLibraryBuildAction (env : AndroidEnv) (names : NameMaps) (sb : Builder)
    (md : Module) (m : Library) (fs : gmap string string) : Res Emitted :=
  bt ← binTypeOf md;
  if bool_decide (is_Some (Build_wrapper m)) then Die "build_wrapper not supported on Android"
  else
    let outs := [filepathJoin env (outputDir m) (outputFileName m)] in
    sb ← libraryCompileSection env names sb md m bt;
    hasForwardingLib ← visitSharedDeps (modDirectDeps md) false;
    let copydtneeded := copyDtNeeded env m hasForwardingLib in
    let isMultiLib := isMultiLibOf md (TargetType m) bt (getAndroidInstallPath m).2 in
    let sb := libraryInstallSection env names sb m bt isMultiLib in
    let sb := libraryLinkSection env sb m bt isMultiLib copydtneeded in
    Ok {| emBuilder := sb;
          emFiles := androidMkWriteString env (altShortName md) sb fs;
          emOuts := outs |}.

(** [staticActions], [sharedActions] and [binaryActions]: a fresh
    builder for a module that is enabled and required; [None] when the
    module is skipped.  The output directory set before the call is
    [outputDir m]. *)
Definition libraryActions (env : AndroidEnv) (names : NameMaps)
    (md : Module) (m : Library) (fs : gmap string string) : Res (option Emitted) :=
  if enabledAndRequired md
  then e ← androidLibraryBuildAction env names [] md m fs; Ok (Some e)
  else Ok None.

(** ** Concrete environments and modules used in the examples *)

Module Examples.

Fixpoint endsWith (s suffix : string) : bool :=
  if String.eqb s suffix then true
  else match s with
       | EmptyString => false
       | String _ s' => endsWith s' suffix
       end.

(** [pathtools.Match] on the patterns of the examples: a pattern
    whose last component is [**] is an error ([GlobLastRecursiveErr]);
    [**/p], for [p] without glob metacharacters, matches the names
    whose trailing components are [p]. *)
Definition tailMatch (pattern name : string) : option bool :=
  if String.eqb pattern "**" || endsWith pattern "/**" then None
  else if GoStrings.HasPrefix pattern "**/" then
    let p := String.substring 3 (String.length pattern - 3) pattern in
    Some (String.eqb name p || endsWith name ("/" +:+ p))
  else Some (String.eqb pattern name).

(** Sources with one of the compiled extensions. *)
Definition compilable (s : string) : bool :=
  endsWith s ".c" || endsWith s ".cpp" || endsWith s ".cc" ||
  endsWith s ".S" || endsWith s ".s".

Definition lateEnv : LateEnv :=
  {| pathMatch := tailMatch;
     getBackendPathInSourceDir := fun src => "$(LOCAL_PATH)/" +:+ src;
     IsNotCompilableSource := fun s => negb (compilable s);
     checkFlagIsSupported := fun _ _ flag => negb (String.eqb flag "-Wunsupported") |}.

Definition androidEnv : AndroidEnv :=
  {| buildDir := "$(BOB_ANDROIDMK_DIR)";
     PrefixDirs := fun paths dir => map (fun p => dir +:+ "/" +:+ p) paths;
     IsCompilableSource := compilable;
     IsNotCompilable := fun s => negb (compilable s);
     AndroidCompileFlags := fun _ => true;
     AndroidLinkFlags := fun _ => true;
     GetCompilerStandard := fun _ => EmptyString;
     GetArmMode := fun _ => Ok EmptyString;
     target_toolchain_clang := true;
     keepSharedLibraryTransitivity := fun _ => "-Wl,--copy-dt-needed-entries";
     setVersionScript := fun _ v => "-Wl,--version-script," +:+ v;
     filepathJoin := fun a b => a +:+ "/" +:+ b |}.

Definition info (name : string) (kind : ModuleKind) (enabledRequired : bool) : ModInfo :=
  {| modName := name; modKind := kind; modNaming := Some (name, name);
     modEnabledAndRequired := enabledRequired; modForwarding := false |}.

(** An enabled, required static library linking a disabled one. *)
Definition libDisabled : Module := Mod (info "libB" KStaticLibrary false) 2 [].
Definition libUser : Module :=
  Mod (info "libA" KStaticLibrary true) 1 [(staticDepTag, libDisabled)].

(** Scenario 2 of the specification: two generators and an alias. *)
Definition genSingle : Module :=
  Mod (info "bob_test_generate_source_single" KGenerateSource true) 1 [].
Definition genDepOuts : Module :=
  Mod (info "bob_test_module_dep_outs" KGenerateSource true) 2 [(otherDepTag, genSingle)].

(** Scenario 4: two entries that wait for each other. *)
Definition cycleOrder : list androidMkFile :=
  [ {| Name := "M1"; Deps := ["M2"] |}; {| Name := "M2"; Deps := ["M1"] |} ].

(** A library with a linker script consumed through [match_srcs]. *)
Definition ldProps (ldflags : list string) : list PropStruct :=
  [ [ ("Srcs", PVSlice ["a.c"; "version.ld"]);
      ("Build", PVStruct [ ("Ldflags", PVSlice ldflags);
                           ("Cflags", PVSlice ["-O2"]) ]) ] ].

Definition ltLibrary (srcs ldflags : list string) : LTModule :=
  {| ltModuleName := "libfoo";
     ltFeaturable := Some [ [ ("Srcs", PVSlice srcs);
                              ("Build", PVStruct [ ("Ldflags", PVSlice ldflags);
                                                   ("Cflags", PVSlice ["-O2"]) ]) ] ];
     ltMatchSource := Some ["Ldflags"];
     ltSources := srcs;
     ltIsLibrary := true;
     ltBuildProps := Some tgtTypeTarget;
     ltEnabled := Some true |}.

Definition matchSrcsTemplate (glob : string) : string :=
  "{{match_srcs " +:+ String dquote glob +:+ String dquote "}}".

Definition plainLibrary (tgt : tgtType) (install : bool) : Library :=
  {| Build_wrapper := None; outputFileName := "libfoo.a";
     outputDir := "$(dir $(ALL_MODULES.libfoo.BUILT))";
     Local_include_dirs := []; Export_local_include_dirs := [];
     Include_dirs := []; Export_include_dirs := [];
     GetGeneratedHeaders := ([], []); getAllGeneratedSourceModules := [];
     getSources := ["a.c"; "b.c"; "x.h"]; getVersionScript := None;
     Cflags := []; Export_cflags := []; exportedCflags := [];
     Cxxflags := []; Conlyflags := [];
     Shared_libs := []; ResolvedStaticLibs := []; Whole_static_libs := [];
     Export_header_libs := []; Header_libs := []; Reexport_libs := [];
     Tags := []; isProprietary := false; Owner := None; stripRequested := false;
     TargetType := tgt;
     getAndroidInstallPath := ("$(TARGET_OUT)/bin", EmptyString, install);
     Post_install_cmd := None; Post_install_tool := None; Post_install_args := [];
     getInstallDepPhonyNames := [];
     Ldflags := []; Ldlibs := [] |}.

Definition libfoo : Module := Mod (info "libfoo" KStaticLibrary true) 1 [].

Definition genLib : Module := Mod (info "libgen" KGenerateStaticLibrary true) 3 [].
Definition libMid : Module :=
  Mod (info "libmid" KStaticLibrary true) 2 [(wholeStaticDepTag, genLib)].
Definition libTop : Module :=
  Mod (info "libtop" KSharedLibrary true) 1 [(headerDepTag, libfoo); (staticDepTag, libMid)].

(** The name maps after [libfoo] and [libmid] have registered, and a
    binary whose output name collides with [libfoo]. *)
Definition registered : NameMaps :=
  {| androidModuleNameMap := <["libmid" := "libmid"]> (<["libfoo" := "libfoo"]> ∅);
     androidModuleReverseMap := <["libmid" := "libmid"]> (<["libfoo" := "libfoo"]> ∅) |}.

Definition libClash : Module :=
  Mod {| modName := "other"; modKind := KBinary; modNaming := Some ("libfoo", "libfoo");
         modEnabledAndRequired := true; modForwarding := false |} 9 [].

(** The build directory after the orderer has run on the generators. *)
Definition generatorsInc : gmap string string :=
  {[ "out/Android.inc" :=
       "include $(BOB_ANDROIDMK_DIR)/bob_test_generate_source_single.inc" +:+ nl +:+
       "include $(BOB_ANDROIDMK_DIR)/bob_test_module_dep_outs.inc" +:+ nl ]}.

(** A library whose linker script is consumed by [match_srcs], and its
    property records after the late-template pass. *)
Definition ldLibrary : LTModule :=
  ltLibrary ["a.c"; "version.ld"] [matchSrcsTemplate "version.ld"].

Definition ldExpanded : list PropStruct :=
  [ [ ("Srcs", PVSlice ["a.c"; "version.ld"]);
      ("Build", PVStruct [ ("Ldflags", PVSlice ["$(LOCAL_PATH)/version.ld"]);
                           ("Cflags", PVSlice ["-O2"]) ]) ] ].

(** A generated source without build properties or non-compiled
    sources to account for. *)
Definition genModule : LTModule :=
  {| ltModuleName := "gen";
     ltFeaturable := Some [ [ ("Srcs", PVSlice ["in.txt"]);
                              ("Cmd", PVString ("cat " +:+ matchSrcsTemplate "in.txt"));
                              ("Args", PVSlice [matchSrcsTemplate "in.txt"; "-v"]) ] ];
     ltMatchSource := Some ["Args"; "Cmd"];
     ltSources := ["in.txt"];
     ltIsLibrary := false;
     ltBuildProps := None;
     ltEnabled := Some true |}.

Definition genExpanded : list PropStruct :=
  [ [ ("Srcs", PVSlice ["in.txt"]);
      ("Cmd", PVString "cat $(LOCAL_PATH)/in.txt");
      ("Args", PVSlice ["$(LOCAL_PATH)/in.txt"; "-v"]) ] ].

(** What the static-library emitter leaves for [libfoo]. *)
Definition libfooEmitted : Emitted :=
  match androidLibraryBuildAction androidEnv emptyNameMaps [] libfoo
          (plainLibrary tgtTypeTarget false) ∅ with
  | Ok e => e
  | Die _ => {| emBuilder := []; emFiles := ∅; emOuts := [] |}
  end.

End Examples.

(** ** Notions used to state the properties *)

(** The path-derived name, character by character: a slash becomes two
    underscores; a dot, a parenthesis or a dollar sign becomes one. *)
Definition renameChar (c : ascii) : string :=
  if Ascii.eqb c "/" then "__"
  else if Ascii.eqb c "." || Ascii.eqb c "(" || Ascii.eqb c ")" || Ascii.eqb c "$" then "_"
  else String c EmptyString.

Fixpoint mapChars (f : ascii -> string) (s : string) : string :=
  match s with
  | EmptyString => EmptyString
  | String c s' => f c +:+ mapChars f s'
  end.

(** Replacing one character by a string. *)
Definition replaceChar (a : ascii) (new : string) (c : ascii) : string :=
  if Ascii.eqb a c then new else String c EmptyString.

(** Every recorded backend name leads back to its declared name. *)
Definition reverseConsistent (st : NameMaps) : Prop :=
  forall declared alt : string,
    androidModuleNameMap st !! declared = Some alt ->
    androidModuleReverseMap st !! alt = Some declared.


(** The orderer in the words of the specification.  [removeName]
    takes an emitted name out of a dependency list; [readySmallest
    order low] says that [low] has no remaining dependency and that no
    entry without remaining dependencies has a smaller name;
    [EmitsSmallestReady order names] says that [names] is obtained by
    repeatedly emitting such an entry and removing its name from every
    dependency list. *)
Definition removeName (name : string) (o : androidMkFile) : androidMkFile :=
  {| Name := Name o;
     Deps := List.filter (fun d => negb (String.eqb d name)) (Deps o) |}.

Definition readySmallest (order : list androidMkFile) (low : androidMkFile) : Prop :=
  Deps low = [] /\
  forall o, o ∈ order -> Deps o = [] -> String.ltb (Name o) (Name low) = false.

Inductive EmitsSmallestReady : list androidMkFile -> list string -> Prop :=
| EmitsDone : EmitsSmallestReady [] []
| EmitsNext (order : list androidMkFile) (i : nat) (low : androidMkFile) (names : list string) :
    order !! i = Some low ->
    readySmallest order low ->
    EmitsSmallestReady (removeAt i (map (removeName (Name low)) order)) names ->
    EmitsSmallestReady order (Name low :: names).

(** [D] comes before [M] in [names]. *)
Definition precedesIn (names : list string) (D M : string) : Prop :=
  exists l1 l2 l3, names = l1 ++ D :: l2 ++ M :: l3.

(** The states of the sorting loop at the top of a pass, from a
    starting state. *)
Inductive LoopReaches : list androidMkFile -> Builder -> list androidMkFile -> Builder -> Prop :=
| ReachesHere (order : list androidMkFile) (sb : Builder) : LoopReaches order sb order sb
| ReachesPass (order : list androidMkFile) (sb : Builder) (lowindex : nat)
    (order' : list androidMkFile) (sb' : Builder)
    (order2 : list androidMkFile) (sb2 : Builder) :
    order <> [] ->
    findLow order = Some lowindex ->
    sortStep order sb lowindex = (order', sb') ->
    LoopReaches order' sb' order2 sb2 ->
    LoopReaches order sb order2 sb2.

(** The diagnostic for one remaining entry: its name and, one per
    line, its unresolved dependencies. *)
Definition describeEntry (o : androidMkFile) : string :=
  (Name o +:+ " depends on" +:+ nl) +:+
  String.concat EmptyString (map (fun d => tab +:+ d +:+ nl) (Deps o)).

(** What [lowindex] is at the head of the inner loop, after the
    entries [pre] have been scanned. *)
Definition lowInvariant (order pre : list androidMkFile) (lowindex : option nat) : Prop :=
  match lowindex with
  | None => forall o, o ∈ pre -> Deps o <> []
  | Some li =>
      exists low, order !! li = Some low /\ low ∈ pre /\ readySmallest pre low
  end.


(** A module emits an [.inc] fragment when it has the backend naming,
    is enabled and required, and is of a kind that generates one. *)
Definition emitsInc (m : Module) : bool :=
  bool_decide (is_Some (modNaming (modInfo m))) && enabledAndRequired m &&
  generatesAndroidIncFile m.

(** The dependency list in the words of the specification. *)
Definition incDependencies (m : Module) : list string :=
  map altShortName (List.filter emitsInc (VisitDepsDepthFirst m)).


(** [matchesGlob env arg src]: the source matches the glob under a
    [**/] prefix; [matchFails env arg src]: matching it is an error. *)
Definition matchesGlob (env : LateEnv) (arg src : string) : bool :=
  match pathMatch env ("**/" +:+ arg) src with
  | Some true => true
  | _ => false
  end.

Definition matchFails (env : LateEnv) (arg src : string) : bool :=
  match pathMatch env ("**/" +:+ arg) src with
  | None => true
  | Some _ => false
  end.

(** Marking sources as matched. *)
Definition markMatched (st : gmap string bool) (srcs : list string) : gmap string bool :=
  foldl (fun st src => <[src := true]> st) st srcs.








(** [noDelim s]: the left delimiter of actions does not occur in [s];
    [afterBrace] tells whether the previous character was a brace. *)
Fixpoint noDelimFrom (s : string) (afterBrace : bool) : bool :=
  match s with
  | EmptyString => true
  | String c s' =>
      if Ascii.eqb c "{" then negb afterBrace && noDelimFrom s' true
      else noDelimFrom s' false
  end.

Definition noDelim (s : string) : bool := noDelimFrom s false.

Definition nonEmpty (s : string) : bool := negb (String.eqb s EmptyString).

(** [plainField]: no string that the engine expands in the field holds
    the delimiter.  [strippedField]: no string slice that the engine
    expands in the field holds an empty string. *)
Fixpoint plainField (propfnmap : gmap string (gmap string LateFn))
    (propName : string) (field : PropValue) {struct field} : bool :=
  match field with
  | PVString s =>
      match propfnmap !! propName with Some _ => noDelim s | None => true end
  | PVSlice l =>
      match propfnmap !! propName with Some _ => forallb noDelim l | None => true end
  | PVPtr target =>
      match propfnmap !! propName, target with
      | Some _, Some s => noDelim s
      | _, _ => true
      end
  | PVStruct fields => forallb (fun '(name, v) => plainField propfnmap name v) fields
  | PVOther => true
  end.

Fixpoint strippedField (propfnmap : gmap string (gmap string LateFn))
    (propName : string) (field : PropValue) {struct field} : bool :=
  match field with
  | PVSlice l =>
      match propfnmap !! propName with Some _ => forallb nonEmpty l | None => true end
  | PVStruct fields => forallb (fun '(name, v) => strippedField propfnmap name v) fields
  | _ => true
  end.

Definition plainProps (env : LateEnv) (m : LTModule) (props : option (list PropStruct)) : bool :=
  match props with
  | Some ps => forallb (fun p => plainField (latePropfnmap env m) EmptyString (PVStruct p)) ps
  | None => true
  end.


(** The line that turns multilib on. *)
Definition multilibLine : string := "LOCAL_MULTILIB:=both" +:+ nl.

(** The chunk [writeListAssignment] writes for a non-empty list. *)
Definition listAssignment (varname : string) (entries : list string) : string :=
  varname +:+ " := " +:+ GoStrings.Join entries " " +:+ nl.

(** [LinksGenerated m]: some chain of static, shared or whole-static
    link dependencies leads from [m] to a generated static or shared
    library. *)
Inductive LinksGenerated : Module -> Prop :=
| LinksDirectly (m : Module) (tag : DepTag) (dep : Module) :
    (tag, dep) ∈ modDirectDeps m -> isLinkTag tag = true ->
    isGeneratedLibrary dep = true -> LinksGenerated m
| LinksThrough (m : Module) (tag : DepTag) (dep : Module) :
    (tag, dep) ∈ modDirectDeps m -> isLinkTag tag = true ->
    LinksGenerated dep -> LinksGenerated m.

(** [m] has a direct shared-library dependency that is a forwarding
    shared library. *)
Definition hasForwardingDep (m : Module) : Prop :=
  exists p, (sharedDepTag, p) ∈ modDirectDeps m /\
            modKind (modInfo p) = KSharedLibrary /\ modForwarding (modInfo p) = true.

(** Occurrence of a character in a string. *)
Fixpoint containsChar (ch : ascii) (s : string) : bool :=
  match s with
  | EmptyString => false
  | String c s' => Ascii.eqb c ch || containsChar ch s'
  end.

(** Whether a builder holds the multilib line as one of its chunks. *)
Definition hasMultilibLine (sb : Builder) : bool := existsb (String.eqb multilibLine) sb.


(** The characters [pathToModuleName] replaces. *)
Definition isRenamedChar (ch : ascii) : bool :=
  Ascii.eqb ch "/" || Ascii.eqb ch "." || Ascii.eqb ch "(" || Ascii.eqb ch ")" ||
  Ascii.eqb ch "$".


(** ** The early template functions that hand over to the late engine
    (template.go) *)

Definition matchSrcs (input : string) : string :=
  ("{{match_srcs " +:+ String dquote EmptyString) +:+ input +:+ String dquote "}}".

Definition filter_compiler_flags (flag : string) : string :=
  ("{{add_if_supported " +:+ String dquote EmptyString) +:+ flag +:+ String dquote "}}".

(** A string without double quote, backslash and line feed: what the
    modelled template language accepts between the quotes of an
    argument. *)
Fixpoint plainArg (s : string) : bool :=
  match s with
  | EmptyString => true
  | String c s' =>
      negb (Ascii.eqb c dquote) && negb (Ascii.eqb c backslash) &&
      negb (Ascii.eqb c "010") && plainArg s'
  end.

(** A string of ASCII bytes. *)
Definition asciiOnly (s : string) : bool :=
  forallb (byteIn 0 127) (list_ascii_of_string s).

(** The function registered under [name] for the property [prop]. *)
Definition lateFnOf (propfnmap : gmap string (gmap string LateFn)) (prop name : string)
  : option LateFn :=
  propfnmap !! prop ≫= fun funcmap => funcmap !! name.

(** No property named in the field has late templates. *)
Fixpoint untouchedField (propfnmap : gmap string (gmap string LateFn))
    (propName : string) (field : PropValue) {struct field} : bool :=
  match field with
  | PVString _ | PVSlice _ | PVPtr _ => bool_decide (propfnmap !! propName = None)
  | PVStruct fields => forallb (fun '(name, v) => untouchedField propfnmap name v) fields
  | PVOther => true
  end.

(** Whether the toolchain accepts the flag for one of the languages. *)
Definition flagSupported (env : LateEnv) (tc : tgtType) (languages : list string)
    (flag : string) : bool :=
  existsb (fun lang => checkFlagIsSupported env tc lang flag) languages.


(** A module that may stand behind a shared-library dependency. *)
Definition sharedLibraryLike (p : Module) : bool :=
  match modKind (modInfo p) with
  | KSharedLibrary | KGenerateSharedLibrary | KExternalLib => true
  | _ => false
  end.

(** The flag lists scanned for the ARM mode. *)
Definition armModeFlags (m : Library) : list (list string) :=
  [(Cflags m ++ Export_cflags m) ++ exportedCflags m; Conlyflags m; Cxxflags m].

(** The three chunks every library fragment starts with and the one
    it ends with. *)
Definition libraryHeader (md : Module) (bt : binType) : list string :=
  [ "##########################" +:+ nl +:+ "include $(CLEAR_VARS)" +:+ nl +:+ nl;
    "LOCAL_MODULE:=" +:+ altName md +:+ nl;
    "LOCAL_MODULE_CLASS:=" +:+ classes bt +:+ nl +:+ nl ].

Definition libraryFooter (m : Library) (bt : binType) : string :=
  nl +:+ "include $(" +:+ rulePrefix (TargetType m) +:+ ruleSuffix bt +:+ ")" +:+ nl.


(** ** Generated modules: the types shared by the backends *)

Module Gen.

(** One element of [inouts]. *)
Record inout := {
  in_ : list string;
  out : list string;
  depfile : string;
  implicitSrcs : list string;
  implicitOuts : list string;
  rspfile : string
}.

(** A [generateCommon] module: the properties the backends read and
    what [m.getArgs(ctx)] and [ctx.ModuleName()] return for it. *)
Record generateCommon := {
  Name : string;
  ModuleName : string;
  Target : tgtType;
  Console : option bool;
  Rsp_content : option string;
  Export_gen_include_dirs : list string;
  getArgs : string * gmap string string * list string * tgtType
}.

(** All files an inout declares as produced. *)
Definition declared (io : inout) : list string := out io ++ implicitOuts io.

End Gen.

(** ** The Linux backend: build statements of a generated module
    ([linux_generated.go]) *)

Module Linux.

Inductive blueprintPool := PoolNil | PoolConsole.

Inductive blueprintDeps := DepsNone | DepsGCC.

Record RuleParams := {
  Command : string;
  Description : string;
  Restat : bool;
  Pool : blueprintPool;
  Rspfile : string;
  RspfileContent : string
}.

(** A rule is either one of the package's static rules or the rule
    [ctx.Rule] creates for a module, with the names of its arguments. *)
Inductive blueprintRule :=
| StaticRule (name : string) (params : RuleParams)
| ModuleRule (name : string) (params : RuleParams) (argNames : list string).

Definition copyRule : blueprintRule :=
  StaticRule "copy"
    {| Command := "cp $in $out"; Description := "$out"; Restat := false;
       Pool := PoolNil; Rspfile := EmptyString; RspfileContent := EmptyString |}.

Definition touchRule : blueprintRule :=
  StaticRule "touch"
    {| Command := "touch -c $out"; Description := "touch $out"; Restat := false;
       Pool := PoolNil; Rspfile := EmptyString; RspfileContent := EmptyString |}.

(** The fields of [blueprint.BuildParams] the backend sets.  [Args] is
    the content of the map when [ctx.Build] is called, which is when
    blueprint reads it. *)
Record BuildParams := {
  Rule : blueprintRule;
  Inputs : list string;
  Outputs : list string;
  Implicits : list string;
  ImplicitOutputs : list string;
  Args : gmap string string;
  Depfile : string;
  Deps : blueprintDeps;
  Optional : bool
}.

(** Functions of the generator and of [utils] used by the backend. *)
Record LinuxEnv := {
  sourceOutputDir : Gen.generateCommon -> string;
  sharedLibsDir : tgtType -> string;
  prefixInoutsWithOutputDir : list Gen.inout -> string -> list Gen.inout;
  outputsFromInout : list Gen.inout -> list string;
  PrefixDirs : list string -> string -> list string;
  StripUnusedArgs : gmap string string -> string -> gmap string string;
  SortedKeys : gmap string string -> list string
}.

Definition multipleOutputs (ModuleName : string) : string :=
  "Module " +:+ ModuleName +:+ " uses a depfile with multiple outputs".

(** One iteration of the loop over [inouts]: the argument map and the
    build statements so far, in the order of the [ctx.Build] calls. *)
Definition buildInout (ModuleName : string) (rule : blueprintRule) (implicits : list string)
    (st : gmap string string * list BuildParams) (io : Gen.inout)
  : Res (gmap string string * list BuildParams) :=
  let '(args, builds) := st in
  if negb (String.eqb (Gen.depfile io) EmptyString) && (1 <? length (Gen.out io))%nat
  then Die (multipleOutputs ModuleName)
  else
    let args :=
      if negb (String.eqb (Gen.rspfile io) EmptyString)
      then <["rspfile" := Gen.rspfile io]> args else args in
    if negb (String.eqb (Gen.depfile io) EmptyString) then
      let builds :=
        if (0 <? length (Gen.implicitOuts io))%nat then
          builds ++ [ {| Rule := touchRule;
                         Inputs := Gen.out io;
                         Outputs := Gen.implicitOuts io;
                         Implicits := [];
                         ImplicitOutputs := [];
                         Args := ∅;
                         Depfile := EmptyString;
                         Deps := DepsNone;
                         Optional := true |} ]
        else builds in
      Ok (args,
          builds ++ [ {| Rule := rule;
                         Inputs := Gen.in_ io;
                         Outputs := Gen.out io;
                         Implicits := Gen.implicitSrcs io ++ implicits;
                         ImplicitOutputs := [];
                         Args := args;
                         Depfile := Gen.depfile io;
                         Deps := DepsGCC;
                         Optional := true |} ])
    else
      Ok (args,
          builds ++ [ {| Rule := rule;
                         Inputs := Gen.in_ io;
                         Outputs := Gen.out io;
                         Implicits := Gen.implicitSrcs io ++ implicits;
                         ImplicitOutputs := Gen.implicitOuts io;
                         Args := args;
                         Depfile := EmptyString;
                         Deps := DepsNone;
                         Optional := true |} ]).

Fixpoint buildLoop (ModuleName : string) (rule : blueprintRule) (implicits : list string)
    (inouts : list Gen.inout) (st : gmap string string * list BuildParams)
  : Res (gmap string string * list BuildParams) :=
  match inouts with
  | [] => Ok st
  | io :: inouts' =>
      st ← buildInout ModuleName rule implicits st io;
      buildLoop ModuleName rule implicits inouts' st
  end.

(** What a call leaves behind: the fields set on the module, the rule
    and the build statements. *)
Record Generated := {
  outputdir : string;
  outs : list string;
  includeDirs : list string;
  rule : blueprintRule;
  builds : list BuildParams
}.

Definition generateCommonActions (env : LinuxEnv) (m : Gen.generateCommon)
    (inouts : list Gen.inout) : Res Generated :=
  let outputdir := sourceOutputDir env m in
  let inouts := prefixInoutsWithOutputDir env inouts outputdir in
  let outs := outputsFromInout env inouts in
  let includeDirs := PrefixDirs env (Gen.Export_gen_include_dirs m) outputdir in
  let '(cmd, args, implicits, hostTarget) := Gen.getArgs m in
  let ldLibraryPath :=
    if bool_decide (is_Some (args !! "host_bin"))
    then "LD_LIBRARY_PATH=" +:+ sharedLibsDir env hostTarget +:+ ":$$LD_LIBRARY_PATH "
    else EmptyString in
  let args := StripUnusedArgs env args cmd in
  let pool := if default false (Gen.Console m) then PoolConsole else PoolNil in
  let ruleparams :=
    {| Command := ldLibraryPath +:+ cmd;
       Description := "$out";
       Restat := true;
       Pool := pool;
       Rspfile :=
         match Gen.Rsp_content m with Some _ => "${rspfile}" | None => EmptyString end;
       RspfileContent := default EmptyString (Gen.Rsp_content m) |} in
  let rule :=
    ModuleRule ("gen_" +:+ Gen.Name m) ruleparams
      (SortedKeys env args ++ ["depfile"; "rspfile"]) in
  '(_, builds) ← buildLoop (Gen.ModuleName m) rule implicits inouts (args, []);
  Ok {| outputdir := outputdir; outs := outs; includeDirs := includeDirs;
        rule := rule; builds := builds |}.

(** The inouts as the loop sees them. *)
Definition prefixed (env : LinuxEnv) (m : Gen.generateCommon) (inouts : list Gen.inout)
  : list Gen.inout :=
  prefixInoutsWithOutputDir env inouts (sourceOutputDir env m).

(** All files a build statement declares as produced. *)
Definition produced (b : BuildParams) : list string := Outputs b ++ ImplicitOutputs b.

End Linux.

(** The restriction ninja puts on a statement with a depfile. *)
Definition depfileAlone (b : Linux.BuildParams) : Prop :=
  Linux.Depfile b <> EmptyString ->
  Linux.ImplicitOutputs b = [] /\ (length (Linux.Outputs b) <= 1)%nat /\
  Linux.Deps b = Linux.DepsGCC.

Module LinuxExamples.

Definition prefixInout (dir : string) (io : Gen.inout) : Gen.inout :=
  let under (f : string) := dir +:+ "/" +:+ f in
  {| Gen.in_ := Gen.in_ io;
     Gen.out := map under (Gen.out io);
     Gen.depfile :=
       if String.eqb (Gen.depfile io) EmptyString then EmptyString
       else under (Gen.depfile io);
     Gen.implicitSrcs := Gen.implicitSrcs io;
     Gen.implicitOuts := map under (Gen.implicitOuts io);
     Gen.rspfile :=
       if String.eqb (Gen.rspfile io) EmptyString then EmptyString
       else under (Gen.rspfile io) |}.

(** The commands of the examples use all their arguments, and their
    argument maps have one key. *)
Definition linuxEnv : Linux.LinuxEnv :=
  {| Linux.sourceOutputDir := fun m => "${BuildDir}/gen/" +:+ Gen.Name m;
     Linux.sharedLibsDir := fun _ => "${BuildDir}/host/shared";
     Linux.prefixInoutsWithOutputDir := fun inouts dir => map (prefixInout dir) inouts;
     Linux.outputsFromInout := flat_map Gen.declared;
     Linux.PrefixDirs := fun paths dir => map (fun p => dir +:+ "/" +:+ p) paths;
     Linux.StripUnusedArgs := fun args _ => args;
     Linux.SortedKeys := fun args => map fst (map_to_list args) |}.

Definition genTool : Gen.generateCommon :=
  {| Gen.Name := "gen";
     Gen.ModuleName := "gen";
     Gen.Target := tgtTypeHost;
     Gen.Console := None;
     Gen.Rsp_content := Some "${in}";
     Gen.Export_gen_include_dirs := ["."];
     Gen.getArgs :=
       ("${tool} -o ${out} @${rspfile}", {["tool" := "gen.py"]}, ["gen.py"], tgtTypeHost) |}.

(** A step with a response file, followed by a step with a depfile and
    an implicit output, and no response file of its own. *)
Definition ioFirst : Gen.inout :=
  {| Gen.in_ := ["a.in"]; Gen.out := ["a.c"; "a.h"]; Gen.depfile := EmptyString;
     Gen.implicitSrcs := []; Gen.implicitOuts := ["a.log"]; Gen.rspfile := "a.rsp" |}.

Definition ioSecond : Gen.inout :=
  {| Gen.in_ := ["b.in"]; Gen.out := ["b.c"]; Gen.depfile := "b.d";
     Gen.implicitSrcs := ["b.cfg"]; Gen.implicitOuts := ["b.h"];
     Gen.rspfile := EmptyString |}.

Definition genBuilds : Linux.Generated :=
  match Linux.generateCommonActions linuxEnv genTool [ioFirst; ioSecond] with
  | Ok g => g
  | Die _ =>
      {| Linux.outputdir := EmptyString; Linux.outs := []; Linux.includeDirs := [];
         Linux.rule := Linux.copyRule; Linux.builds := [] |}
  end.

End LinuxExamples.


(** ** The Android backend: rules of a generated module *)

(** [strings.Contains]. *)
Fixpoint stringsContains (s substr : string) : bool :=
  GoStrings.HasPrefix s substr ||
  match s with
  | EmptyString => false
  | String _ s' => stringsContains s' substr
  end.

(** Functions of [utils] and of the generated-module code used by the
    backend. *)
Record GenEnv := {
  prefixInoutsWithOutputDir : list Gen.inout -> string -> list Gen.inout;
  outputsFromInout : list Gen.inout -> list string;
  StripUnusedArgs : gmap string string -> string -> gmap string string;
  SortedKeys : gmap string string -> list string
}.

Definition outputDirVarName (m : Gen.generateCommon) : string := Gen.Name m +:+ "_GEN_DIR".

Definition sourceOutputDir (env : AndroidEnv) (m : Gen.generateCommon) : string :=
  if negb (bool_decide (Gen.Target m = tgtTypeHost))
  then filepathJoin env (filepathJoin env "$(TARGET_OUT_GEN)" "STATIC_LIBRARIES") (Gen.Name m)
  else filepathJoin env (filepathJoin env "$(HOST_OUT_GEN)" "STATIC_LIBRARIES") (Gen.Name m).

Definition outputsVarName (m : Gen.generateCommon) : string := Gen.Name m +:+ "_OUTPUTS".

Definition outputs (m : Gen.generateCommon) : string := "$(" +:+ outputsVarName m +:+ ")".

Definition transformDepFile (depfile : string) : string :=
  ("ifeq ($(word 1, $(subst ., ,$(PLATFORM_VERSION))),7)" +:+ nl) +:+
  (tab +:+ "$(call transform-d-to-p-args," +:+ depfile +:+ "," +:+ depfile +:+ ".P)" +:+ nl) +:+
  ("endif" +:+ nl).

Definition includeDepFile (target depfile : string) : string :=
  ("ifeq ($(word 1, $(subst ., ,$(PLATFORM_VERSION))),7)" +:+ nl) +:+
  ("  $(call include-depfile," +:+ depfile +:+ ".P," +:+ target +:+ ")" +:+ nl) +:+
  ("else" +:+ nl) +:+
  ("  $(call include-depfile," +:+ depfile +:+ "," +:+ target +:+ ")" +:+ nl) +:+
  ("endif" +:+ nl).

Definition indexOutOfRange : string := "runtime error: index out of range [0] with length 0".

(** The target-specific variable of one argument. *)
Definition writeArg (outs : string) (args : gmap string string) (sb : Builder) (key : string)
  : Builder :=
  WriteString sb (outs +:+ ": " +:+ key +:+ ":= " +:+ default EmptyString (args !! key) +:+ nl).

(** The rule making a further output depend on the first one. *)
Definition writeOtherOutput (m : Gen.generateCommon) (outs : string) (sb : Builder)
    (out : string) : Builder :=
  let sb := WriteString sb (out +:+ ": " +:+ outs +:+ nl) in
  WriteString sb (outputsVarName m +:+ " += " +:+ out +:+ nl).

(** One iteration of the loop over [inouts]; [inout.out[0]] panics on
    an empty list. *)
Definition writeInout (genv : GenEnv) (m : Gen.generateCommon) (cmd : string)
    (args : gmap string string) (sb : Builder) (io : Gen.inout) : Res Builder :=
  let ins := GoStrings.Join (Gen.in_ io) " " in
  match Gen.out io with
  | [] => Die indexOutOfRange
  | outs :: others =>
      let sb := foldl (writeArg outs args) sb (SortedKeys genv args) in
      let sb := WriteString sb (outs +:+ ": in := " +:+ ins +:+ nl) in
      let sb := WriteString sb (outs +:+ ": out := " +:+ GoStrings.Join (Gen.out io) " " +:+ nl) in
      let sb :=
        if negb (String.eqb (Gen.depfile io) EmptyString)
        then WriteString sb (outs +:+ ": depfile := " +:+ Gen.depfile io +:+ nl)
        else sb in
      let sb :=
        match Gen.Rsp_content m with
        | Some _ => WriteString sb (outs +:+ ": rspfile := " +:+ Gen.rspfile io +:+ nl)
        | None => sb
        end in
      let sb :=
        if stringsContains cmd "$(LOCAL_PATH)"
        then WriteString sb (outs +:+ ": LOCAL_PATH := $(LOCAL_PATH)" +:+ nl)
        else sb in
      let sb :=
        WriteString sb
          (outs +:+ ": " +:+ ins +:+ " " +:+ GoStrings.Join (Gen.implicitSrcs io) " " +:+ nl) in
      let sb :=
        match Gen.Rsp_content m with
        | Some content =>
            WriteString sb
              (tab +:+ "echo " +:+ String dquote content +:+ String dquote " > " +:+
               String dquote "$(rspfile)" +:+ String dquote nl)
        | None => sb
        end in
      let sb := WriteString sb (tab +:+ cmd +:+ nl) in
      let sb :=
        if negb (String.eqb (Gen.depfile io) EmptyString) then
          let sb := WriteString sb (transformDepFile "$(depfile)") in
          WriteString sb (includeDepFile outs (Gen.depfile io))
        else sb in
      let sb := WriteString sb (outputsVarName m +:+ " += " +:+ outs +:+ nl) in
      let sb := foldl (writeOtherOutput m outs) sb (others ++ Gen.implicitOuts io) in
      Ok (WriteString sb nl)
  end.

Fixpoint writeInouts (genv : GenEnv) (m : Gen.generateCommon) (cmd : string)
    (args : gmap string string) (sb : Builder) (inouts : list Gen.inout) : Res Builder :=
  match inouts with
  | [] => Ok sb
  | io :: inouts' =>
      sb ← writeInout genv m cmd args sb io;
      writeInouts genv m cmd args sb inouts'
  end.

(** What a call leaves behind: the fields set on the module and the
    builder. *)
Record GenEmitted := {
  genOutputdir : string;
  genOuts : list string;
  genIncludeDirs : list string;
  genBuilder : Builder
}.

Definition generateCommonActions (env : AndroidEnv) (genv : GenEnv) (sb : Builder)
    (m : Gen.generateCommon) (inouts : list Gen.inout) : Res GenEmitted :=
  let outputdir := sourceOutputDir env m in
  let inouts := prefixInoutsWithOutputDir genv inouts outputdir in
  let outs := outputsFromInout genv inouts in
  let includeDirs := PrefixDirs env (Gen.Export_gen_include_dirs m) outputdir in
  let sb := WriteString sb
    ("##########################" +:+ nl +:+ "include $(CLEAR_VARS)" +:+ nl +:+ nl) in
  let sb := WriteString sb ("LOCAL_MODULE := " +:+ Gen.Name m +:+ nl) in
  let sb := WriteString sb ("LOCAL_MODULE_CLASS := STATIC_LIBRARIES" +:+ nl) in
  let sb := WriteString sb (outputsVarName m +:+ " := " +:+ nl) in
  let sb := WriteString sb (outputDirVarName m +:+ " := " +:+ sourceOutputDir env m +:+ nl) in
  let sb := WriteString sb nl in
  let '(cmd, args, implicits, _) := Gen.getArgs m in
  let args := StripUnusedArgs genv args cmd in
  sb ← writeInouts genv m cmd args sb inouts;
  let sb := WriteString sb (outputs m +:+ ": " +:+ GoStrings.Join implicits " " +:+ nl) in
  let sb := WriteString sb (".KATI_RESTAT: " +:+ outputs m +:+ nl) in
  Ok {| genOutputdir := outputdir; genOuts := outs; genIncludeDirs := includeDirs;
        genBuilder := sb |}.

(** The inouts as the loop sees them. *)
Definition prefixedInouts (env : AndroidEnv) (genv : GenEnv) (m : Gen.generateCommon)
    (inouts : list Gen.inout) : list Gen.inout :=
  prefixInoutsWithOutputDir genv inouts (sourceOutputDir env m).

Module GenExamples.

Definition genEnv : GenEnv :=
  {| prefixInoutsWithOutputDir :=
       fun inouts dir => map (LinuxExamples.prefixInout dir) inouts;
     outputsFromInout := flat_map Gen.declared;
     StripUnusedArgs := fun args _ => args;
     SortedKeys := fun args => map fst (map_to_list args) |}.

Definition genEmitted : GenEmitted :=
  match generateCommonActions Examples.androidEnv genEnv [] LinuxExamples.genTool
          [LinuxExamples.ioFirst; LinuxExamples.ioSecond] with
  | Ok e => e
  | Die _ =>
      {| genOutputdir := EmptyString; genOuts := []; genIncludeDirs := []; genBuilder := [] |}
  end.

End GenExamples.


(** ** The Android backend: aliases, resources and installed files *)

Definition declareAlias (sb : Builder) (name : string) (srcs : list string) : Builder :=
  let sb := WriteString sb (nl +:+ "include $(CLEAR_VARS)" +:+ nl +:+ nl) in
  let sb := WriteString sb ("LOCAL_MODULE := " +:+ name +:+ nl) in
  let sb := WriteString sb ("LOCAL_REQUIRED_MODULES :=" +:+ newlineSeparatedList srcs) in
  let sb := WriteString sb (nl +:+ ".PHONY: " +:+ name +:+ nl) in
  let sb := WriteString sb (name +:+ ": $(LOCAL_REQUIRED_MODULES)" +:+ nl +:+ nl) in
  WriteString sb ("include $(base_rules.mk)" +:+ nl).

(** [aliasActions]: the file is named after [m.Name()]. *)
Definition aliasActions (env : AndroidEnv) (name : string) (srcs : list string)
    (fs : gmap string string) : gmap string string :=
  let sb := declareAlias [] name srcs in
  androidMkWriteString env name sb fs.

(** The properties of a [resource] module, and what its methods and
    the module context return for it. *)
Record Resource := {
  resInstallPath : string * string * bool;
  resFilesToInstall : list string;
  resInstallDepPhonyNames : list string;
  resTags : list string;
  resIsProprietary : bool;
  resOwner : option string
}.

(** One iteration of the loop of [resourceActions] over the files. *)
Definition resourceFile (Base : string -> string) (m : Resource) (installBase installRel : string)
    (st : Builder * list string) (file : string) : Builder * list string :=
  let '(sb, requiredModuleNames) := st in
  let moduleName := pathToModuleName file in
  let requiredModuleNames := requiredModuleNames ++ [moduleName] in
  let sb := WriteString sb (nl +:+ "include $(CLEAR_VARS)" +:+ nl +:+ nl) in
  let sb := WriteString sb ("LOCAL_MODULE := " +:+ moduleName +:+ nl) in
  let sb := WriteString sb ("LOCAL_INSTALLED_MODULE_STEM := " +:+ Base file +:+ nl) in
  let sb := WriteString sb ("LOCAL_MODULE_CLASS := ETC" +:+ nl) in
  let sb := WriteString sb ("LOCAL_MODULE_PATH := " +:+ installBase +:+ nl) in
  let sb := WriteString sb ("LOCAL_MODULE_RELATIVE_PATH := " +:+ installRel +:+ nl) in
  let sb := writeListAssignment sb "LOCAL_MODULE_TAGS" (resTags m) in
  let sb := WriteString sb ("LOCAL_SRC_FILES := " +:+ file +:+ nl) in
  let sb :=
    if resIsProprietary m then
      let sb := WriteString sb
        ("LOCAL_MODULE_OWNER := " +:+ default EmptyString (resOwner m) +:+ nl) in
      WriteString sb ("LOCAL_PROPRIETARY_MODULE := true" +:+ nl)
    else sb in
  (WriteString sb (nl +:+ "include $(BUILD_PREBUILT)" +:+ nl), requiredModuleNames).

(** [resourceActions]; [Base] is [filepath.Base].  The result is the
    builder, if one was made, and the build directory. *)
Definition resourceActions (env : AndroidEnv) (Base : string -> string)
    (md : Module) (m : Resource) (fs : gmap string string)
  : option Builder * gmap string string :=
  if negb (enabledAndRequired md) then (None, fs)
  else
    let sb : Builder := [] in
    let '(installBase, installRel, ok) := resInstallPath m in
    if negb ok then (Some sb, androidMkWriteString env (altShortName md) sb fs)
    else
      let filesToInstall := resFilesToInstall m in
      let requiredModuleNames := resInstallDepPhonyNames m in
      let '(sb, requiredModuleNames) :=
        foldl (resourceFile Base m installBase installRel) (sb, requiredModuleNames)
              filesToInstall in
      let sb := declareAlias sb (modName (modInfo md)) requiredModuleNames in
      (Some sb, androidMkWriteString env (altShortName md) sb fs).

(** One iteration of the loop of [installGeneratedFiles]. *)
Definition installFile (Base : string -> string) (installBase installRel : string)
    (tags : list string) (sb : Builder) (file : string) : Builder :=
  let moduleName := pathToModuleName file in
  let sb := WriteString sb ("include $(CLEAR_VARS)" +:+ nl +:+ nl) in
  let sb := WriteString sb ("LOCAL_MODULE := " +:+ moduleName +:+ nl) in
  let sb := WriteString sb ("LOCAL_INSTALLED_MODULE_STEM := " +:+ Base file +:+ nl) in
  let sb := WriteString sb ("LOCAL_MODULE_CLASS := ETC" +:+ nl) in
  let sb := WriteString sb ("LOCAL_MODULE_PATH := " +:+ installBase +:+ nl) in
  let sb := WriteString sb ("LOCAL_MODULE_RELATIVE_PATH := " +:+ installRel +:+ nl) in
  let sb := writeListAssignment sb "LOCAL_MODULE_TAGS" tags in
  let sb := WriteString sb ("LOCAL_PREBUILT_MODULE_FILE := " +:+ file +:+ nl +:+ nl) in
  WriteString sb ("include $(BUILD_PREBUILT)" +:+ nl).

(** [installGeneratedFiles], from the install path and the files of
    the module. *)
Definition installGeneratedFiles (Base : string -> string) (sb : Builder)
    (installPath : string * string * bool) (filesToInstall : list string)
    (tags : list string) : Builder :=
  let '(installBase, installRel, ok) := installPath in
  if negb ok then sb
  else
    let sb := WriteString sb nl in
    foldl (installFile Base installBase installRel tags) sb filesToInstall.

(** What [installGeneratedFiles] reads of a generated module: the
    install path, the files to install and the tags. *)
Record Installable := {
  insInstallPath : string * string * bool;
  insFilesToInstall : list string;
  insTags : list string
}.

(** [generateSourceActions] and [transformSourceActions], which have
    the same body; [inouts] is what [m.generateInouts] returns. *)
Definition generateSourceActions (env : AndroidEnv) (genv : GenEnv) (Base : string -> string)
    (md : Module) (m : Gen.generateCommon) (ins : Installable) (inouts : list Gen.inout)
    (fs : gmap string string) : Res (gmap string string) :=
  if enabledAndRequired md then
    e ← generateCommonActions env genv [] m inouts;
    let sb := genBuilder e in
    let sb := installGeneratedFiles Base sb (insInstallPath ins) (insFilesToInstall ins)
                (insTags ins) in
    Ok (androidMkWriteString env (altShortName md) sb fs)
  else Ok fs.

(** A fragment declares a module by a chunk [LOCAL_MODULE := <name>]. *)
Definition declaresModule (name : string) (sb : Builder) : Prop :=
  ("LOCAL_MODULE := " +:+ name +:+ nl) ∈ sb.

Module ResourceExamples.

(** [filepath.Base] on the paths of the examples. *)
Fixpoint lastComponentFrom (s acc : string) : string :=
  match s with
  | EmptyString => acc
  | String c s' =>
      if Ascii.eqb c "/"%char then lastComponentFrom s' EmptyString
      else lastComponentFrom s' (acc +:+ String c EmptyString)
  end.

Definition lastComponent (s : string) : string := lastComponentFrom s EmptyString.

Definition firmware : Resource :=
  {| resInstallPath := ("$(TARGET_OUT)/etc", "firmware", true);
     resFilesToInstall := ["fw/a.bin"; "fw/b.bin"];
     resInstallDepPhonyNames := ["fw_tool"];
     resTags := ["optional"];
     resIsProprietary := false;
     resOwner := None |}.

Definition firmwareModule : Module := Mod (Examples.info "firmware" KResource true) 7 [].

Definition genInstall : Installable :=
  {| insInstallPath := ("$(TARGET_OUT)/etc", "gen", true);
     insFilesToInstall := ["$(HOST_OUT_GEN)/STATIC_LIBRARIES/gen/a.h"];
     insTags := [] |}.

Definition genModule : Module := Mod (Examples.info "gen" KGenerateSource true) 8 [].

Definition genFiles : gmap string string :=
  match generateSourceActions Examples.androidEnv GenExamples.genEnv lastComponent genModule
          LinuxExamples.genTool genInstall [LinuxExamples.ioFirst; LinuxExamples.ioSecond] ∅ with
  | Ok fs' => fs'
  | Die _ => ∅
  end.

End ResourceExamples.


(** ** Kernel modules: the symbol files of the modules depended on
    ([kernel_module.go]) *)

Definition invalidExtraSymbols (name : string) : string :=
  "invalid extra_symbols, " +:+ name +:+ " not a kernel module".

(** The [VisitDirectDepsIf] call of [extraSymbolsModules]. *)
Fixpoint extraSymbolsVisit (ds : list (DepTag * Module)) (modules : list Module)
  : Res (list Module) :=
  match ds with
  | [] => Ok modules
  | (tag, p) :: ds' =>
      if bool_decide (tag = kernelModuleDepTag) then
        match modKind (modInfo p) with
        | KKernelModule => extraSymbolsVisit ds' (modules ++ [p])
        | _ => Die (invalidExtraSymbols (modName (modInfo p)))
        end
      else extraSymbolsVisit ds' modules
  end.

Definition extraSymbolsModules (md : Module) : Res (list Module) :=
  extraSymbolsVisit (modDirectDeps md) [].

(** [extraSymbolsFiles]; [Join] is [filepath.Join] and [outputDir]
    gives the output directory of a kernel module. *)
Definition extraSymbolsFiles (Join : string -> string -> string) (outputDir : Module -> string)
    (md : Module) : Res (list string) :=
  modules ← extraSymbolsModules md;
  Ok (foldl (fun files p => files ++ [Join (outputDir p) "Module.symvers"]) [] modules).

(** The direct dependencies under the kernel-module tag, in order. *)
Definition kernelModuleDeps (md : Module) : list Module :=
  map snd (List.filter (fun d => bool_decide (d.1 = kernelModuleDepTag)) (modDirectDeps md)).



(** ** List-valued variables of a library fragment *)

(** Whether a builder holds [line] as one of its chunks. *)
Definition hasChunk (line : string) (sb : Builder) : bool := existsb (String.eqb line) sb.

(** The list-valued variables written by the first part of the library
    emitter, each with the list assigned to it. *)
Definition compileLists (env : AndroidEnv) (names : NameMaps) (m : Library) (bt : binType)
  : list (string * list string) :=
  let includes := PrefixDirs env (Local_include_dirs m) "$(LOCAL_PATH)" in
  let includes := includes ++ PrefixDirs env (Export_local_include_dirs m) "$(LOCAL_PATH)" in
  let includes := includes ++ Include_dirs m in
  let includes := includes ++ Export_include_dirs m in
  let exportIncludeDirs :=
    Export_include_dirs m ++ PrefixDirs env (Export_local_include_dirs m) "$(LOCAL_PATH)" in
  let includes := includes ++ (GetGeneratedHeaders m).1 in
  let additionalDeps := (GetGeneratedHeaders m).2 in
  let srcs := getSources m in
  let nonCompiledDeps := List.filter (IsNotCompilable env) srcs in
  let srcs := List.filter (IsCompilableSource env) srcs in
  let additionalDeps :=
    if isSharedOrExecutable bt then
      match getVersionScript m with
      | Some v => additionalDeps ++ [v]
      | None => additionalDeps
      end
    else additionalDeps in
  let additionalDeps := additionalDeps ++ PrefixDirs env nonCompiledDeps "$(LOCAL_PATH)" in
  let cflagsList := Cflags m ++ Export_cflags m in
  let cflagsList := cflagsList ++ exportedCflags m in
  let sharedLibs := androidModuleNames names (Shared_libs m) in
  let staticLibs := androidModuleNames names (ResolvedStaticLibs m) in
  let wholeStaticLibs := androidModuleNames names (Whole_static_libs m) in
  let exportHeaderLibs := androidModuleNames names (Export_header_libs m) in
  let headerLibs := androidModuleNames names (Header_libs m) ++ exportHeaderLibs in
  let reexport :=
    foldl (reexportStep sharedLibs staticLibs headerLibs) ([], [], exportHeaderLibs)
          (androidModuleNames names (Reexport_libs m)) in
  [ ("LOCAL_SRC_FILES", srcs);
    ("LOCAL_ADDITIONAL_DEPENDENCIES", additionalDeps);
    ("LOCAL_C_INCLUDES", includes);
    ("LOCAL_CFLAGS", List.filter (AndroidCompileFlags env) cflagsList);
    ("LOCAL_CPPFLAGS", List.filter (AndroidCompileFlags env) (Cxxflags m));
    ("LOCAL_CONLYFLAGS", List.filter (AndroidCompileFlags env) (Conlyflags m));
    ("LOCAL_SHARED_LIBRARIES", sharedLibs);
    ("LOCAL_STATIC_LIBRARIES", staticLibs);
    ("LOCAL_WHOLE_STATIC_LIBRARIES", wholeStaticLibs);
    ("LOCAL_HEADER_LIBRARIES", headerLibs);
    ("LOCAL_EXPORT_SHARED_LIBRARY_HEADERS", reexport.1.1);
    ("LOCAL_EXPORT_STATIC_LIBRARY_HEADERS", reexport.1.2);
    ("LOCAL_EXPORT_HEADER_LIBRARY_HEADERS", reexport.2);
    ("LOCAL_MODULE_TAGS", Tags m);
    ("LOCAL_EXPORT_C_INCLUDE_DIRS", exportIncludeDirs) ].

(** Those written by the last part. *)
Definition linkLists (env : AndroidEnv) (m : Library) (bt : binType) (isMultiLib : bool)
    (copydtneeded : string) : list (string * list string) :=
  let ldflags := libraryLdflags env m bt copydtneeded in
  (if isMultiLib
   then [("LOCAL_LDFLAGS_32", ldflags); ("LOCAL_LDFLAGS_64", ldflags)]
   else [("LOCAL_LDFLAGS", ldflags)]) ++
  [ (if bool_decide (TargetType m = tgtTypeTarget)
     then "LOCAL_LDLIBS" else "LOCAL_LDLIBS_$(HOST_OS)", Ldlibs m) ].

Definition libraryLists (env : AndroidEnv) (names : NameMaps) (m : Library) (bt : binType)
    (isMultiLib : bool) (copydtneeded : string) : list (string * list string) :=
  compileLists env names m bt ++ linkLists env m bt isMultiLib copydtneeded.

(** A variable is omitted from the fragment when its list is empty and
    assigned otherwise. *)
Definition omittedWhenEmpty (sb : Builder) (variable : string * list string) : Prop :=
  (variable.2 = [] -> listAssignment variable.1 [] ∉ sb) /\
  (variable.2 <> [] -> listAssignment variable.1 variable.2 ∈ sb).

(** The literal heads of the other chunks of a library fragment. *)
Definition libraryHeads : list string :=
  [ "##########################"; "LOCAL_MODULE:="; "LOCAL_MODULE_CLASS:=";
    "LOCAL_GENERATED_SOURCES+="; "$("; tab;
    "LOCAL_CLANG := true"; "LOCAL_CLANG := false";
    "LOCAL_C_STD"; "LOCAL_CPP_STD"; "LOCAL_ARM_MODE:=";
    "LOCAL_MODULE_OWNER := "; "LOCAL_PROPRIETARY_MODULE := true";
    "LOCAL_STRIP_MODULE := true";
    "LOCAL_POST_INSTALL_CMD="; "LOCAL_MODULE_PATH_32:="; "LOCAL_MODULE_PATH_64:=";
    "LOCAL_MODULE_PATH:="; "LOCAL_MODULE_RELATIVE_PATH:=";
    "LOCAL_UNSTRIPPED_PATH:=$(TARGET_OUT_EXECUTABLES_UNSTRIPPED)";
    "LOCAL_UNINSTALLABLE_MODULE:=true";
    "LOCAL_MULTILIB:=both"; nl ].

(** The chunk written for the required modules of an installed module. *)
Definition requiredModulesAssignment (l : list string) : string :=
  "LOCAL_REQUIRED_MODULES:=" +:+ newlineSeparatedList l.

(** [clearOfHeads line]: the line is not empty, has no comma and
    starts with none of these heads. *)
Definition clearOfHeads (line : string) : bool :=
  nonEmpty line && negb (containsChar "," line) &&
  forallb (fun p => negb (GoStrings.HasPrefix line p)) libraryHeads.

(** [otherOrEmpty line variable]: the line is not an assignment of the
    variable, or the list of the variable is empty. *)
Definition otherOrEmpty (line : string) (variable : string * list string) : Prop :=
  GoStrings.HasPrefix line (variable.1 +:+ " := ") = false \/ variable.2 = [].

(* PROPERTIES *)

(** * Properties *)

#[local] Arguments String.append !_ _ / : simpl nomatch.

(** ** Strings *)

Lemma append_assoc (a b c : string) : (a +:+ b) +:+ c = a +:+ (b +:+ c).
Proof. induction a as [|x a IH]; simpl; [reflexivity | now rewrite IH]. Qed.

Lemma append_nil_r (a : string) : a +:+ EmptyString = a.
Proof. induction a as [|x a IH]; simpl; [reflexivity | now rewrite IH]. Qed.

Lemma mapChars_app (f : ascii -> string) (a b : string) :
  mapChars f (a +:+ b) = mapChars f a +:+ mapChars f b.
Proof.
  induction a as [|x a IH]; simpl; [reflexivity |].
  now rewrite IH, append_assoc.
Qed.

Lemma mapChars_compose (f g : ascii -> string) (s : string) :
  mapChars g (mapChars f s) = mapChars (fun c => mapChars g (f c)) s.
Proof.
  induction s as [|x s IH]; cbn [mapChars]; [reflexivity |].
  now rewrite mapChars_app, IH.
Qed.

Lemma mapChars_ext (f g : ascii -> string) (s : string) :
  (forall c, f c = g c) -> mapChars f s = mapChars g s.
Proof.
  intros Hfg. induction s as [|x s IH]; cbn [mapChars]; [reflexivity |].
  now rewrite Hfg, IH.
Qed.

(** Replacing a one-character string everywhere is a character map. *)
Lemma ReplaceAll_char (a : ascii) (new s : string) :
  GoStrings.ReplaceAll s (String a EmptyString) new = mapChars (replaceChar a new) s.
Proof.
  unfold GoStrings.ReplaceAll.
  induction s as [|c s IH]; [reflexivity |].
  cbn -[String.append]. unfold replaceChar at 1.
  destruct (Ascii.eqb a c) eqn:E.
  - replace (GoStrings.HasPrefix s EmptyString) with true by (now destruct s).
    now rewrite IH.
  - simpl. now rewrite IH.
Qed.

Lemma renameChar_steps (c : ascii) :
  mapChars (replaceChar ")" "_")
    (mapChars (replaceChar "$" "_")
       (mapChars (replaceChar "(" "_")
          (mapChars (replaceChar "." "_") (replaceChar "/" "__" c)))) = renameChar c.
Proof.
  destruct c as [[] [] [] [] [] [] [] []]; reflexivity.
Qed.

(** C9.  For every path, [pathToModuleName] is the path with every
    slash replaced by two underscores and every dot, opening or closing
    parenthesis and dollar sign replaced by one underscore, all other
    characters kept; the path [a/b/c.conf(2)] becomes
    [a__b__c_conf_2_]. *)
Theorem pathToModuleName_renames :
  (forall path : string, pathToModuleName path = mapChars renameChar path) /\
  pathToModuleName "a/b/c.conf(2)" = "a__b__c_conf_2_".
Proof.
  split; [| reflexivity].
  intros path. unfold pathToModuleName.
  rewrite !ReplaceAll_char, !mapChars_compose.
  apply mapChars_ext. intros c.
  rewrite <- renameChar_steps.
  rewrite <- !mapChars_compose.
  destruct (replaceChar "/" "__" c) eqn:E; [reflexivity |].
  rewrite <- E. clear.
  generalize (replaceChar "/" "__" c). intros s.
  rewrite !mapChars_compose. reflexivity.
Qed.

(** ** The name mapper *)

Lemma reverseConsistent_empty : reverseConsistent emptyNameMaps.
Proof. intros d a H. cbn in H. now rewrite lookup_empty in H. Qed.

Lemma reverseConsistent_register (st : NameMaps) (name alt : string) :
  reverseConsistent st ->
  (forall existing, androidModuleReverseMap st !! alt = Some existing -> existing = name) ->
  reverseConsistent
    {| androidModuleNameMap := <[name := alt]> (androidModuleNameMap st);
       androidModuleReverseMap := <[alt := name]> (androidModuleReverseMap st) |}.
Proof.
  intros Hc Hfree d a. cbn.
  destruct (decide (name = d)) as [->|Hd].
  - rewrite lookup_insert_eq. intros [= <-]. now rewrite lookup_insert_eq.
  - rewrite lookup_insert_ne by assumption. intros Hda.
    destruct (decide (alt = a)) as [->|Ha].
    + exfalso. apply Hd. symmetry. apply Hfree. now apply Hc.
    + rewrite lookup_insert_ne by assumption. now apply Hc.
Qed.

Lemma mapAndroidNames_consistent (m : Module) (st st' : NameMaps) :
  reverseConsistent st -> mapAndroidNames m st = Ok st' -> reverseConsistent st'.
Proof.
  intros Hc. unfold mapAndroidNames.
  destruct (modNaming (modInfo m)) as [[alt short]|]; [| now intros [= <-]].
  case_bool_decide; [now intros [= <-] |].
  destruct (enabledAndRequired m); [| now intros [= <-]].
  destruct (androidModuleReverseMap st !! alt) as [existing|] eqn:E.
  - case_bool_decide as Hne; [discriminate |].
    intros [= <-]. apply reverseConsistent_register; [assumption |].
    intros e He. congruence.
  - intros [= <-]. apply reverseConsistent_register; [assumption |].
    intros e He. rewrite E in He. discriminate.
Qed.

Lemma mapAndroidNamesAll_consistent (ms : list Module) (st st' : NameMaps) :
  reverseConsistent st -> mapAndroidNamesAll ms st = Ok st' -> reverseConsistent st'.
Proof.
  revert st. induction ms as [|m ms IH]; intros st Hc; cbn.
  - now intros [= <-].
  - destruct (mapAndroidNames m st) as [st1|msg] eqn:E; cbn; [| discriminate].
    apply IH. eapply mapAndroidNames_consistent; eassumption.
Qed.

(** C8.  After any sequence of mutator calls that all succeed,
    starting from the empty maps, two declared names with the same
    backend name are the same name; and in the state so reached, a
    module (not a defaults module, enabled and required) whose alt name
    is already registered to a different declared name aborts with the
    message naming both declared names and the alt name. *)
Theorem mapAndroidNames_injective (ms : list Module) (st : NameMaps)
    (Hrun : mapAndroidNamesAll ms emptyNameMaps = Ok st) :
  (forall d1 d2 alt : string,
      androidModuleNameMap st !! d1 = Some alt ->
      androidModuleNameMap st !! d2 = Some alt -> d1 = d2) /\
  (forall (m : Module) (alt short existing : string),
      modNaming (modInfo m) = Some (alt, short) ->
      modKind (modInfo m) <> KDefaults ->
      enabledAndRequired m = true ->
      androidModuleReverseMap st !! alt = Some existing ->
      existing <> modName (modInfo m) ->
      mapAndroidNames m st = Die (collisionMessage (modName (modInfo m)) existing alt)).
Proof.
  split.
  - intros d1 d2 alt H1 H2.
    pose proof (mapAndroidNamesAll_consistent ms _ _ reverseConsistent_empty Hrun) as Hc.
    apply Hc in H1. apply Hc in H2. congruence.
  - intros m alt short existing Hn Hk He Hr Hne.
    unfold mapAndroidNames. rewrite Hn.
    rewrite bool_decide_eq_false_2 by assumption.
    rewrite He, Hr.
    now rewrite bool_decide_eq_true_2 by assumption.
Qed.

Lemma mapAndroidNames_injective_witness :
  mapAndroidNamesAll [Examples.libfoo; Examples.libMid] emptyNameMaps = Ok Examples.registered /\
  (forall d1 d2 alt : string,
      androidModuleNameMap Examples.registered !! d1 = Some alt ->
      androidModuleNameMap Examples.registered !! d2 = Some alt -> d1 = d2) /\
  mapAndroidNames Examples.libClash Examples.registered
  = Die "out name collision. Both other and libfoo are required and map to libfoo".
Proof.
  assert (Hrun : mapAndroidNamesAll [Examples.libfoo; Examples.libMid] emptyNameMaps
                 = Ok Examples.registered) by (vm_compute; reflexivity).
  split; [exact Hrun |].
  split.
  - exact (proj1 (mapAndroidNames_injective _ _ Hrun)).
  - apply (proj2 (mapAndroidNames_injective _ _ Hrun)
             Examples.libClash "libfoo" "libfoo" "libfoo");
      [reflexivity | discriminate | reflexivity | vm_compute; reflexivity | discriminate].
Defined.

(** ** The orderer *)

Lemma foldl_snoc_filter {A} (P : A -> bool) (f : list A -> A -> list A) (l init : list A) :
  (forall acc x, f acc x = if P x then acc ++ [x] else acc) ->
  foldl f init l = init ++ List.filter P l.
Proof.
  intros Hf. revert init. induction l as [|x l IH]; intros init; cbn.
  - now rewrite app_nil_r.
  - rewrite IH, Hf. destruct (P x); [| reflexivity].
    now rewrite <- app_assoc.
Qed.

Lemma dropDep_removeName (name : string) (o : androidMkFile) :
  dropDep name o = removeName name o.
Proof.
  unfold dropDep, removeName. f_equal.
  rewrite (foldl_snoc_filter (fun d => negb (String.eqb d name))); [reflexivity |].
  intros acc d.
  destruct (String.eqb_spec d name) as [->|Hne]; cbn.
  - now rewrite bool_decide_eq_false_2 by (intros H; now apply H).
  - now rewrite bool_decide_eq_true_2.
Qed.

(** Go compares strings byte by byte; the order is transitive. *)
Lemma ascii_compare_eq (a b : ascii) : Ascii.compare a b = Eq -> a = b.
Proof.
  unfold Ascii.compare. intros H. apply N.compare_eq in H.
  rewrite <- (ascii_N_embedding a), <- (ascii_N_embedding b). now f_equal.
Qed.

Lemma string_compare_lt_trans (s1 s2 s3 : string) :
  String.compare s1 s2 = Lt -> String.compare s2 s3 = Lt -> String.compare s1 s3 = Lt.
Proof.
  revert s2 s3. induction s1 as [|a s1 IH]; intros [|b s2] [|c s3]; cbn; try congruence.
  destruct (Ascii.compare a b) eqn:Eab; try discriminate;
  destruct (Ascii.compare b c) eqn:Ebc; try discriminate.
  - apply ascii_compare_eq in Eab, Ebc. subst.
    intros H1 H2. replace (Ascii.compare c c) with Eq.
    + eapply IH; eassumption.
    + symmetry. unfold Ascii.compare. apply N.compare_refl.
  - apply ascii_compare_eq in Eab. subst. now rewrite Ebc.
  - apply ascii_compare_eq in Ebc. subst. now rewrite Eab.
  - intros _ _. unfold Ascii.compare in *.
    rewrite N.compare_lt_iff in *. 
    replace (N_of_ascii a ?= N_of_ascii c)%N with Lt; [reflexivity |].
    symmetry. apply N.compare_lt_iff. lia.
Qed.

Lemma string_ltb_trans (s1 s2 s3 : string) :
  String.ltb s1 s2 = true -> String.ltb s2 s3 = true -> String.ltb s1 s3 = true.
Proof.
  unfold String.ltb. intros H1 H2.
  rewrite (string_compare_lt_trans s1 s2 s3); [reflexivity | |].
  - now destruct (String.compare s1 s2).
  - now destruct (String.compare s2 s3).
Qed.

(** *** Choosing the entry to emit *)

Lemma deps_length_zero (o : androidMkFile) :
  (length (Deps o) =? 0)%nat = true <-> Deps o = [].
Proof.
  rewrite Nat.eqb_eq. split; [| now intros ->].
  now destruct (Deps o).
Qed.

Lemma string_ltb_irrefl (s : string) : String.ltb s s = false.
Proof.
  unfold String.ltb.
  assert (H : String.compare s s = Eq).
  { induction s as [|a s IH]; cbn; [reflexivity |].
    unfold Ascii.compare. now rewrite N.compare_refl. }
  now rewrite H.
Qed.

Lemma lowLoop_invariant (order rest pre : list androidMkFile) (lowindex : option nat) :
  order = pre ++ rest ->
  lowInvariant order pre lowindex ->
  lowInvariant order order (lowLoop order rest (length pre) lowindex).
Proof.
  revert pre lowindex. induction rest as [|val rest IH]; intros pre lowindex Horder Hinv.
  - cbn. rewrite app_nil_r in Horder. now subst pre.
  - cbn [lowLoop].
    replace (S (length pre)) with (length (pre ++ [val])) by (rewrite length_app; cbn; lia).
    assert (Hval : order !! length pre = Some val).
    { rewrite Horder. now rewrite list_lookup_middle. }
    apply IH; [now rewrite <- app_assoc |].
    destruct lowindex as [li|]; cbn [lowInvariant] in *.
    + destruct Hinv as (low & Hli & Hin & Hdeps & Hmin). rewrite Hli.
      destruct (String.ltb (Name val) (Name low)) eqn:Hlt;
        destruct (length (Deps val) =? 0)%nat eqn:Hz; cbn [andb].
      * apply deps_length_zero in Hz.
        exists val. split; [assumption |]. split; [set_solver |].
        split; [assumption |]. intros o Ho Hoz.
        apply elem_of_app in Ho as [Ho|Ho].
        -- destruct (String.ltb (Name o) (Name val)) eqn:Hov; [| reflexivity].
           rewrite <- (Hmin o Ho Hoz). symmetry.
           now apply (string_ltb_trans _ (Name val)).
        -- apply list_elem_of_singleton in Ho as ->. apply string_ltb_irrefl.
      * exists low. split; [assumption |]. split; [set_solver |].
        split; [assumption |]. intros o Ho Hoz.
        apply elem_of_app in Ho as [Ho|Ho]; [now apply Hmin |].
        apply list_elem_of_singleton in Ho as ->.
        apply deps_length_zero in Hoz. congruence.
      * exists low. split; [assumption |]. split; [set_solver |].
        split; [assumption |]. intros o Ho Hoz.
        apply elem_of_app in Ho as [Ho|Ho]; [now apply Hmin |].
        now apply list_elem_of_singleton in Ho as ->.
      * exists low. split; [assumption |]. split; [set_solver |].
        split; [assumption |]. intros o Ho Hoz.
        apply elem_of_app in Ho as [Ho|Ho]; [now apply Hmin |].
        now apply list_elem_of_singleton in Ho as ->.
    + cbn [andb]. destruct (length (Deps val) =? 0)%nat eqn:Hz.
      * apply deps_length_zero in Hz.
        exists val. split; [assumption |]. split; [set_solver |].
        split; [assumption |]. intros o Ho Hoz.
        apply elem_of_app in Ho as [Ho|Ho]; [now destruct (Hinv o Ho) |].
        apply list_elem_of_singleton in Ho as ->. apply string_ltb_irrefl.
      * intros o Ho. apply elem_of_app in Ho as [Ho|Ho]; [now apply Hinv |].
        apply list_elem_of_singleton in Ho as ->. intros Hoz.
        apply deps_length_zero in Hoz. congruence.
Qed.

Lemma findLow_Some (order : list androidMkFile) (i : nat) :
  findLow order = Some i ->
  exists low, order !! i = Some low /\ readySmallest order low.
Proof.
  intros H.
  pose proof (lowLoop_invariant order order [] None eq_refl) as Hinv.
  cbn [length] in Hinv. fold (findLow order) in Hinv. rewrite H in Hinv.
  destruct Hinv as (low & Hl & _ & Hr); [intros o Ho; now apply elem_of_nil in Ho |].
  now exists low.
Qed.

Lemma findLow_None (order : list androidMkFile) :
  findLow order = None <-> (forall o, o ∈ order -> Deps o <> []).
Proof.
  pose proof (lowLoop_invariant order order [] None eq_refl) as Hinv.
  cbn [length] in Hinv. fold (findLow order) in Hinv.
  assert (H0 : lowInvariant order [] None) by (intros o Ho; now apply elem_of_nil in Ho).
  specialize (Hinv H0). split.
  - intros H. now rewrite H in Hinv.
  - intros Hall. destruct (findLow order) as [li|]; [| reflexivity].
    destruct Hinv as (low & _ & Hin & Hz & _). now destruct (Hall low Hin).
Qed.

(** *** The sorting loop *)

Lemma removeAt_length (i : nat) (order : list androidMkFile) :
  i < length order -> length (removeAt i order) = length order - 1.
Proof.
  intros Hi. unfold removeAt. rewrite length_app, length_take, length_drop. lia.
Qed.

Lemma sortStep_spec (order : list androidMkFile) (sb : Builder) (i : nat) (low : androidMkFile) :
  order !! i = Some low ->
  sortStep order sb i =
    (removeAt i (map (removeName (Name low)) order), sb ++ [includeLine (Name low)]).
Proof.
  intros Hi. unfold sortStep. rewrite Hi. unfold WriteString. f_equal. f_equal.
  apply map_ext. intros o. apply dropDep_removeName.
Qed.

(** The pass budget [length order] is never used up. *)
Lemma sortLoop_total (passes : nat) (order : list androidMkFile) (sb : Builder) :
  length order <= passes -> is_Some (sortLoop passes order sb).
Proof.
  revert order sb. induction passes as [|passes IH]; intros order sb Hlen.
  - destruct order; [now eexists | cbn in Hlen; lia].
  - destruct order as [|o order]; [now eexists |].
    cbn [sortLoop]. destruct (findLow (o :: order)) as [i|] eqn:Hlow; [| now eexists].
    destruct (findLow_Some _ _ Hlow) as (low & Hi & _).
    rewrite (sortStep_spec _ _ _ _ Hi).
    apply IH. rewrite removeAt_length.
    + rewrite length_map. cbn in *. lia.
    + rewrite length_map. now apply lookup_lt_Some in Hi.
Qed.

Lemma sortLoop_emits (passes : nat) (order : list androidMkFile) (sb sb' : Builder) :
  sortLoop passes order sb = Some (Ok sb') ->
  exists names, sb' = sb ++ map includeLine names /\ EmitsSmallestReady order names.
Proof.
  revert order sb. induction passes as [|passes IH]; intros order sb H.
  - destruct order as [|o order].
    + cbn in H. injection H as <-. exists []. split; [now rewrite app_nil_r | constructor].
    + cbn [sortLoop] in H. destruct (findLow (o :: order)); discriminate.
  - destruct order as [|o order].
    + cbn in H. injection H as <-. exists []. split; [now rewrite app_nil_r | constructor].
    + cbn [sortLoop] in H.
      destruct (findLow (o :: order)) as [i|] eqn:Hlow; [| discriminate].
      destruct (findLow_Some _ _ Hlow) as (low & Hi & Hready).
      rewrite (sortStep_spec _ _ _ _ Hi) in H.
      apply IH in H as (names & -> & Hemits).
      exists (Name low :: names). split.
      * now rewrite <- app_assoc.
      * econstructor; eassumption.
Qed.

(** An entry other than the emitted one is still there after the
    pass, with the emitted name taken out of its list. *)
Lemma removeAt_keeps (order : list androidMkFile) (i : nat) (low o : androidMkFile) (f : androidMkFile -> androidMkFile) :
  order !! i = Some low -> o ∈ order -> o = low \/ f o ∈ removeAt i (map f order).
Proof.
  intros Hi Ho. apply list_elem_of_lookup in Ho as [j Hj].
  destruct (decide (j = i)) as [->|Hne]; [left; congruence |].
  right. apply list_elem_of_lookup. unfold removeAt.
  destruct (decide (j < i)) as [Hlt|Hge].
  - exists j. rewrite lookup_app_l.
    + rewrite lookup_take_lt by assumption. now rewrite list_lookup_fmap, Hj.
    + rewrite length_take, length_map. apply lookup_lt_Some in Hi. lia.
  - exists (j - 1). apply lookup_lt_Some in Hi as Hilen.
    rewrite lookup_app_r; rewrite length_take, length_map; [| lia].
    rewrite lookup_drop.
    replace (S i + (j - 1 - i `min` length order)) with j by lia.
    now rewrite list_lookup_fmap, Hj.
Qed.

Lemma emits_all (order : list androidMkFile) (names : list string) :
  EmitsSmallestReady order names -> forall o, o ∈ order -> Name o ∈ names.
Proof.
  induction 1 as [|order i low names Hi Hready Hrest IH]; intros o Ho.
  - now apply elem_of_nil in Ho.
  - destruct (removeAt_keeps order i low o (removeName (Name low)) Hi Ho) as [->|Hin].
    + set_solver.
    + apply IH in Hin. cbn in Hin. set_solver.
Qed.

Lemma emits_precedes (order : list androidMkFile) (names : list string) :
  EmitsSmallestReady order names ->
  forall o D, o ∈ order -> D ∈ Deps o -> precedesIn names D (Name o).
Proof.
  induction 1 as [|order i low names Hi Hready Hrest IH]; intros o D Ho HD.
  - now apply elem_of_nil in Ho.
  - destruct (removeAt_keeps order i low o (removeName (Name low)) Hi Ho) as [->|Hin].
    + destruct Hready as [Hz _]. rewrite Hz in HD. now apply elem_of_nil in HD.
    + destruct (String.eqb_spec D (Name low)) as [->|Hne].
      * pose proof (emits_all _ _ Hrest _ Hin) as Hname. cbn in Hname.
        apply list_elem_of_split in Hname as (l2 & l3 & ->).
        now exists [], l2, l3.
      * destruct (IH (removeName (Name low) o) D Hin) as (l1 & l2 & l3 & ->).
        -- cbn. apply list_elem_of_In, filter_In. split; [now apply list_elem_of_In |].
           destruct (String.eqb_spec D (Name low)); [contradiction | reflexivity].
        -- now exists (Name low :: l1), l2, l3.
Qed.

(** C3.  When the orderer succeeds, [Android.inc] holds the include
    lines of a list of names that is produced by repeatedly emitting,
    among the entries with no remaining dependency, one with the
    smallest name, and removing that name from every dependency list;
    and for every recorded module and every name in its dependency
    list, the line of the dependency comes before the line of the
    module. *)
Theorem GenerateBuildActions_topological (buildDir : string) (mods : list Module)
    (fs fs' : gmap string string)
    (Hrun : GenerateBuildActions buildDir mods fs = Ok fs') :
  exists names : list string,
    fs' !! getPathInBuildDir buildDir "Android.inc" = Some (contents (map includeLine names)) /\
    EmitsSmallestReady (collectOrder mods) names /\
    forall o D, o ∈ collectOrder mods -> D ∈ Deps o -> precedesIn names D (Name o).
Proof.
  unfold GenerateBuildActions, sortOrder in Hrun.
  destruct (sortLoop (length (collectOrder mods)) (collectOrder mods) []) as [[sb|msg]|] eqn:E;
    cbn in Hrun; try discriminate.
  injection Hrun as <-.
  apply sortLoop_emits in E as (names & -> & Hemits).
  exists names. split; [| split].
  - now rewrite lookup_insert_eq.
  - assumption.
  - now apply emits_precedes.
Qed.

Lemma GenerateBuildActions_topological_witness :
  exists names : list string,
    Examples.generatorsInc !! getPathInBuildDir "out" "Android.inc"
      = Some (contents (map includeLine names)) /\
    EmitsSmallestReady (collectOrder [Examples.genDepOuts; Examples.genSingle]) names /\
    forall o D, o ∈ collectOrder [Examples.genDepOuts; Examples.genSingle] ->
                D ∈ Deps o -> precedesIn names D (Name o).
Proof.
  apply (GenerateBuildActions_topological "out" [Examples.genDepOuts; Examples.genSingle] ∅).
  vm_compute. reflexivity.
Defined.

(** *** The abort *)

Lemma concat_empty_cons (x : string) (xs : list string) :
  String.concat EmptyString (x :: xs) = x +:+ String.concat EmptyString xs.
Proof. destruct xs; cbn; [now rewrite append_nil_r | reflexivity]. Qed.

Lemma foldl_append (A : Type) (g : A -> string) (l : list A) (init : string) :
  foldl (fun acc x => acc +:+ g x) init l = init +:+ String.concat EmptyString (map g l).
Proof.
  revert init. induction l as [|x l IH]; intros init.
  - cbn. now rewrite append_nil_r.
  - cbn [foldl map]. rewrite IH, concat_empty_cons. now rewrite append_assoc.
Qed.

Lemma remainingDeps_describes (order : list androidMkFile) :
  remainingDeps order = String.concat EmptyString (map describeEntry order).
Proof.
  unfold remainingDeps.
  enough (H : forall init,
             foldl (fun deps o =>
                      foldl (fun deps d => deps +:+ (tab +:+ d +:+ nl))
                            (deps +:+ (Name o +:+ " depends on" +:+ nl)) (Deps o))
                   init order
             = init +:+ String.concat EmptyString (map describeEntry order))
    by apply (H EmptyString).
  induction order as [|o order IH]; intros init.
  - cbn. now rewrite append_nil_r.
  - cbn [foldl map]. rewrite IH, concat_empty_cons.
    rewrite (foldl_append _ (fun d => tab +:+ d +:+ nl)).
    unfold describeEntry. now rewrite !append_assoc.
Qed.

Lemma sortLoop_reaches (order : list androidMkFile) (sb : Builder)
    (order2 : list androidMkFile) (sb2 : Builder) :
  LoopReaches order sb order2 sb2 ->
  forall passes, length order <= passes ->
    exists passes', sortLoop passes order sb = sortLoop passes' order2 sb2.
Proof.
  induction 1 as [order sb | order sb i order' sb' order2 sb2 Hne Hlow Hstep Hreach IH];
    intros passes Hlen.
  - now exists passes.
  - destruct order as [|o order]; [contradiction |].
    destruct passes as [|passes]; [cbn in Hlen; lia |].
    cbn [sortLoop]. rewrite Hlow, Hstep.
    apply IH.
    destruct (findLow_Some _ _ Hlow) as (low & Hi & _).
    rewrite (sortStep_spec _ _ _ _ Hi) in Hstep. injection Hstep as <- <-.
    apply lookup_lt_Some in Hi.
    rewrite removeAt_length; cbn [length] in *; rewrite length_map; lia.
Qed.

(** C4.  If the sorting loop reaches a non-empty list of entries none
    of which has an empty dependency list, the orderer aborts: no build
    directory results, so [Android.inc] is not written; the message
    gives the number of remaining entries and then, for each remaining
    entry in turn, its name and each of its unresolved dependencies. *)
Theorem GenerateBuildActions_unmet (buildDir : string) (mods : list Module)
    (fs : gmap string string) (order : list androidMkFile) (sb : Builder)
    (Hreach : LoopReaches (collectOrder mods) [] order sb)
    (Hnonempty : order <> [])
    (Hstuck : forall o, o ∈ order -> Deps o <> []) :
  GenerateBuildActions buildDir mods fs = Die (unmetMessage order) /\
  unmetMessage order =
    "unmet or circular dependency. " +:+ natToString (length order) +:+ " remaining." +:+ nl +:+
    String.concat EmptyString (map describeEntry order).
Proof.
  split.
  - destruct (sortLoop_reaches _ _ _ _ Hreach (length (collectOrder mods)) (le_n _))
      as [passes' Heq].
    unfold GenerateBuildActions, sortOrder. rewrite Heq.
    destruct order as [|o order]; [contradiction |].
    apply findLow_None in Hstuck.
    destruct passes'; cbn [sortLoop]; now rewrite Hstuck.
  - unfold unmetMessage. now rewrite remainingDeps_describes.
Qed.

Lemma GenerateBuildActions_unmet_witness :
  GenerateBuildActions "out" [Examples.libUser; Examples.libDisabled] ∅
  = Die ("unmet or circular dependency. 1 remaining." +:+ nl +:+
         "libA depends on" +:+ nl +:+ tab +:+ "libB" +:+ nl).
Proof.
  apply (fun H1 H2 H3 =>
           proj1 (GenerateBuildActions_unmet "out" [Examples.libUser; Examples.libDisabled] ∅
                    [ {| Name := "libA"; Deps := ["libB"] |} ] [] H1 H2 H3)).
  - apply ReachesHere.
  - discriminate.
  - intros o Ho. apply list_elem_of_singleton in Ho as ->. discriminate.
Defined.

(** Scenario 4: two entries waiting for each other. *)
Example sortOrder_cycle :
  sortOrder Examples.cycleOrder [] =
  Die ("unmet or circular dependency. 2 remaining." +:+ nl +:+
       "M1 depends on" +:+ nl +:+ tab +:+ "M2" +:+ nl +:+
       "M2 depends on" +:+ nl +:+ tab +:+ "M1" +:+ nl).
Proof. vm_compute. reflexivity. Qed.

(** *** The dependency lists *)

Lemma orderVisitChild_foldl (m : Module) (children : list Module) (acc : list string) :
  enabledAndRequired m = true ->
  foldl (orderVisitChild m) acc children =
  acc ++ map altShortName
           (List.filter (fun c => bool_decide (is_Some (modNaming (modInfo c))) &&
                                  generatesAndroidIncFile c) children).
Proof.
  intros Hm. revert acc. induction children as [|c children IH]; intros acc.
  - cbn. now rewrite app_nil_r.
  - cbn [foldl List.filter]. rewrite IH. unfold orderVisitChild, altShortName.
    rewrite Hm, andb_true_r.
    destruct (modNaming (modInfo c)) as [[alt short]|] eqn:Hn; cbn [andb].
    + rewrite bool_decide_eq_true_2 by now eexists. cbn [andb].
      destruct (generatesAndroidIncFile c); [| reflexivity].
      cbn [map]. rewrite Hn. now rewrite <- app_assoc.
    + rewrite bool_decide_eq_false_2 by (intros [x Hx]; discriminate). reflexivity.
Qed.

(** The list recorded for a module is the one the specification
    describes as long as none of its transitive dependencies is
    disabled or not required. *)
Lemma orderVisitModule_deps (m : Module) :
  enabledAndRequired m = true ->
  (forall c, c ∈ VisitDepsDepthFirst m -> enabledAndRequired c = true) ->
  foldl (orderVisitChild m) [] (VisitDepsDepthFirst m) = incDependencies m.
Proof.
  intros Hm Hall. rewrite orderVisitChild_foldl by assumption. cbn [app].
  unfold incDependencies. f_equal.
  generalize dependent (VisitDepsDepthFirst m). intros l Hl.
  induction l as [|c l IH]; [reflexivity |].
  cbn [List.filter]. unfold emitsInc at 1.
  rewrite (Hl c) by (apply elem_of_cons; now left). rewrite andb_true_r.
  rewrite IH; [reflexivity |]. intros c' Hc'. apply Hl. apply elem_of_cons. now right.
Qed.

(** C1 (the code departs from the claim).  [libA] is enabled and
    required and links [libB], which is not: [libB] emits no fragment
    and the list the specification describes for [libA] is empty, but
    the list the orderer records names [libB], and the sort then
    aborts on the dependency that is never emitted. *)
Theorem collectOrder_lists_disabled_dependency :
  emitsInc Examples.libDisabled = false /\
  incDependencies Examples.libUser = [] /\
  collectOrder [Examples.libUser; Examples.libDisabled]
    = [ {| Name := "libA"; Deps := ["libB"] |} ] /\
  GenerateBuildActions "out" [Examples.libUser; Examples.libDisabled] ∅
    = Die ("unmet or circular dependency. 1 remaining." +:+ nl +:+
           "libA depends on" +:+ nl +:+ tab +:+ "libB" +:+ nl).
Proof. repeat split; vm_compute; reflexivity. Qed.

(** ** The late-template engine *)

(** *** [match_srcs] *)

Lemma matchLoop_no_error (env : LateEnv) (arg : string) (srcs : list string)
    (st : gmap string bool) (acc : list string) :
  (forall src, src ∈ srcs -> matchFails env arg src = false) ->
  matchLoop env arg srcs (st, acc) =
    Ok (markMatched st (List.filter (matchesGlob env arg) srcs),
        acc ++ map (getBackendPathInSourceDir env) (List.filter (matchesGlob env arg) srcs)).
Proof.
  revert st acc. induction srcs as [|src srcs IH]; intros st acc Hok.
  - cbn. now rewrite app_nil_r.
  - assert (Hsrc : matchFails env arg src = false) by (apply Hok; set_solver).
    assert (Hrest : forall s, s ∈ srcs -> matchFails env arg s = false)
      by (intros s Hs; apply Hok; set_solver).
    cbn [matchLoop List.filter]. unfold matchFails in Hsrc.
    assert (Hg : matchesGlob env arg src =
                 match pathMatch env ("**/" +:+ arg) src with Some true => true | _ => false end)
      by reflexivity.
    destruct (pathMatch env ("**/" +:+ arg) src) as [[|]|]; [| | discriminate]; rewrite Hg.
    + rewrite IH by assumption. cbn. now rewrite <- app_assoc.
    + now rewrite IH.
Qed.

Lemma matchLoop_error (env : LateEnv) (arg : string) (pre post : list string) (src : string)
    (st : gmap string bool) (acc : list string) :
  (forall s, s ∈ pre -> matchFails env arg s = false) ->
  matchFails env arg src = true ->
  matchLoop env arg (pre ++ src :: post) (st, acc) = Die "Error during matching filepath pattern".
Proof.
  revert st acc. induction pre as [|p pre IH]; intros st acc Hpre Hsrc.
  - cbn [app matchLoop]. unfold matchFails in Hsrc.
    destruct (pathMatch env ("**/" +:+ arg) src); [discriminate | reflexivity].
  - assert (Hp : matchFails env arg p = false) by (apply Hpre; set_solver).
    assert (Hrest : forall s, s ∈ pre -> matchFails env arg s = false)
      by (intros s Hs; apply Hpre; set_solver).
    cbn [app matchLoop]. unfold matchFails in Hp.
    destruct (pathMatch env ("**/" +:+ arg) p) as [[|]|]; [| | discriminate];
      now apply IH.
Qed.

(** C5 (amended).  When matching no source of the module raises an
    error, [match_srcs] yields the backend source-dir paths of exactly
    the sources matching the glob under [**/], in source order, joined
    with single spaces, marking each as matched, and it aborts, with
    the message citing the glob and the module name, exactly when no
    source matches.  When matching a source raises an error (and none
    before it does), it aborts with the pattern diagnostic instead. *)
Theorem matchSources_result (env : LateEnv) (m : LTModule) (arg : string)
    (st : gmap string bool) :
  let matched := List.filter (matchesGlob env arg) (ltSources m) in
  ((forall src, src ∈ ltSources m -> matchFails env arg src = false) ->
   (matched <> [] ->
    matchSources env m arg st =
      Ok (GoStrings.Join (map (getBackendPathInSourceDir env) matched) " ",
          markMatched st matched)) /\
   (matched = [] -> matchSources env m arg st = Die (couldNotMatch arg (ltModuleName m))) /\
   (isOk (matchSources env m arg st) = false <-> matched = [])) /\
  (forall pre src post,
      ltSources m = pre ++ src :: post ->
      (forall s, s ∈ pre -> matchFails env arg s = false) ->
      matchFails env arg src = true ->
      matchSources env m arg st = Die "Error during matching filepath pattern").
Proof.
  intros matched. split.
  - intros Hok. unfold matchSources.
    rewrite (matchLoop_no_error env arg _ st [] Hok). cbn. fold matched.
    rewrite length_map.
    destruct matched as [|x xs] eqn:E; cbn.
    + split; [congruence |]. split; [reflexivity |]. split; reflexivity.
    + split; [reflexivity |]. split; [discriminate |]. split; discriminate.
  - intros pre src post Hsrcs Hpre Hsrc. unfold matchSources.
    rewrite Hsrcs, (matchLoop_error env arg pre post src st [] Hpre Hsrc). reflexivity.
Qed.

Lemma matchSources_result_witness :
  matchSources Examples.lateEnv (Examples.ltLibrary ["a.c"; "sub/version.ld"; "version.ld"] [])
    "version.ld" ∅
  = Ok ("$(LOCAL_PATH)/sub/version.ld $(LOCAL_PATH)/version.ld",
        markMatched ∅ ["sub/version.ld"; "version.ld"]) /\
  matchSources Examples.lateEnv (Examples.ltLibrary ["a.c"] []) "version.ld" ∅
  = Die "Could not match 'version.ld' for module 'libfoo'" /\
  matchSources Examples.lateEnv (Examples.ltLibrary ["a.c"] []) "**" ∅
  = Die "Error during matching filepath pattern".
Proof.
  split; [| split].
  - apply (proj1 (matchSources_result Examples.lateEnv
                    (Examples.ltLibrary ["a.c"; "sub/version.ld"; "version.ld"] [])
                    "version.ld" ∅)).
    + intros src Hsrc. cbn in Hsrc.
      repeat (apply elem_of_cons in Hsrc as [->|Hsrc]; [reflexivity |]).
      now apply elem_of_nil in Hsrc.
    + discriminate.
  - apply (proj1 (matchSources_result Examples.lateEnv (Examples.ltLibrary ["a.c"] [])
                    "version.ld" ∅)).
    + intros src Hsrc. cbn in Hsrc.
      repeat (apply elem_of_cons in Hsrc as [->|Hsrc]; [reflexivity |]).
      now apply elem_of_nil in Hsrc.
    + reflexivity.
  - apply (proj2 (matchSources_result Examples.lateEnv (Examples.ltLibrary ["a.c"] [])
                    "**" ∅) [] "a.c" []).
    + reflexivity.
    + intros s Hs. now apply elem_of_nil in Hs.
    + reflexivity.
Defined.

(** C5 as stated fails: for the glob [**] no source matches, and the
    abort cites neither the glob nor the module. *)
Lemma matchSources_pattern_error :
  List.filter (matchesGlob Examples.lateEnv "**") (ltSources (Examples.ltLibrary ["a.c"] [])) = [] /\
  matchSources Examples.lateEnv (Examples.ltLibrary ["a.c"] []) "**" ∅
    = Die "Error during matching filepath pattern" /\
  matchSources Examples.lateEnv (Examples.ltLibrary ["a.c"] []) "**" ∅
    <> Die (couldNotMatch "**" (ltModuleName (Examples.ltLibrary ["a.c"] []))).
Proof.
  split; [vm_compute; reflexivity |].
  split; [vm_compute; reflexivity |].
  intros H. vm_compute in H. discriminate H.
Qed.

(** *** The map of non-compiled sources during expansion *)









(** Induction on property values, through the fields of records. *)
Lemma PropValue_fields_ind (P : PropValue -> Prop) :
  (forall s, P (PVString s)) ->
  (forall l, P (PVSlice l)) ->
  (forall t, P (PVPtr t)) ->
  (forall fields, Forall (fun nv => P nv.2) fields -> P (PVStruct fields)) ->
  P PVOther ->
  forall v, P v.
Proof.
  intros Hs Hl Hp Hf Ho. fix IH 1. intros [s|l|t|fields|].
  - apply Hs.
  - apply Hl.
  - apply Hp.
  - apply Hf. induction fields as [|[n v] fields IHf]; constructor.
    + apply IH.
    + apply IHf.
  - apply Ho.
Qed.








(** *** How an expansion aborts *)












(** *** A second run *)

Lemma snoc_append (acc : string) (c : ascii) (s : string) :
  snoc acc c +:+ s = acc +:+ String c s.
Proof. unfold snoc. now rewrite append_assoc. Qed.

(** Text without the delimiter is read as itself. *)
Lemma lexTemplate_plain (s : string) :
  forall (acc : string) (out : list TmplNode),
    (noDelimFrom s false = true ->
     lexTemplate s (InText acc) out = Some (out ++ textNode (acc +:+ s))) /\
    (noDelimFrom s true = true ->
     lexTemplate s (AfterBrace acc) out = Some (out ++ textNode (acc +:+ String "{" s))).
Proof.
  induction s as [|c s IH]; intros acc out.
  - split; intros _; cbn [lexTemplate].
    + now rewrite append_nil_r.
    + reflexivity.
  - split; intros H; cbn [lexTemplate noDelimFrom] in *.
    + destruct (Ascii.eqb c "{") eqn:Ec.
      * apply Ascii.eqb_eq in Ec as ->. cbn in H.
        now rewrite (proj2 (IH acc out) H).
      * rewrite (proj1 (IH (snoc acc c) out) H). now rewrite snoc_append.
    + destruct (Ascii.eqb c "{") eqn:Ec; [discriminate |].
      rewrite (proj1 (IH (snoc (snoc acc "{") c) out) H).
      now rewrite !snoc_append.
Qed.

Lemma applyTemplateString_plain (env : LateEnv) (m : LTModule) (funcmap : gmap string LateFn)
    (s : string) (st : gmap string bool) :
  noDelim s = true -> applyTemplateString env m funcmap s st = Ok (s, st).
Proof.
  intros H. unfold applyTemplateString, parseTemplate.
  rewrite (proj1 (lexTemplate_plain s EmptyString []) H). cbn [app String.append].
  destruct s as [|c s]; reflexivity.
Qed.

Lemma applySlice_plain (env : LateEnv) (m : LTModule) (funcmap : gmap string LateFn)
    (l : list string) (e : bool) (st : gmap string bool) :
  forallb noDelim l = true -> forallb nonEmpty l = true ->
  applySlice env m funcmap l e st = Ok (l, e, st).
Proof.
  revert e. induction l as [|x l IH]; intros e Hp Hn; [reflexivity |].
  cbn [forallb] in Hp, Hn. apply andb_true_iff in Hp as [Hx Hl], Hn as [Hxn Hln].
  cbn [applySlice]. rewrite applyTemplateString_plain by assumption. cbn.
  unfold nonEmpty in Hxn. apply negb_true_iff in Hxn. rewrite Hxn.
  now rewrite IH.
Qed.

Lemma applySlice_flag (env : LateEnv) (m : LTModule) (funcmap : gmap string LateFn)
    (l : list string) (e : bool) (st : gmap string bool)
    (l' : list string) (e' : bool) (st' : gmap string bool) :
  applySlice env m funcmap l e st = Ok (l', e', st') ->
  e' = e || negb (forallb nonEmpty l').
Proof.
  revert e st l' e' st'. induction l as [|x l IH]; intros e st l' e' st' H.
  - cbn in H. injection H as <- <- <-. cbn. now rewrite orb_false_r.
  - cbn [applySlice] in H.
    destruct (applyTemplateString env m funcmap x st) as [[x' st1]|msg]; cbn in H;
      [| discriminate].
    destruct (applySlice env m funcmap l _ st1) as [[[rest e1] st2]|msg] eqn:E2;
      cbn in H; [| discriminate].
    injection H as <- <- <-. apply IH in E2. rewrite E2.
    cbn [forallb]. unfold nonEmpty at 2.
    destruct (String.eqb x' EmptyString), e; cbn; reflexivity.
Qed.

Lemma stripEmptyComponents_nonEmpty (l : list string) :
  forallb nonEmpty (stripEmptyComponents l) = true.
Proof.
  apply forallb_forall. intros x Hx. unfold stripEmptyComponents in Hx.
  now apply filter_In in Hx as [_ Hx].
Qed.

Lemma eachField_stripped (propfnmap : gmap string (gmap string LateFn))
    (onField : string -> PropValue -> gmap string bool -> Res (PropValue * gmap string bool))
    (fields : list (string * PropValue)) :
  Forall (fun nv => forall name st v' st',
            onField name nv.2 st = Ok (v', st') -> strippedField propfnmap name v' = true)
         fields ->
  forall st fields' st',
    eachField onField fields st = Ok (fields', st') ->
    forallb (fun '(name, v) => strippedField propfnmap name v) fields' = true.
Proof.
  induction 1 as [|[n v] fields Hv _ IH]; intros st fields' st' E.
  - cbn in E. now injection E as <- <-.
  - cbn [eachField] in E.
    destruct (onField n v st) as [[v' st1]|msg] eqn:E1; cbn in E; [| discriminate].
    fold (eachField onField) in E.
    destruct (eachField onField fields st1) as [[fs2 st2]|msg] eqn:E2; cbn in E;
      [| discriminate].
    injection E as <- <-. cbn [forallb].
    rewrite (Hv _ _ _ _ E1). cbn. eapply IH. eassumption.
Qed.

(** After a run, the expanded slices hold no empty string. *)
Lemma applyLateTemplateField_stripped (env : LateEnv) (m : LTModule)
    (propfnmap : gmap string (gmap string LateFn)) (field : PropValue) :
  forall (propName : string) (st : gmap string bool) (field' : PropValue) (st' : gmap string bool),
    applyLateTemplateField env m propfnmap propName field st = Ok (field', st') ->
    strippedField propfnmap propName field' = true.
Proof.
  induction field as [s|l|t|fields IHf|] using PropValue_fields_ind;
    intros propName st field' st' H; cbn [applyLateTemplateField] in H.
  - destruct (propfnmap !! propName) as [funcmap|].
    + destruct (applyTemplateString env m funcmap s st) as [[s' st1]|msg]; cbn in H;
        [| discriminate].
      now injection H as <- <-.
    + now injection H as <- <-.
  - destruct (propfnmap !! propName) as [funcmap|] eqn:Ef.
    + destruct (applySlice env m funcmap l false st) as [[[l' e] st1]|msg] eqn:E; cbn in H;
        [| discriminate].
      injection H as <- <-. cbn. rewrite Ef.
      apply applySlice_flag in E. cbn in E.
      destruct e; [apply stripEmptyComponents_nonEmpty |].
      symmetry in E. now apply negb_false_iff in E.
    + injection H as <- <-. cbn. now rewrite Ef.
  - destruct (propfnmap !! propName) as [funcmap|], t as [s|];
      try (now injection H as <- <-).
    destruct (applyTemplateString env m funcmap s st) as [[s' st1]|msg]; cbn in H;
      [| discriminate].
    now injection H as <- <-.
  - destruct (eachField (applyLateTemplateField env m propfnmap) fields st)
      as [[fields' st1]|msg] eqn:E; cbn in H; [| discriminate].
    injection H as <- <-. cbn [strippedField].
    eapply eachField_stripped; [| eassumption].
    eapply Forall_impl; [exact IHf |].
    intros [n v] Hv name st0 v' st0' Hrun. cbn in *. eapply Hv. eassumption.
  - now injection H as <- <-.
Qed.

Lemma eachField_plain (propfnmap : gmap string (gmap string LateFn))
    (onField : string -> PropValue -> gmap string bool -> Res (PropValue * gmap string bool))
    (fields : list (string * PropValue)) :
  Forall (fun nv => forall name st,
            plainField propfnmap name nv.2 = true ->
            strippedField propfnmap name nv.2 = true ->
            onField name nv.2 st = Ok (nv.2, st)) fields ->
  forallb (fun '(name, v) => plainField propfnmap name v) fields = true ->
  forallb (fun '(name, v) => strippedField propfnmap name v) fields = true ->
  forall st, eachField onField fields st = Ok (fields, st).
Proof.
  induction 1 as [|[n v] fields Hv _ IH]; intros Hp Hs st; [reflexivity |].
  cbn [forallb] in Hp, Hs. apply andb_true_iff in Hp as [Hpv Hpf], Hs as [Hsv Hsf].
  cbn [eachField]. pose proof (Hv n st Hpv Hsv) as Hrun. cbn [snd] in Hrun.
  rewrite Hrun. cbn.
  fold (eachField onField). now rewrite (IH Hpf Hsf).
Qed.

(** An expanded field is left as it is, and so is the map. *)
Lemma applyLateTemplateField_plain (env : LateEnv) (m : LTModule)
    (propfnmap : gmap string (gmap string LateFn)) (field : PropValue) :
  forall (propName : string) (st : gmap string bool),
    plainField propfnmap propName field = true ->
    strippedField propfnmap propName field = true ->
    applyLateTemplateField env m propfnmap propName field st = Ok (field, st).
Proof.
  induction field as [s|l|t|fields IHf|] using PropValue_fields_ind;
    intros propName st Hp Hs;
    cbn [applyLateTemplateField plainField strippedField] in *.
  - destruct (propfnmap !! propName) as [funcmap|]; [| reflexivity].
    now rewrite applyTemplateString_plain.
  - destruct (propfnmap !! propName) as [funcmap|]; [| reflexivity].
    now rewrite applySlice_plain.
  - destruct (propfnmap !! propName) as [funcmap|], t as [s|]; try reflexivity.
    now rewrite applyTemplateString_plain.
  - now rewrite (eachField_plain propfnmap _ fields IHf Hp Hs).
  - reflexivity.
Qed.

Lemma applyLateTemplateRecursive_stripped (env : LateEnv) (m : LTModule)
    (propfnmap : gmap string (gmap string LateFn)) (p : PropStruct) (st : gmap string bool)
    (p' : PropStruct) (st' : gmap string bool) :
  applyLateTemplateRecursive env m propfnmap p st = Ok (p', st') ->
  strippedField propfnmap EmptyString (PVStruct p') = true.
Proof.
  unfold applyLateTemplateRecursive. intros H.
  destruct (applyLateTemplateField env m propfnmap EmptyString (PVStruct p) st)
    as [[v st1]|msg] eqn:E; cbn in H; [| discriminate].
  pose proof (applyLateTemplateField_stripped _ _ _ _ _ _ _ _ E) as Hs.
  cbn [applyLateTemplateField] in E.
  destruct (eachField (applyLateTemplateField env m propfnmap) p st) as [[fs st2]|msg'];
    cbn in E; [| discriminate].
  injection E as <- <-. now injection H as <- <-.
Qed.

Lemma applyLateTemplateRecursive_plain (env : LateEnv) (m : LTModule)
    (propfnmap : gmap string (gmap string LateFn)) (p : PropStruct) (st : gmap string bool) :
  plainField propfnmap EmptyString (PVStruct p) = true ->
  strippedField propfnmap EmptyString (PVStruct p) = true ->
  applyLateTemplateRecursive env m propfnmap p st = Ok (p, st).
Proof.
  intros Hp Hs. unfold applyLateTemplateRecursive.
  now rewrite applyLateTemplateField_plain.
Qed.

Lemma applyEach_stripped (env : LateEnv) (m : LTModule)
    (propfnmap : gmap string (gmap string LateFn)) (ps : list PropStruct)
    (st : gmap string bool) (ps' : list PropStruct) (st' : gmap string bool) :
  applyEach env m propfnmap ps st = Ok (ps', st') ->
  forallb (fun p => strippedField propfnmap EmptyString (PVStruct p)) ps' = true.
Proof.
  revert st ps' st'. induction ps as [|p ps IH]; intros st ps' st' H.
  - cbn in H. now injection H as <- <-.
  - cbn [applyEach] in H.
    destruct (applyLateTemplateRecursive env m propfnmap p st) as [[p1 st1]|msg] eqn:E;
      cbn in H; [| discriminate].
    destruct (applyEach env m propfnmap ps st1) as [[ps2 st2]|msg] eqn:E2;
      cbn in H; [| discriminate].
    injection H as <- <-. cbn [forallb].
    rewrite (applyLateTemplateRecursive_stripped _ _ _ _ _ _ _ E).
    cbn. eapply IH. eassumption.
Qed.

Lemma applyEach_plain (env : LateEnv) (m : LTModule)
    (propfnmap : gmap string (gmap string LateFn)) (ps : list PropStruct)
    (st : gmap string bool) :
  forallb (fun p => plainField propfnmap EmptyString (PVStruct p)) ps = true ->
  forallb (fun p => strippedField propfnmap EmptyString (PVStruct p)) ps = true ->
  applyEach env m propfnmap ps st = Ok (ps, st).
Proof.
  induction ps as [|p ps IH]; intros Hp Hs; [reflexivity |].
  cbn [forallb] in Hp, Hs. apply andb_true_iff in Hp as [Hp1 Hp2], Hs as [Hs1 Hs2].
  cbn [applyEach]. rewrite applyLateTemplateRecursive_plain by assumption. cbn.
  now rewrite IH.
Qed.

Lemma verifyMatchSources_empty : verifyMatchSources ∅ = Ok tt.
Proof. unfold verifyMatchSources. now rewrite map_to_list_empty. Qed.

(** C2 (amended).  If a first run of [applyLateTemplates] succeeds,
    the module records no non-compiled source, and no string of the
    resulting properties that the engine expands contains the
    delimiter, then a second run on the resulting properties succeeds
    and returns them unchanged. *)
Theorem applyLateTemplates_second_run (env : LateEnv) (m : LTModule)
    (props1 : option (list PropStruct))
    (Hfirst : applyLateTemplates env m = Ok props1)
    (Hnone : initializeNonCompiledSourceMap env m = ∅)
    (Hplain : plainProps env m props1 = true) :
  applyLateTemplates env (withProps m props1) = Ok props1.
Proof.
  unfold applyLateTemplates in *. cbn [withProps ltFeaturable setupMatchSources] in *.
  change (initializeNonCompiledSourceMap env (withProps m props1))
    with (initializeNonCompiledSourceMap env m).
  change (setupAddIfSupported (withProps m props1)
            (addtoFuncmap ∅ (matchSrcProps (withProps m props1)) "match_srcs" FnMatchSrcs))
    with (latePropfnmap env m).
  change (setupAddIfSupported m (addtoFuncmap ∅ (matchSrcProps m) "match_srcs" FnMatchSrcs))
    with (latePropfnmap env m) in Hfirst.
  rewrite Hnone in *.
  destruct (ltFeaturable m) as [props|].
  - destruct (size (latePropfnmap env m) =? 0)%nat eqn:Hsize.
    + injection Hfirst as <-. reflexivity.
    + destruct (applyEach env m (latePropfnmap env m) props ∅) as [[props' matched]|msg] eqn:E;
        cbn in Hfirst; [| discriminate].
      destruct (verifyMatchSources matched); cbn in Hfirst; [| discriminate].
      injection Hfirst as <-. cbn in Hplain.
      apply applyEach_stripped in E.
      assert (E2 : applyEach env (withProps m (Some props')) (latePropfnmap env m) props' ∅
                   = Ok (props', ∅)).
      { enough (G : forall m2, applyEach env m2 (latePropfnmap env m) props' ∅ = Ok (props', ∅))
          by apply G.
        intros m2. now apply applyEach_plain. }
      rewrite E2. cbn.
      rewrite verifyMatchSources_empty. reflexivity.
  - injection Hfirst as <-. reflexivity.
Qed.

Lemma applyLateTemplates_second_run_witness :
  applyLateTemplates Examples.lateEnv Examples.genModule = Ok (Some Examples.genExpanded) /\
  applyLateTemplates Examples.lateEnv
    (withProps Examples.genModule (Some Examples.genExpanded))
  = Ok (Some Examples.genExpanded).
Proof.
  assert (Hfirst : applyLateTemplates Examples.lateEnv Examples.genModule
                   = Ok (Some Examples.genExpanded)) by (vm_compute; reflexivity).
  split; [exact Hfirst |].
  apply (applyLateTemplates_second_run Examples.lateEnv Examples.genModule
           (Some Examples.genExpanded) Hfirst).
  - reflexivity.
  - vm_compute. reflexivity.
Defined.

(** C2 as stated fails: a library whose linker script was consumed by
    [match_srcs] in the first run has no template left to consume it
    in the second, which aborts. *)
Lemma applyLateTemplates_second_run_aborts :
  applyLateTemplates Examples.lateEnv Examples.ldLibrary = Ok (Some Examples.ldExpanded) /\
  applyLateTemplates Examples.lateEnv (withProps Examples.ldLibrary (Some Examples.ldExpanded))
  = Die "Non-compiled source version.ld is not used by match_srcs.".
Proof. split; vm_compute; reflexivity. Qed.

(** ** The library and binary emitter *)

(** *** Generated libraries below a module *)

Lemma Module_deps_ind (P : Module -> Prop) :
  (forall info ident deps, Forall (fun td => P td.2) deps -> P (Mod info ident deps)) ->
  forall m, P m.
Proof.
  intros H. fix IH 1. intros [info ident deps]. apply H.
  induction deps as [|[tag d] deps IHd]; constructor.
  - apply IH.
  - apply IHd.
Qed.

Lemma linkDepsLoop_spec (walk : Module -> bool -> bool) (deps : list (DepTag * Module)) :
  Forall (fun td => forall seen, walk td.2 seen = seen || walk td.2 false) deps ->
  forall seen,
    linkDepsLoop walk deps seen =
    seen || existsb (fun '(tag, dep) =>
                       isLinkTag tag && (isGeneratedLibrary dep || walk dep false)) deps.
Proof.
  induction 1 as [|[tag dep] deps Hd _ IH]; intros seen.
  - cbn. now rewrite orb_false_r.
  - cbn [linkDepsLoop existsb]. cbn [snd] in Hd.
    destruct (isLinkTag tag); cbn [andb orb].
    + destruct (isGeneratedLibrary dep); cbn [orb].
      * rewrite IH. cbn. now rewrite orb_true_r.
      * rewrite IH, Hd. now rewrite orb_assoc.
    + apply IH.
Qed.

Lemma walkLinkDeps_seen (m : Module) :
  forall seen, walkLinkDeps m seen = seen || walkLinkDeps m false.
Proof.
  induction m as [info ident deps IH] using Module_deps_ind. intros seen.
  cbn [walkLinkDeps]. rewrite !(linkDepsLoop_spec _ _ IH). reflexivity.
Qed.

Lemma walkLinkDeps_unfold (info : ModInfo) (ident : nat) (deps : list (DepTag * Module)) :
  walkLinkDeps (Mod info ident deps) false =
  existsb (fun '(tag, dep) =>
             isLinkTag tag && (isGeneratedLibrary dep || walkLinkDeps dep false)) deps.
Proof.
  cbn [walkLinkDeps]. rewrite linkDepsLoop_spec; [reflexivity |].
  apply Forall_forall. intros [tag d] _. apply walkLinkDeps_seen.
Qed.

(** [linksToGeneratedLibrary] decides [LinksGenerated]. *)
Lemma linksToGeneratedLibrary_spec (m : Module) :
  linksToGeneratedLibrary m = true <-> LinksGenerated m.
Proof.
  unfold linksToGeneratedLibrary.
  induction m as [info ident deps IH] using Module_deps_ind.
  rewrite walkLinkDeps_unfold, existsb_exists. split.
  - intros ([tag dep] & Hin & Hb). apply andb_true_iff in Hb as [Htag Hb].
    apply list_elem_of_In in Hin.
    apply orb_true_iff in Hb as [Hgen|Hwalk].
    + eapply LinksDirectly; eassumption.
    + eapply LinksThrough; [eassumption | assumption |].
      rewrite Forall_forall in IH. apply (IH (tag, dep) Hin). exact Hwalk.
  - intros Hl. inversion Hl as [m0 tag dep Hin Htag Hgen | m0 tag dep Hin Htag Hdep]; subst;
      cbn in Hin; exists (tag, dep); (split; [now apply list_elem_of_In |]);
      rewrite Htag; cbn [andb].
    + now rewrite Hgen.
    + rewrite Forall_forall in IH. apply orb_true_iff. right.
      apply (IH (tag, dep) Hin). exact Hdep.
Qed.

Lemma visitSharedDeps_spec (ds : list (DepTag * Module)) (seen b : bool) :
  visitSharedDeps ds seen = Ok b ->
  (b = true <->
   seen = true \/
   exists p, (sharedDepTag, p) ∈ ds /\
             modKind (modInfo p) = KSharedLibrary /\ modForwarding (modInfo p) = true).
Proof.
  revert seen. induction ds as [|[tag p] ds IH]; intros seen H.
  - cbn in H. injection H as <-. split; [now left |].
    intros [Hs|(p & Hin & _)]; [assumption | now apply elem_of_nil in Hin].
  - cbn [visitSharedDeps] in H.
    assert (Hskip : visitSharedDeps ds seen = Ok b ->
                    (tag <> sharedDepTag \/ modKind (modInfo p) <> KSharedLibrary) ->
                    b = true <-> seen = true \/
                      exists q, (sharedDepTag, q) ∈ (tag, p) :: ds /\
                                modKind (modInfo q) = KSharedLibrary /\
                                modForwarding (modInfo q) = true).
    { intros Hrest Hne. rewrite (IH _ Hrest). split.
      - intros [Hs|(q & Hin & Hq)]; [now left |].
        right. exists q. split; [apply elem_of_cons; now right | assumption].
      - intros [Hs|(q & Hin & Hk & Hf)]; [now left |].
        apply elem_of_cons in Hin as [Heq|Hin].
        + injection Heq as <- <-. destruct Hne as [Hne|Hne]; contradiction.
        + right. now exists q. }
    case_bool_decide as Htag; [| apply Hskip; [assumption | now left]].
    subst tag.
    destruct (modKind (modInfo p)) eqn:Hk; try discriminate;
      try (apply Hskip; [assumption | right; discriminate]).
    rewrite (IH _ H). split.
    + intros [Hs|(q & Hin & Hq)].
      * destruct (modForwarding (modInfo p)) eqn:Hf; [| now left].
        right. exists p. split; [apply elem_of_cons; now left | now split].
      * right. exists q. split; [apply elem_of_cons; now right | assumption].
    + intros [Hs|(q & Hin & Hkq & Hf)].
      * left. subst seen. now destruct (modForwarding (modInfo p)).
      * apply elem_of_cons in Hin as [Heq|Hin].
        -- injection Heq as <-. left. now rewrite Hf.
        -- right. now exists q.
Qed.

(** *** Chunks of the fragment *)

Lemma string_eqb_containsChar (ch : ascii) (a b : string) :
  String.eqb a b = true -> containsChar ch a = containsChar ch b.
Proof. intros H. apply String.eqb_eq in H. now subst. Qed.

Lemma containsChar_app (ch : ascii) (a b : string) :
  containsChar ch (a +:+ b) = containsChar ch a || containsChar ch b.
Proof.
  induction a as [|c a IH]; cbn; [reflexivity |]. now rewrite IH, orb_assoc.
Qed.

(** A chunk with a dollar sign is not the multilib line. *)
Lemma dollar_not_multilib (c : string) :
  containsChar "$" c = true -> String.eqb multilibLine c = false.
Proof.
  intros H. destruct (String.eqb multilibLine c) eqn:E; [| reflexivity].
  apply (string_eqb_containsChar "$") in E. rewrite H in E. discriminate E.
Qed.

(** A chunk that starts differently is not the multilib line. *)
Lemma prefix_not_line (line p rest : string) :
  GoStrings.HasPrefix line p = false -> String.eqb line (p +:+ rest) = false.
Proof.
  revert line. induction p as [|c p IH]; intros line H.
  - destruct line; discriminate H.
  - destruct line as [|d line]; [reflexivity |].
    cbn in H |- *. rewrite Ascii.eqb_sym.
    destruct (Ascii.eqb c d); [now apply IH | reflexivity].
Qed.

Lemma hasMultilibLine_WriteString (sb : Builder) (c : string) :
  hasMultilibLine (WriteString sb c) = hasMultilibLine sb || String.eqb multilibLine c.
Proof.
  unfold hasMultilibLine, WriteString. rewrite existsb_app. cbn. now rewrite orb_false_r.
Qed.

Lemma hasMultilibLine_prefix (sb : Builder) (p rest : string) :
  GoStrings.HasPrefix multilibLine p = false ->
  hasMultilibLine (WriteString sb (p +:+ rest)) = hasMultilibLine sb.
Proof.
  intros H. rewrite hasMultilibLine_WriteString, prefix_not_line by assumption.
  apply orb_false_r.
Qed.

Lemma hasMultilibLine_list (sb : Builder) (varname : string) (entries : list string) :
  GoStrings.HasPrefix multilibLine varname = false ->
  hasMultilibLine (writeListAssignment sb varname entries) = hasMultilibLine sb.
Proof.
  intros H. unfold writeListAssignment.
  destruct (0 <? length entries)%nat; [| reflexivity].
  now apply hasMultilibLine_prefix.
Qed.

Lemma hasMultilibLine_elem (sb : Builder) :
  hasMultilibLine sb = true <-> multilibLine ∈ sb.
Proof.
  unfold hasMultilibLine. rewrite existsb_exists. split.
  - intros (c & Hin & Hc). apply String.eqb_eq in Hc as <-. now apply list_elem_of_In.
  - intros Hin. exists multilibLine. split; [now apply list_elem_of_In | apply String.eqb_refl].
Qed.

Lemma hasMultilibLine_generated (altname : string) (modules : list string) (sb : Builder) :
  hasMultilibLine (foldl (writeGeneratedSource altname) sb modules) = hasMultilibLine sb.
Proof.
  revert sb. induction modules as [|module modules IH]; intros sb; [reflexivity |].
  cbn [foldl]. rewrite IH. unfold writeGeneratedSource.
  rewrite (hasMultilibLine_prefix _ tab) by reflexivity.
  rewrite hasMultilibLine_WriteString, dollar_not_multilib, orb_false_r;
    [| rewrite !containsChar_app; cbn; now rewrite ?orb_true_r].
  rewrite (hasMultilibLine_prefix _ "LOCAL_GENERATED_SOURCES+=") by reflexivity.
  rewrite hasMultilibLine_WriteString, dollar_not_multilib; [apply orb_false_r |].
  rewrite !containsChar_app. cbn. now rewrite ?orb_true_r.
Qed.

Lemma hasMultilibLine_empty (sb : Builder) :
  hasMultilibLine (WriteString sb EmptyString) = hasMultilibLine sb.
Proof. rewrite hasMultilibLine_WriteString. apply orb_false_r. Qed.

(** Chunks with a literal head are compared with the line by
    computation. *)
Ltac no_multilib_line :=
  repeat first
    [ rewrite hasMultilibLine_generated
    | rewrite hasMultilibLine_list by reflexivity
    | rewrite hasMultilibLine_WriteString ];
  unfold multilibLine, nl, tab; cbn -[hasMultilibLine]; rewrite ?orb_false_r.

(** The first part of the emitter never writes the multilib line. *)
Lemma libraryCompileSection_no_multilib (env : AndroidEnv) (names : NameMaps) (sb : Builder)
    (md : Module) (m : Library) (bt : binType) (sb' : Builder) :
  libraryCompileSection env names sb md m bt = Ok sb' ->
  hasMultilibLine sb' = hasMultilibLine sb.
Proof.
  unfold libraryCompileSection, specifyArmMode, specifyCompilerStandard.
  destruct (GetGeneratedHeaders m) as [headerDirs headerOutputs].
  destruct (GetArmMode env _) as [armMode|msg]; cbn [mbind Res_bind bindRes]; [| discriminate].
  destruct (foldl _ _ _) as [[reexportShared reexportStatic] reexportHeaders].
  intros [= <-].
  destruct (stripRequested m), (isProprietary m), (target_toolchain_clang env),
    (negb (String.eqb armMode EmptyString)),
    (negb (String.eqb (GetCompilerStandard env _) EmptyString)),
    (negb (String.eqb (GetCompilerStandard env _) EmptyString));
    no_multilib_line; reflexivity.
Qed.

(** Nor does the installation block. *)
Lemma libraryInstallSection_no_multilib (env : AndroidEnv) (names : NameMaps) (sb : Builder)
    (m : Library) (bt : binType) (isMultiLib : bool) :
  hasMultilibLine (libraryInstallSection env names sb m bt isMultiLib) = hasMultilibLine sb.
Proof.
  unfold libraryInstallSection.
  destruct (getAndroidInstallPath m) as [[installBase installRel] ok].
  destruct ok, (Post_install_cmd m), (bool_decide (bt = binTypeExecutable)), isMultiLib,
    (bool_decide (TargetType m = tgtTypeTarget)), (bool_decide (bt = binTypeShared)),
    (0 <? length (getInstallDepPhonyNames m))%nat; cbn [andb negb];
    no_multilib_line; reflexivity.
Qed.

(** The last part writes it exactly when the module is multilib. *)
Lemma libraryLinkSection_multilib (env : AndroidEnv) (sb : Builder)
    (m : Library) (bt : binType) (isMultiLib : bool) (copydtneeded : string) :
  hasMultilibLine (libraryLinkSection env sb m bt isMultiLib copydtneeded)
  = hasMultilibLine sb || isMultiLib.
Proof.
  unfold libraryLinkSection.
  destruct (bool_decide (TargetType m = tgtTypeTarget)), isMultiLib;
    no_multilib_line; rewrite ?orb_true_r; reflexivity.
Qed.

Lemma elem_of_WriteString (x : string) (sb : Builder) (c : string) :
  x ∈ sb -> x ∈ WriteString sb c.
Proof. intros H. unfold WriteString. apply elem_of_app. now left. Qed.

Lemma elem_of_writeListAssignment (x : string) (sb : Builder) (varname : string)
    (entries : list string) :
  x ∈ sb -> x ∈ writeListAssignment sb varname entries.
Proof.
  intros H. unfold writeListAssignment.
  destruct (0 <? length entries)%nat; [now apply elem_of_WriteString | assumption].
Qed.

Lemma writeListAssignment_nonempty (sb : Builder) (varname : string) (entries : list string) :
  entries <> [] ->
  writeListAssignment sb varname entries = sb ++ [listAssignment varname entries].
Proof.
  intros H. unfold writeListAssignment. destruct entries; [contradiction | reflexivity].
Qed.

Lemma libraryLdflags_shape (env : AndroidEnv) (m : Library) (bt : binType) (copydtneeded : string) :
  exists tail,
    libraryLdflags env m bt copydtneeded
    = List.filter (AndroidLinkFlags env) (Ldflags m) ++ copydtneeded :: tail.
Proof.
  unfold libraryLdflags.
  destruct (isSharedOrExecutable bt), (getVersionScript m) as [v|];
    try (now exists []).
  exists [setVersionScript env (TargetType m) v]. now rewrite <- app_assoc.
Qed.

Lemma libraryLdflags_nonempty (env : AndroidEnv) (m : Library) (bt : binType) (copydtneeded : string) :
  libraryLdflags env m bt copydtneeded <> [].
Proof.
  destruct (libraryLdflags_shape env m bt copydtneeded) as [tail ->].
  now destruct (List.filter _ _).
Qed.

(** The [LOCAL_LDFLAGS] assignments of the last part. *)
Lemma libraryLinkSection_ldflags (env : AndroidEnv) (sb : Builder)
    (m : Library) (bt : binType) (isMultiLib : bool) (copydtneeded : string) :
  let ldflags := libraryLdflags env m bt copydtneeded in
  let out := libraryLinkSection env sb m bt isMultiLib copydtneeded in
  if isMultiLib
  then listAssignment "LOCAL_LDFLAGS_32" ldflags ∈ out /\
       listAssignment "LOCAL_LDFLAGS_64" ldflags ∈ out
  else listAssignment "LOCAL_LDFLAGS" ldflags ∈ out.
Proof.
  intros ldflags out. subst out. unfold libraryLinkSection. fold ldflags.
  pose proof (libraryLdflags_nonempty env m bt copydtneeded) as Hne. fold ldflags in Hne.
  destruct isMultiLib.
  - split; apply elem_of_WriteString;
      destruct (bool_decide (TargetType m = tgtTypeTarget));
      apply elem_of_writeListAssignment;
      rewrite !(writeListAssignment_nonempty _ _ ldflags Hne);
      rewrite ?elem_of_app, ?list_elem_of_singleton; auto.
  - apply elem_of_WriteString;
      destruct (bool_decide (TargetType m = tgtTypeTarget));
      apply elem_of_writeListAssignment;
      rewrite !(writeListAssignment_nonempty _ _ ldflags Hne);
      rewrite ?elem_of_app, ?list_elem_of_singleton; auto.
Qed.

(** What a successful call of the emitter went through. *)
Lemma androidLibraryBuildAction_inv (env : AndroidEnv) (names : NameMaps) (sb : Builder)
    (md : Module) (m : Library) (fs : gmap string string) (e : Emitted) :
  androidLibraryBuildAction env names sb md m fs = Ok e ->
  exists bt sb1 hasForwardingLib,
    binTypeOf md = Ok bt /\
    libraryCompileSection env names sb md m bt = Ok sb1 /\
    visitSharedDeps (modDirectDeps md) false = Ok hasForwardingLib /\
    emBuilder e =
      libraryLinkSection env
        (libraryInstallSection env names sb1 m bt
           (isMultiLibOf md (TargetType m) bt (getAndroidInstallPath m).2))
        m bt (isMultiLibOf md (TargetType m) bt (getAndroidInstallPath m).2)
        (copyDtNeeded env m hasForwardingLib).
Proof.
  unfold androidLibraryBuildAction. intros H.
  destruct (binTypeOf md) as [bt|msg] eqn:Hbt; cbn [mbind Res_bind bindRes] in H;
    [| discriminate].
  destruct (bool_decide (is_Some (Build_wrapper m))); [discriminate |].
  destruct (libraryCompileSection env names sb md m bt) as [sb1|msg] eqn:Hc;
    cbn [mbind Res_bind bindRes] in H; [| discriminate].
  destruct (visitSharedDeps (modDirectDeps md) false) as [hasFwd|msg] eqn:Hv;
    cbn [mbind Res_bind bindRes] in H; [| discriminate].
  injection H as <-. exists bt, sb1, hasFwd. repeat split; first [assumption | reflexivity].
Qed.

Lemma isMultiLibOf_spec (md : Module) (tgt : tgtType) (bt : binType) (ok : bool) :
  isMultiLibOf md tgt bt ok = true <->
  tgt = tgtTypeTarget /\ (bt = binTypeStatic \/ bt = binTypeShared \/ ok = true) /\
  ~ LinksGenerated md.
Proof.
  unfold isMultiLibOf. rewrite <- linksToGeneratedLibrary_spec.
  destruct tgt, bt, ok, (linksToGeneratedLibrary md); cbn; split;
    try discriminate; try (intros _; repeat split; auto; discriminate);
    intros (H1 & H2 & H3); try discriminate; try reflexivity;
    try (now destruct H3); destruct H2 as [H2|[H2|H2]]; discriminate.
Qed.

(** C7.  The fragment of a library or binary holds the line
    [LOCAL_MULTILIB:=both] if and only if the module is a target
    module, is a static library, a shared library or an installable
    binary, and no chain of static, shared or whole-static link
    dependencies leads from it to a generated static or shared
    library; the link flags then go to [LOCAL_LDFLAGS_32] and
    [LOCAL_LDFLAGS_64]. *)
Theorem androidLibraryBuildAction_multilib (env : AndroidEnv) (names : NameMaps)
    (md : Module) (m : Library) (fs : gmap string string) (e : Emitted)
    (Hrun : androidLibraryBuildAction env names [] md m fs = Ok e) :
  (multilibLine ∈ emBuilder e <->
   TargetType m = tgtTypeTarget /\
   (modKind (modInfo md) = KStaticLibrary \/
    modKind (modInfo md) = KSharedLibrary \/
    (modKind (modInfo md) = KBinary /\ (getAndroidInstallPath m).2 = true)) /\
   ~ LinksGenerated md) /\
  (multilibLine ∈ emBuilder e ->
   exists ldflags,
     listAssignment "LOCAL_LDFLAGS_32" ldflags ∈ emBuilder e /\
     listAssignment "LOCAL_LDFLAGS_64" ldflags ∈ emBuilder e).
Proof.
  destruct (androidLibraryBuildAction_inv _ _ _ _ _ _ _ Hrun)
    as (bt & sb1 & hasFwd & Hbt & Hcompile & _ & Hsb).
  assert (Hline : multilibLine ∈ emBuilder e <->
                  isMultiLibOf md (TargetType m) bt (getAndroidInstallPath m).2 = true).
  { rewrite <- hasMultilibLine_elem, Hsb, libraryLinkSection_multilib,
      libraryInstallSection_no_multilib,
      (libraryCompileSection_no_multilib _ _ _ _ _ _ _ Hcompile).
    reflexivity. }
  split.
  - rewrite Hline, isMultiLibOf_spec. unfold binTypeOf in Hbt.
    destruct (modKind (modInfo md)); try discriminate; injection Hbt as <-;
      intuition congruence.
  - intros Hin. apply Hline in Hin.
    pose proof (libraryLinkSection_ldflags env
                  (libraryInstallSection env names sb1 m bt
                     (isMultiLibOf md (TargetType m) bt (getAndroidInstallPath m).2))
                  m bt (isMultiLibOf md (TargetType m) bt (getAndroidInstallPath m).2)
                  (copyDtNeeded env m hasFwd)) as Hld.
    cbn zeta in Hld. rewrite Hsb.
    destruct (isMultiLibOf md (TargetType m) bt (getAndroidInstallPath m).2);
      [| discriminate].
    eexists. exact Hld.
Qed.

Lemma androidLibraryBuildAction_multilib_witness :
  (multilibLine ∈ emBuilder Examples.libfooEmitted <->
   TargetType (Examples.plainLibrary tgtTypeTarget false) = tgtTypeTarget /\
   (modKind (modInfo Examples.libfoo) = KStaticLibrary \/
    modKind (modInfo Examples.libfoo) = KSharedLibrary \/
    (modKind (modInfo Examples.libfoo) = KBinary /\
     (getAndroidInstallPath (Examples.plainLibrary tgtTypeTarget false)).2 = true)) /\
   ~ LinksGenerated Examples.libfoo) /\
  (multilibLine ∈ emBuilder Examples.libfooEmitted ->
   exists ldflags,
     listAssignment "LOCAL_LDFLAGS_32" ldflags ∈ emBuilder Examples.libfooEmitted /\
     listAssignment "LOCAL_LDFLAGS_64" ldflags ∈ emBuilder Examples.libfooEmitted).
Proof.
  apply (androidLibraryBuildAction_multilib Examples.androidEnv emptyNameMaps
           Examples.libfoo (Examples.plainLibrary tgtTypeTarget false) ∅).
  vm_compute. reflexivity.
Defined.

(** A shared library that reaches a generated library through a static
    library is not multilib. *)
Example libTop_links_generated :
  LinksGenerated Examples.libTop /\
  isMultiLibOf Examples.libTop tgtTypeTarget binTypeShared false = false.
Proof.
  split; [| reflexivity]. apply linksToGeneratedLibrary_spec. reflexivity.
Qed.

(** * Further properties *)

(** ** The orderer *)

Lemma removeAt_names (order : list androidMkFile) (i : nat) (low : androidMkFile) (name : string) :
  order !! i = Some low ->
  Name low :: map Name (removeAt i (map (removeName name) order)) ≡ₚ map Name order.
Proof.
  revert i. induction order as [|o order IH]; intros i Hi; [discriminate |].
  destruct i as [|i]; cbn in Hi.
  - injection Hi as ->. unfold removeAt. cbn. rewrite drop_0, map_map. reflexivity.
  - unfold removeAt in *. cbn [map take drop app].
    rewrite Permutation_swap. cbn [removeName Name]. constructor. now apply IH.
Qed.

Lemma emits_permutation (order : list androidMkFile) (names : list string) :
  EmitsSmallestReady order names -> names ≡ₚ map Name order.
Proof.
  induction 1 as [|order i low names Hi Hready Hrest IH]; [reflexivity |].
  rewrite IH. now apply removeAt_names.
Qed.

Lemma sortOrder_emits (order : list androidMkFile) (sb sb' : Builder) :
  sortOrder order sb = Ok sb' ->
  exists names, sb' = sb ++ map includeLine names /\ EmitsSmallestReady order names.
Proof.
  unfold sortOrder. intros H.
  destruct (sortLoop (length order) order sb) as [r|] eqn:E; [| discriminate].
  subst r. now apply sortLoop_emits in E.
Qed.

(** X1.  When the sort succeeds there is exactly one include line per
    recorded module: the emitted names are a rearrangement of the
    recorded names. *)
Theorem sortOrder_permutation (order : list androidMkFile) (sb sb' : Builder)
    (Hrun : sortOrder order sb = Ok sb') :
  exists names, sb' = sb ++ map includeLine names /\ names ≡ₚ map Name order.
Proof.
  destruct (sortOrder_emits _ _ _ Hrun) as (names & Hsb & Hemits).
  exists names. split; [assumption | now apply emits_permutation].
Qed.

Lemma sortOrder_permutation_witness :
  exists names,
    map includeLine ["bob_test_generate_source_single"; "bob_test_module_dep_outs"]
      = [] ++ map includeLine names /\
    names ≡ₚ map Name (collectOrder [Examples.genDepOuts; Examples.genSingle]).
Proof.
  apply (sortOrder_permutation (collectOrder [Examples.genDepOuts; Examples.genSingle]) []).
  vm_compute. reflexivity.
Defined.

(** X2.  A dependency on a name that no recorded module carries is
    never resolved: the sort aborts. *)
Theorem sortOrder_unknown_dependency (order : list androidMkFile) (sb : Builder)
    (o : androidMkFile) (D : string)
    (Ho : o ∈ order) (HD : D ∈ Deps o) (Hunknown : D ∉ map Name order) :
  exists msg, sortOrder order sb = Die msg.
Proof.
  destruct (sortOrder order sb) as [sb'|msg] eqn:E; [| now exists msg].
  exfalso. apply Hunknown.
  destruct (sortOrder_emits _ _ _ E) as (names & _ & Hemits).
  destruct (emits_precedes _ _ Hemits o D Ho HD) as (l1 & l2 & l3 & Hnames).
  rewrite <- (emits_permutation _ _ Hemits), Hnames.
  apply elem_of_app. right. apply elem_of_cons. now left.
Qed.

Lemma sortOrder_unknown_dependency_witness :
  exists msg, sortOrder [ {| Name := "libA"; Deps := ["libB"] |} ] [] = Die msg.
Proof.
  apply (sortOrder_unknown_dependency _ [] {| Name := "libA"; Deps := ["libB"] |} "libB").
  - apply elem_of_cons. now left.
  - apply elem_of_cons. now left.
  - intros H. apply elem_of_cons in H as [H|H]; [discriminate | now apply elem_of_nil in H].
Defined.

Lemma removeName_ready (name : string) (o : androidMkFile) :
  Deps o = [] -> Deps (removeName name o) = [].
Proof. intros H. cbn. now rewrite H. Qed.

Lemma removeAt_elem (i : nat) (f : androidMkFile -> androidMkFile)
    (order : list androidMkFile) (o' : androidMkFile) :
  o' ∈ removeAt i (map f order) -> exists o, o ∈ order /\ o' = f o.
Proof.
  unfold removeAt. intros H.
  assert (Hin : o' ∈ map f order).
  { apply elem_of_app in H as [H|H].
    - now apply (subseteq_take i (map f order)).
    - now apply (subseteq_drop (S i) (map f order)). }
  apply list_elem_of_In, in_map_iff in Hin as (o & <- & Ho).
  exists o. split; [now apply list_elem_of_In | reflexivity].
Qed.

Lemma sortLoop_independent (passes : nat) (order : list androidMkFile) (sb : Builder) :
  length order <= passes ->
  (forall o, o ∈ order -> Deps o = []) ->
  exists sb', sortLoop passes order sb = Some (Ok sb').
Proof.
  revert order sb. induction passes as [|passes IH]; intros order sb Hlen Hready.
  - destruct order; [now eexists | cbn in Hlen; lia].
  - destruct order as [|o order]; [now eexists |].
    cbn [sortLoop]. destruct (findLow (o :: order)) as [i|] eqn:Hlow.
    + destruct (findLow_Some _ _ Hlow) as (low & Hi & _).
      rewrite (sortStep_spec _ _ _ _ Hi). apply IH.
      * apply lookup_lt_Some in Hi.
        rewrite removeAt_length; rewrite length_map; cbn [length] in *; lia.
      * intros o' Ho'. apply removeAt_elem in Ho' as (o0 & Ho0 & ->).
        apply removeName_ready. now apply Hready.
    + exfalso. pose proof (proj1 (findLow_None _) Hlow) as Hnone.
      apply (Hnone o); [apply elem_of_cons; now left |].
      apply Hready. apply elem_of_cons. now left.
Qed.

Lemma emits_independent_sorted (order : list androidMkFile) (names : list string) :
  EmitsSmallestReady order names ->
  (forall o, o ∈ order -> Deps o = []) ->
  StronglySorted (fun a b => String.ltb b a = false) names.
Proof.
  induction 1 as [|order i low names Hi Hready Hrest IH]; intros Hall; [constructor |].
  assert (Hall' : forall o', o' ∈ removeAt i (map (removeName (Name low)) order) ->
                             Deps o' = []).
  { intros o' Ho'. apply removeAt_elem in Ho' as (o0 & Ho0 & ->).
    apply removeName_ready. now apply Hall. }
  constructor; [now apply IH |].
  apply Forall_forall. intros n Hn.
  rewrite (emits_permutation _ _ Hrest) in Hn.
  apply list_elem_of_In, in_map_iff in Hn as (o' & <- & Ho').
  apply list_elem_of_In, removeAt_elem in Ho' as (o0 & Ho0 & ->).
  cbn [removeName Name]. destruct Hready as [_ Hmin]. apply Hmin; auto.
Qed.

(** X3.  When no recorded module has a dependency, the sort succeeds
    and lists the modules by name: no line is followed by the line of a
    smaller name. *)
Theorem sortOrder_independent (order : list androidMkFile) (sb : Builder)
    (Hready : forall o, o ∈ order -> Deps o = []) :
  exists names,
    sortOrder order sb = Ok (sb ++ map includeLine names) /\
    names ≡ₚ map Name order /\
    StronglySorted (fun a b => String.ltb b a = false) names.
Proof.
  destruct (sortLoop_independent (length order) order sb (le_n _) Hready) as [sb' Hrun].
  assert (Hsort : sortOrder order sb = Ok sb') by (unfold sortOrder; now rewrite Hrun).
  destruct (sortOrder_emits _ _ _ Hsort) as (names & -> & Hemits).
  exists names. split; [assumption |].
  split; [now apply emits_permutation | now apply (emits_independent_sorted order)].
Qed.

Lemma sortOrder_independent_witness :
  exists names,
    sortOrder [ {| Name := "zlib"; Deps := [] |}; {| Name := "alpha"; Deps := [] |};
                {| Name := "mid"; Deps := [] |} ] []
      = Ok ([] ++ map includeLine names) /\
    names ≡ₚ ["zlib"; "alpha"; "mid"] /\
    StronglySorted (fun a b => String.ltb b a = false) names.
Proof.
  apply (sortOrder_independent
           [ {| Name := "zlib"; Deps := [] |}; {| Name := "alpha"; Deps := [] |};
             {| Name := "mid"; Deps := [] |} ] []).
  intros o Ho.
  repeat (apply elem_of_cons in Ho as [->|Ho]; [reflexivity |]).
  now apply elem_of_nil in Ho.
Defined.

(** X4.  The modules the orderer records are, in visiting order, the
    modules that emit a fragment: those with the backend naming that
    are enabled and required and are neither defaults nor external
    libraries; each is recorded under its short name. *)
Theorem collectOrder_names (mods : list Module) :
  map Name (collectOrder mods) = map altShortName (List.filter emitsInc mods).
Proof.
  unfold collectOrder.
  enough (H : forall order,
             map Name (foldl orderVisitModule order mods)
             = map Name order ++ map altShortName (List.filter emitsInc mods))
    by apply (H []).
  induction mods as [|m mods IH]; intros order.
  - cbn. now rewrite app_nil_r.
  - cbn [foldl List.filter]. rewrite IH.
    unfold orderVisitModule, emitsInc, altShortName.
    destruct (modNaming (modInfo m)) as [[alt short]|] eqn:Hn.
    + rewrite bool_decide_eq_true_2 by now eexists. cbn [andb].
      destruct (enabledAndRequired m); cbn [andb]; [| reflexivity].
      destruct (generatesAndroidIncFile m); [| reflexivity].
      rewrite map_app. cbn [map Name]. rewrite Hn. now rewrite <- app_assoc.
    + rewrite bool_decide_eq_false_2 by (intros [x Hx]; discriminate). reflexivity.
Qed.

(** ** The name mapper *)

(** X5.  A module that takes part in the mapping (it has the backend
    naming, is not a defaults module and is enabled and required) and
    registers successfully is found under its declared name
    afterwards, every other declared name keeps what it mapped to, and
    its alt name leads back to it; a module that does not take part
    leaves both maps as they are. *)
Theorem mapAndroidNames_lookup (m : Module) (st st' : NameMaps)
    (Hrun : mapAndroidNames m st = Ok st') :
  (forall alt short,
      modNaming (modInfo m) = Some (alt, short) ->
      modKind (modInfo m) <> KDefaults ->
      enabledAndRequired m = true ->
      androidModuleName st' (modName (modInfo m)) = alt /\
      androidModuleReverseMap st' !! alt = Some (modName (modInfo m)) /\
      forall other, other <> modName (modInfo m) ->
                    androidModuleName st' other = androidModuleName st other) /\
  (modNaming (modInfo m) = None \/ modKind (modInfo m) = KDefaults \/
   enabledAndRequired m = false -> st' = st).
Proof.
  unfold mapAndroidNames in Hrun. split.
  - intros alt short Hn Hk He. rewrite Hn, He in Hrun.
    rewrite bool_decide_eq_false_2 in Hrun by assumption.
    assert (Hst : st' = {| androidModuleNameMap :=
                             <[modName (modInfo m) := alt]> (androidModuleNameMap st);
                           androidModuleReverseMap :=
                             <[alt := modName (modInfo m)]> (androidModuleReverseMap st) |}).
    { destruct (androidModuleReverseMap st !! alt) as [existing|].
      - destruct (bool_decide (existing ≠ modName (modInfo m))); [discriminate |].
        now injection Hrun as <-.
      - now injection Hrun as <-. }
    subst st'. unfold androidModuleName. cbn.
    rewrite !lookup_insert_eq. repeat split.
    intros other Hother. now rewrite lookup_insert_ne by congruence.
  - intros Hskip. destruct (modNaming (modInfo m)) as [[alt short]|].
    + destruct Hskip as [Hn|[Hk|He]]; [discriminate | |].
      * rewrite bool_decide_eq_true_2 in Hrun by assumption. now injection Hrun as <-.
      * rewrite He in Hrun. case_bool_decide; now injection Hrun as <-.
    + now injection Hrun as <-.
Qed.

Lemma mapAndroidNames_lookup_witness :
  (forall alt short,
      modNaming (modInfo Examples.libMid) = Some (alt, short) ->
      modKind (modInfo Examples.libMid) <> KDefaults ->
      enabledAndRequired Examples.libMid = true ->
      androidModuleName Examples.registered (modName (modInfo Examples.libMid)) = alt /\
      androidModuleReverseMap Examples.registered !! alt
        = Some (modName (modInfo Examples.libMid)) /\
      forall other, other <> modName (modInfo Examples.libMid) ->
        androidModuleName Examples.registered other
        = androidModuleName
            {| androidModuleNameMap := {[ "libfoo" := "libfoo" ]};
               androidModuleReverseMap := {[ "libfoo" := "libfoo" ]} |} other) /\
  (modNaming (modInfo Examples.libMid) = None \/
   modKind (modInfo Examples.libMid) = KDefaults \/
   enabledAndRequired Examples.libMid = false ->
   Examples.registered =
     {| androidModuleNameMap := {[ "libfoo" := "libfoo" ]};
        androidModuleReverseMap := {[ "libfoo" := "libfoo" ]} |}).
Proof.
  apply (mapAndroidNames_lookup Examples.libMid
           {| androidModuleNameMap := {[ "libfoo" := "libfoo" ]};
              androidModuleReverseMap := {[ "libfoo" := "libfoo" ]} |}
           Examples.registered).
  vm_compute. reflexivity.
Defined.

(** X6.  Registering is idempotent: a module that the mutator has
    accepted is accepted again, and the maps stay as they are. *)
Theorem mapAndroidNames_again (m : Module) (st st' : NameMaps)
    (Hrun : mapAndroidNames m st = Ok st') :
  mapAndroidNames m st' = Ok st'.
Proof.
  unfold mapAndroidNames in *.
  destruct (modNaming (modInfo m)) as [[alt short]|]; [| now injection Hrun as <-].
  case_bool_decide; [now injection Hrun as <- |].
  destruct (enabledAndRequired m); [| now injection Hrun as <-].
  assert (Hst : st' = {| androidModuleNameMap :=
                           <[modName (modInfo m) := alt]> (androidModuleNameMap st);
                         androidModuleReverseMap :=
                           <[alt := modName (modInfo m)]> (androidModuleReverseMap st) |}).
  { destruct (androidModuleReverseMap st !! alt) as [existing|].
    - destruct (bool_decide (existing ≠ modName (modInfo m))); [discriminate |].
      now injection Hrun as <-.
    - now injection Hrun as <-. }
  subst st'. cbn. rewrite lookup_insert_eq.
  rewrite bool_decide_eq_false_2 by (intros Hne; now apply Hne).
  now rewrite !insert_insert_eq.
Qed.

Lemma mapAndroidNames_again_witness :
  mapAndroidNames Examples.libMid Examples.registered = Ok Examples.registered.
Proof.
  apply (mapAndroidNames_again Examples.libMid
           {| androidModuleNameMap := {[ "libfoo" := "libfoo" ]};
              androidModuleReverseMap := {[ "libfoo" := "libfoo" ]} |}).
  vm_compute. reflexivity.
Defined.

(** X7.  [androidModuleNames] looks the names up one by one, keeping
    their order and number; a name that was never registered yields the
    empty string, not an error. *)
Theorem androidModuleNames_pointwise (st : NameMaps) (names : list string) :
  androidModuleNames st names = map (androidModuleName st) names /\
  length (androidModuleNames st names) = length names /\
  (forall name, androidModuleNameMap st !! name = None ->
                androidModuleName st name = EmptyString).
Proof.
  assert (H : androidModuleNames st names = map (androidModuleName st) names).
  { unfold androidModuleNames.
    enough (G : forall acc,
               foldl (fun androidNames name => androidNames ++ [androidModuleName st name])
                     acc names = acc ++ map (androidModuleName st) names) by apply (G []).
    induction names as [|n names IH]; intros acc; cbn.
    - now rewrite app_nil_r.
    - rewrite IH. now rewrite <- app_assoc. }
  split; [exact H |]. split; [rewrite H; apply length_map |].
  intros name Hn. unfold androidModuleName. now rewrite Hn.
Qed.

(** ** Path-derived module names *)

Lemma pathToModuleName_mapChars (path : string) :
  pathToModuleName path = mapChars renameChar path.
Proof.
  unfold pathToModuleName.
  rewrite !ReplaceAll_char, !mapChars_compose.
  apply mapChars_ext. intros c.
  rewrite <- renameChar_steps, <- !mapChars_compose.
  destruct (replaceChar "/" "__" c) eqn:E; [reflexivity |].
  rewrite <- E. clear.
  generalize (replaceChar "/" "__" c). intros s.
  rewrite !mapChars_compose. reflexivity.
Qed.

Lemma containsChar_mapChars (ch : ascii) (f : ascii -> string) (s : string) :
  (forall c, containsChar ch (f c) = false) -> containsChar ch (mapChars f s) = false.
Proof.
  intros Hf. induction s as [|c s IH]; [reflexivity |].
  cbn [mapChars]. now rewrite containsChar_app, Hf, IH.
Qed.

(** X8.  A path-derived module name contains no slash, dot,
    parenthesis or dollar sign, and deriving a name from a derived name
    changes nothing. *)
Theorem pathToModuleName_clean (path : string) :
  (forall ch, isRenamedChar ch = true ->
              containsChar ch (pathToModuleName path) = false) /\
  pathToModuleName (pathToModuleName path) = pathToModuleName path.
Proof.
  split.
  - intros ch Hch. rewrite pathToModuleName_mapChars.
    apply containsChar_mapChars. intros c. revert Hch.
    destruct ch as [[] [] [] [] [] [] [] []]; try discriminate; intros _;
      destruct c as [[] [] [] [] [] [] [] []]; reflexivity.
  - rewrite !pathToModuleName_mapChars, mapChars_compose.
    apply mapChars_ext. intros c.
    destruct c as [[] [] [] [] [] [] [] []]; reflexivity.
Qed.

(** X9.  The derived name of a concatenation is the concatenation of
    the derived names; hence different paths can yield the same module
    name: a slash and two underscores, or a dot and an underscore,
    cannot be told apart afterwards. *)
Theorem pathToModuleName_collides (a b : string) :
  pathToModuleName (a +:+ b) = pathToModuleName a +:+ pathToModuleName b /\
  pathToModuleName (a +:+ "/" +:+ b) = pathToModuleName (a +:+ "__" +:+ b) /\
  pathToModuleName (a +:+ "." +:+ b) = pathToModuleName (a +:+ "_" +:+ b).
Proof.
  rewrite !pathToModuleName_mapChars, !mapChars_app. repeat split.
Qed.

(** ** The late-template function maps *)

Lemma addtoFuncmap_get (propfnmap : gmap string (gmap string LateFn))
    (propList : list string) (name : string) (fn : LateFn) (prop : string) :
  addtoFuncmap propfnmap propList name fn !! prop =
    if bool_decide (prop ∈ propList)
    then Some (<[name := fn]> (default ∅ (propfnmap !! prop)))
    else propfnmap !! prop.
Proof.
  unfold addtoFuncmap. revert propfnmap.
  induction propList as [|p propList IH]; intros propfnmap; [reflexivity |].
  cbn [foldl]. rewrite IH.
  destruct (decide (prop ∈ propList)) as [Hin|Hnin].
  - rewrite (bool_decide_eq_true_2 _ Hin).
    rewrite (bool_decide_eq_true_2 (prop ∈ p :: propList)) by (apply elem_of_cons; now right).
    destruct (decide (p = prop)) as [->|Hne].
    + rewrite lookup_insert_eq. cbn. now rewrite insert_insert_eq.
    + now rewrite lookup_insert_ne.
  - rewrite (bool_decide_eq_false_2 _ Hnin).
    destruct (decide (p = prop)) as [->|Hne].
    + rewrite lookup_insert_eq.
      now rewrite (bool_decide_eq_true_2 (prop ∈ prop :: propList)) by (apply elem_of_cons; now left).
    + rewrite lookup_insert_ne by assumption.
      rewrite (bool_decide_eq_false_2 (prop ∈ p :: propList)); [reflexivity |].
      intros H. apply elem_of_cons in H as [H|H]; [congruence | contradiction].
Qed.

(** X10.  [addtoFuncmap] registers the function under [name] for every
    listed property, keeping the other functions of that property, and
    leaves the properties that are not listed as they are. *)
Theorem addtoFuncmap_lookup (propfnmap : gmap string (gmap string LateFn))
    (propList : list string) (name : string) (fn : LateFn) (prop : string) :
  addtoFuncmap propfnmap propList name fn !! prop =
    if bool_decide (prop ∈ propList)
    then Some (<[name := fn]> (default ∅ (propfnmap !! prop)))
    else propfnmap !! prop.
Proof. apply addtoFuncmap_get. Qed.

Lemma checkCompilerFlag_existsb (env : LateEnv) (flag : string) (languages : list string)
    (tc : tgtType) :
  checkCompilerFlag env flag languages tc =
    if flagSupported env tc languages flag then flag else EmptyString.
Proof.
  unfold flagSupported. induction languages as [|lang languages IH]; [reflexivity |].
  cbn. destruct (checkFlagIsSupported env tc lang flag); [reflexivity | exact IH].
Qed.

(** X11.  [checkCompilerFlag] returns the flag when the toolchain
    accepts it for one of the languages, and the empty string
    otherwise. *)
Theorem checkCompilerFlag_supported (env : LateEnv) (flag : string) (languages : list string)
    (tc : tgtType) :
  checkCompilerFlag env flag languages tc =
    if flagSupported env tc languages flag then flag else EmptyString.
Proof. apply checkCompilerFlag_existsb. Qed.

Lemma latePropfnmap_match_srcs (env : LateEnv) (m : LTModule) (prop : string) :
  lateFnOf (latePropfnmap env m) prop "match_srcs" =
    if bool_decide (prop ∈ matchSrcProps m) then Some FnMatchSrcs else None.
Proof.
  unfold lateFnOf, latePropfnmap, setupMatchSources, setupAddIfSupported. cbn [fst].
  destruct (ltBuildProps m) as [tgt|]; rewrite !addtoFuncmap_get, ?lookup_empty;
    repeat case_bool_decide; cbn;
    rewrite ?lookup_insert_ne, ?lookup_insert_eq, ?lookup_empty by discriminate;
    reflexivity.
Qed.

Lemma latePropfnmap_add_if_supported (env : LateEnv) (m : LTModule) (prop : string) :
  lateFnOf (latePropfnmap env m) prop "add_if_supported" =
    match ltBuildProps m with
    | Some tgt =>
        if bool_decide (prop ∈ ["Cflags"; "Export_cflags"])
        then Some (FnAddIfSupported tgt ["c++"; "c"])
        else if bool_decide (prop = "Cxxflags") then Some (FnAddIfSupported tgt ["c++"])
        else if bool_decide (prop = "Conlyflags") then Some (FnAddIfSupported tgt ["c"])
        else None
    | None => None
    end.
Proof.
  unfold lateFnOf, latePropfnmap, setupMatchSources, setupAddIfSupported. cbn [fst].
  destruct (ltBuildProps m) as [tgt|]; rewrite !addtoFuncmap_get, ?lookup_empty.
  - destruct (decide (prop = "Conlyflags")) as [->|H1];
      [rewrite !bool_decide_eq_true_2 by (apply elem_of_cons; now left);
       cbn; now rewrite lookup_insert_eq |].
    rewrite (bool_decide_eq_false_2 (prop ∈ ["Conlyflags"]))
      by (intros H; apply list_elem_of_singleton in H; contradiction).
    rewrite (bool_decide_eq_false_2 (prop = "Conlyflags")) by assumption.
    destruct (decide (prop = "Cxxflags")) as [->|H2];
      [rewrite !bool_decide_eq_true_2 by (first [reflexivity | apply elem_of_cons; now left]);
       cbn; now rewrite lookup_insert_eq |].
    rewrite (bool_decide_eq_false_2 (prop ∈ ["Cxxflags"]))
      by (intros H; apply list_elem_of_singleton in H; contradiction).
    rewrite (bool_decide_eq_false_2 (prop = "Cxxflags")) by assumption.
    repeat case_bool_decide; cbn;
      rewrite ?lookup_insert_ne, ?lookup_insert_eq, ?lookup_empty by discriminate;
      reflexivity.
  - repeat case_bool_decide; cbn;
      rewrite ?lookup_insert_ne, ?lookup_insert_eq, ?lookup_empty by discriminate;
      reflexivity.
Qed.

Lemma latePropfnmap_other (env : LateEnv) (m : LTModule) (prop name : string) :
  name <> "match_srcs" -> name <> "add_if_supported" ->
  lateFnOf (latePropfnmap env m) prop name = None.
Proof.
  intros H1 H2.
  unfold lateFnOf, latePropfnmap, setupMatchSources, setupAddIfSupported. cbn [fst].
  destruct (ltBuildProps m) as [tgt|]; rewrite !addtoFuncmap_get, ?lookup_empty;
    repeat case_bool_decide; cbn;
    rewrite ?lookup_insert_ne, ?lookup_empty by congruence;
    reflexivity.
Qed.

(** X12.  The functions a property can use in late templates:
    [match_srcs] exactly in the properties the module names through
    [getMatchSourcePropNames]; [add_if_supported] exactly in [Cflags]
    and [Export_cflags] (for C++ or C), [Cxxflags] (C++) and
    [Conlyflags] (C) of a module with build properties; nothing else. *)
Theorem latePropfnmap_functions (env : LateEnv) (m : LTModule) (prop : string) :
  lateFnOf (latePropfnmap env m) prop "match_srcs" =
    (if bool_decide (prop ∈ matchSrcProps m) then Some FnMatchSrcs else None) /\
  lateFnOf (latePropfnmap env m) prop "add_if_supported" =
    match ltBuildProps m with
    | Some tgt =>
        if bool_decide (prop ∈ ["Cflags"; "Export_cflags"])
        then Some (FnAddIfSupported tgt ["c++"; "c"])
        else if bool_decide (prop = "Cxxflags") then Some (FnAddIfSupported tgt ["c++"])
        else if bool_decide (prop = "Conlyflags") then Some (FnAddIfSupported tgt ["c"])
        else None
    | None => None
    end /\
  (forall name, name <> "match_srcs" -> name <> "add_if_supported" ->
                lateFnOf (latePropfnmap env m) prop name = None).
Proof.
  split; [apply latePropfnmap_match_srcs |].
  split; [apply latePropfnmap_add_if_supported |].
  intros name. apply latePropfnmap_other.
Qed.

(** ** Expansion *)

Lemma eachField_untouched (propfnmap : gmap string (gmap string LateFn))
    (onField : string -> PropValue -> gmap string bool -> Res (PropValue * gmap string bool))
    (fields : list (string * PropValue)) :
  Forall (fun nv => forall name st,
            untouchedField propfnmap name nv.2 = true ->
            onField name nv.2 st = Ok (nv.2, st)) fields ->
  forallb (fun '(name, v) => untouchedField propfnmap name v) fields = true ->
  forall st, eachField onField fields st = Ok (fields, st).
Proof.
  induction 1 as [|[n v] fields Hv _ IH]; intros Hu st; [reflexivity |].
  cbn [forallb] in Hu. apply andb_true_iff in Hu as [Huv Huf].
  cbn [eachField]. pose proof (Hv n st Huv) as Hrun. cbn [snd] in Hrun.
  rewrite Hrun. cbn. fold (eachField onField). now rewrite (IH Huf).
Qed.

(** X13.  Properties for which no late function is registered are not
    touched, whatever their strings contain: a field all of whose
    property names are without an entry in the function map comes back
    as it was, and so does the map of non-compiled sources. *)
Theorem applyLateTemplateField_untouched (env : LateEnv) (m : LTModule)
    (propfnmap : gmap string (gmap string LateFn)) (field : PropValue)
    (propName : string) (st : gmap string bool)
    (Hun : untouchedField propfnmap propName field = true) :
  applyLateTemplateField env m propfnmap propName field st = Ok (field, st).
Proof.
  revert propName st Hun.
  induction field as [s|l|t|fields IHf|] using PropValue_fields_ind;
    intros propName st Hun; cbn [applyLateTemplateField untouchedField] in *.
  - apply bool_decide_eq_true in Hun. now rewrite Hun.
  - apply bool_decide_eq_true in Hun. now rewrite Hun.
  - apply bool_decide_eq_true in Hun. now rewrite Hun.
  - now rewrite (eachField_untouched propfnmap _ fields IHf Hun).
  - reflexivity.
Qed.

Lemma applyLateTemplateField_untouched_witness :
  applyLateTemplateField Examples.lateEnv Examples.ldLibrary
    (latePropfnmap Examples.lateEnv Examples.ldLibrary) EmptyString
    (PVStruct [ ("Srcs", PVSlice ["{{match_srcs}}"; EmptyString]);
                ("Owner", PVPtr (Some "{{")) ]) ∅
  = Ok (PVStruct [ ("Srcs", PVSlice ["{{match_srcs}}"; EmptyString]);
                   ("Owner", PVPtr (Some "{{")) ], ∅).
Proof.
  apply (applyLateTemplateField_untouched Examples.lateEnv Examples.ldLibrary).
  vm_compute. reflexivity.
Defined.

(** X14.  After a pass that expanded anything at all, no string slice
    that the engine expands holds an empty string. *)
Theorem applyLateTemplates_stripped (env : LateEnv) (m : LTModule) (props' : list PropStruct)
    (Hrun : applyLateTemplates env m = Ok (Some props'))
    (Hlate : latePropfnmap env m <> ∅) :
  forallb (fun p => strippedField (latePropfnmap env m) EmptyString (PVStruct p)) props' = true.
Proof.
  unfold applyLateTemplates in Hrun. cbn [setupMatchSources] in Hrun.
  change (setupAddIfSupported m (addtoFuncmap ∅ (matchSrcProps m) "match_srcs" FnMatchSrcs))
    with (latePropfnmap env m) in Hrun.
  destruct (ltFeaturable m) as [props|]; [| discriminate].
  destruct (size (latePropfnmap env m) =? 0)%nat eqn:Hsize.
  - apply Nat.eqb_eq, map_size_empty_iff in Hsize. contradiction.
  - destruct (applyEach env m (latePropfnmap env m) props _) as [[ps matched]|msg] eqn:E;
      cbn in Hrun; [| discriminate].
    destruct (verifyMatchSources matched); cbn in Hrun; [| discriminate].
    injection Hrun as <-. eapply applyEach_stripped. eassumption.
Qed.

Lemma applyLateTemplates_stripped_witness :
  forallb (fun p => strippedField (latePropfnmap Examples.lateEnv Examples.ldLibrary)
                      EmptyString (PVStruct p)) Examples.ldExpanded = true.
Proof.
  apply (applyLateTemplates_stripped Examples.lateEnv Examples.ldLibrary).
  - vm_compute. reflexivity.
  - intros H. apply (f_equal (fun mp => mp !! "Cflags")) in H. vm_compute in H. discriminate H.
Defined.

(** *** From the early pass to the late pass *)

Lemma lexTemplate_arg (name arg acc : string) (out : list TmplNode) :
  plainArg arg = true ->
  lexTemplate (arg +:+ String dquote "}}") (InArg name acc) out
  = Some (out ++ [TAction name (strconvUnquote (acc +:+ arg))]).
Proof.
  revert acc. induction arg as [|c arg IH]; intros acc H.
  - cbn. now rewrite append_nil_r, app_nil_r.
  - cbn [plainArg] in H. apply andb_true_iff in H as [H Harg].
    apply andb_true_iff in H as [H Hl]. apply andb_true_iff in H as [Hq Hb].
    apply negb_true_iff in Hq, Hb, Hl.
    cbn [String.append lexTemplate]. rewrite Hq, Hb, Hl.
    rewrite IH by assumption. now rewrite snoc_append.
Qed.

(** A line feed between the quotes ends the parse. *)
Lemma lexTemplate_arg_linefeed (name pre post acc tail : string) (out : list TmplNode) :
  plainArg pre = true ->
  lexTemplate ((pre +:+ String "010" post) +:+ tail) (InArg name acc) out = None.
Proof.
  revert acc. induction pre as [|c pre IH]; intros acc H.
  - reflexivity.
  - cbn [plainArg] in H. apply andb_true_iff in H as [H Hpre].
    apply andb_true_iff in H as [H Hl]. apply andb_true_iff in H as [Hq Hb].
    apply negb_true_iff in Hq, Hb, Hl.
    cbn [String.append lexTemplate]. rewrite Hq, Hb, Hl. now apply IH.
Qed.

Lemma strconvUnquote_ascii (s : string) :
  asciiOnly s = true -> strconvUnquote s = s.
Proof.
  unfold asciiOnly. induction s as [|c s IH]; [reflexivity |].
  cbn [list_ascii_of_string forallb strconvUnquote].
  intros H. apply andb_true_iff in H as [Hc Hs]. rewrite Hc. now rewrite IH.
Qed.

Lemma strconvUnquote_nonEmpty (s : string) :
  nonEmpty s = true -> nonEmpty (strconvUnquote s) = true.
Proof.
  destruct s as [|c0 s1]; [discriminate |]. intros _.
  cbn [strconvUnquote].
  destruct (byteIn 0 127 c0); [reflexivity |].
  destruct (byteIn 194 223 c0).
  { destruct s1 as [|c1 s2]; [reflexivity |]. now destruct (byteIn 128 191 c1). }
  destruct (byteIn 224 239 c0).
  { destruct s1 as [|c1 [|c2 s3]]; try reflexivity.
    now destruct (secondByte c0 c1 && byteIn 128 191 c2). }
  destruct (byteIn 240 244 c0); [| reflexivity].
  destruct s1 as [|c1 [|c2 [|c3 s4]]]; try reflexivity.
  now destruct (secondByte c0 c1 && byteIn 128 191 c2 && byteIn 128 191 c3).
Qed.

Lemma lexTemplate_matchSrcs (input : string) :
  plainArg input = true ->
  lexTemplate (matchSrcs input) (InText EmptyString) []
  = Some [TAction "match_srcs" (strconvUnquote input)].
Proof.
  intros H. unfold matchSrcs. cbn -[lexTemplate String.append strconvUnquote].
  cbn [String.append lexTemplate Ascii.eqb Bool.eqb isNameChar].
  cbn -[strconvUnquote lexTemplate String.append].
  now rewrite lexTemplate_arg.
Qed.

Lemma lexTemplate_filter_compiler_flags (flag : string) :
  plainArg flag = true ->
  lexTemplate (filter_compiler_flags flag) (InText EmptyString) []
  = Some [TAction "add_if_supported" (strconvUnquote flag)].
Proof.
  intros H. unfold filter_compiler_flags. cbn -[lexTemplate String.append strconvUnquote].
  cbn [String.append lexTemplate Ascii.eqb Bool.eqb isNameChar].
  cbn -[strconvUnquote lexTemplate String.append].
  now rewrite lexTemplate_arg.
Qed.

Lemma lexTemplate_matchSrcs_linefeed (pre post : string) :
  plainArg pre = true ->
  lexTemplate (matchSrcs (pre +:+ String "010" post)) (InText EmptyString) [] = None.
Proof.
  intros H. unfold matchSrcs. cbn -[lexTemplate String.append].
  cbn [String.append lexTemplate Ascii.eqb Bool.eqb isNameChar].
  cbn -[lexTemplate String.append].
  now apply lexTemplate_arg_linefeed.
Qed.

Lemma lexTemplate_filter_compiler_flags_linefeed (pre post : string) :
  plainArg pre = true ->
  lexTemplate (filter_compiler_flags (pre +:+ String "010" post)) (InText EmptyString) []
  = None.
Proof.
  intros H. unfold filter_compiler_flags. cbn -[lexTemplate String.append].
  cbn [String.append lexTemplate Ascii.eqb Bool.eqb isNameChar].
  cbn -[lexTemplate String.append].
  now apply lexTemplate_arg_linefeed.
Qed.

Lemma applyTemplateString_add_if_supported (env : LateEnv) (m : LTModule)
    (funcmap : gmap string LateFn) (tc : tgtType) (languages : list string)
    (flag : string) (st : gmap string bool) :
  plainArg flag = true ->
  funcmap !! "add_if_supported" = Some (FnAddIfSupported tc languages) ->
  applyTemplateString env m funcmap (filter_compiler_flags flag) st
  = Ok (if flagSupported env tc languages (strconvUnquote flag)
        then strconvUnquote flag else EmptyString, st).
Proof.
  intros Hplain Hfn. unfold applyTemplateString, parseTemplate.
  rewrite lexTemplate_filter_compiler_flags by assumption.
  cbn [forallb]. rewrite bool_decide_eq_true_2 by (rewrite Hfn; now eexists).
  cbn [andb executeTemplate]. rewrite Hfn. cbn -[strconvUnquote].
  now rewrite checkCompilerFlag_existsb.
Qed.

(** X15.  What the early pass writes for [match_srcs] and
    [add_if_supported] is what the late pass evaluates.  For an
    argument without quote, backslash and line feed, expanding
    [matchSrcs arg] where [match_srcs] is registered is the call
    [matchSources] on the argument as [strconv.Unquote] returns it,
    and expanding [filter_compiler_flags arg] where [add_if_supported]
    is registered yields that flag if the toolchain accepts it for one
    of the registered languages and the empty string otherwise; an
    ASCII argument is handed over unchanged.  An argument with a line
    feed makes the expansion abort with a parse error. *)
Theorem early_templates_reach_late_functions (env : LateEnv) (m : LTModule)
    (funcmap : gmap string LateFn) (arg : string) (st : gmap string bool)
    (Hplain : plainArg arg = true) :
  (funcmap !! "match_srcs" = Some FnMatchSrcs ->
   applyTemplateString env m funcmap (matchSrcs arg) st
   = matchSources env m (strconvUnquote arg) st) /\
  (forall tc languages,
      funcmap !! "add_if_supported" = Some (FnAddIfSupported tc languages) ->
      applyTemplateString env m funcmap (filter_compiler_flags arg) st
      = Ok (if flagSupported env tc languages (strconvUnquote arg)
            then strconvUnquote arg else EmptyString, st)) /\
  (asciiOnly arg = true -> strconvUnquote arg = arg) /\
  (forall post,
      applyTemplateString env m funcmap (matchSrcs (arg +:+ String "010" post)) st
      = Die (parseError (matchSrcs (arg +:+ String "010" post))) /\
      applyTemplateString env m funcmap (filter_compiler_flags (arg +:+ String "010" post)) st
      = Die (parseError (filter_compiler_flags (arg +:+ String "010" post)))).
Proof.
  split; [| split; [| split]].
  - intros Hfn. unfold applyTemplateString, parseTemplate.
    rewrite lexTemplate_matchSrcs by assumption.
    cbn [forallb]. rewrite bool_decide_eq_true_2 by (rewrite Hfn; now eexists).
    cbn [andb executeTemplate]. rewrite Hfn. cbn [callLateFn].
    destruct (matchSources env m (strconvUnquote arg) st) as [[r st']|msg]; reflexivity.
  - intros tc languages Hfn. now apply applyTemplateString_add_if_supported.
  - apply strconvUnquote_ascii.
  - intros post. unfold applyTemplateString, parseTemplate.
    rewrite lexTemplate_matchSrcs_linefeed, lexTemplate_filter_compiler_flags_linefeed
      by assumption.
    split; reflexivity.
Qed.

Lemma early_templates_reach_late_functions_witness :
  applyTemplateString Examples.lateEnv Examples.ldLibrary
    {[ "match_srcs" := FnMatchSrcs ]} (matchSrcs "version.ld") ∅
  = matchSources Examples.lateEnv Examples.ldLibrary "version.ld" ∅.
Proof.
  apply (proj1 (early_templates_reach_late_functions Examples.lateEnv Examples.ldLibrary
                  {[ "match_srcs" := FnMatchSrcs ]} "version.ld" ∅ eq_refl)).
  reflexivity.
Defined.

Lemma applySlice_add_if_supported (env : LateEnv) (m : LTModule)
    (funcmap : gmap string LateFn) (tc : tgtType) (languages : list string)
    (flags : list string) (e : bool) (st : gmap string bool) :
  funcmap !! "add_if_supported" = Some (FnAddIfSupported tc languages) ->
  forallb (fun f => plainArg f && nonEmpty f) flags = true ->
  applySlice env m funcmap (map filter_compiler_flags flags) e st
  = Ok (map (fun f => if flagSupported env tc languages f then f else EmptyString)
          (map strconvUnquote flags),
        e || negb (forallb (flagSupported env tc languages) (map strconvUnquote flags)), st).
Proof.
  intros Hfn. revert e. induction flags as [|f flags IH]; intros e Hflags.
  - cbn. now rewrite orb_false_r.
  - cbn [forallb] in Hflags. apply andb_true_iff in Hflags as [Hf Hrest].
    apply andb_true_iff in Hf as [Hplain Hne].
    cbn [map applySlice].
    rewrite (applyTemplateString_add_if_supported _ _ _ _ _ _ _ Hplain Hfn).
    cbn -[strconvUnquote].
    rewrite IH by assumption. cbn [forallb].
    apply strconvUnquote_nonEmpty in Hne.
    unfold nonEmpty in Hne. apply negb_true_iff in Hne.
    destruct (flagSupported env tc languages (strconvUnquote f)); cbn -[strconvUnquote].
    + now rewrite Hne.
    + now rewrite orb_true_r.
Qed.

Lemma strip_unsupported (env : LateEnv) (tc : tgtType) (languages : list string)
    (flags : list string) :
  forallb nonEmpty flags = true ->
  stripEmptyComponents
    (map (fun f => if flagSupported env tc languages f then f else EmptyString) flags)
  = List.filter (flagSupported env tc languages) flags.
Proof.
  induction flags as [|f flags IH]; intros Hflags; [reflexivity |].
  cbn [forallb] in Hflags. apply andb_true_iff in Hflags as [Hne Hrest].
  unfold nonEmpty in Hne.
  unfold stripEmptyComponents in *. cbn [map List.filter].
  destruct (flagSupported env tc languages f); cbn.
  - rewrite Hne. now rewrite IH.
  - now apply IH.
Qed.

Lemma all_supported (env : LateEnv) (tc : tgtType) (languages : list string)
    (flags : list string) :
  forallb (flagSupported env tc languages) flags = true ->
  map (fun f => if flagSupported env tc languages f then f else EmptyString) flags
  = List.filter (flagSupported env tc languages) flags.
Proof.
  induction flags as [|f flags IH]; intros H; [reflexivity |].
  cbn [forallb] in H. apply andb_true_iff in H as [Hf Hrest].
  cbn [map List.filter]. rewrite Hf. now rewrite IH.
Qed.

Lemma unquoted_nonEmpty (flags : list string) :
  forallb (fun f => plainArg f && nonEmpty f) flags = true ->
  forallb nonEmpty (map strconvUnquote flags) = true.
Proof.
  induction flags as [|f flags IH]; intros H; [reflexivity |].
  cbn [forallb map] in *. apply andb_true_iff in H as [Hf Hrest].
  apply andb_true_iff in Hf as [_ Hne].
  rewrite (strconvUnquote_nonEmpty _ Hne). now apply IH.
Qed.

Lemma unquoted_ascii (flags : list string) :
  forallb asciiOnly flags = true -> map strconvUnquote flags = flags.
Proof.
  induction flags as [|f flags IH]; intros H; [reflexivity |].
  cbn [forallb map] in *. apply andb_true_iff in H as [Hf Hrest].
  now rewrite (strconvUnquote_ascii _ Hf), IH.
Qed.

(** X16.  A string slice whose entries all come from
    [filter_compiler_flags] (non-empty flags without quote, backslash
    and line feed), in a property where [add_if_supported] is
    registered, is expanded to the flags the toolchain accepts, in
    order, each as [strconv.Unquote] returns it, which for ASCII flags
    is the flag itself; the rejected ones leave no trace and the map
    of non-compiled sources is not changed. *)
Theorem applyLateTemplateField_keeps_supported (env : LateEnv) (m : LTModule)
    (propfnmap : gmap string (gmap string LateFn)) (propName : string)
    (funcmap : gmap string LateFn) (tc : tgtType) (languages : list string)
    (flags : list string) (st : gmap string bool)
    (Hprop : propfnmap !! propName = Some funcmap)
    (Hfn : funcmap !! "add_if_supported" = Some (FnAddIfSupported tc languages))
    (Hflags : forallb (fun f => plainArg f && nonEmpty f) flags = true) :
  applyLateTemplateField env m propfnmap propName
    (PVSlice (map filter_compiler_flags flags)) st
  = Ok (PVSlice (List.filter (flagSupported env tc languages) (map strconvUnquote flags)), st)
  /\ (forallb asciiOnly flags = true -> map strconvUnquote flags = flags).
Proof.
  split; [| apply unquoted_ascii].
  cbn [applyLateTemplateField]. rewrite Hprop.
  rewrite (applySlice_add_if_supported _ _ _ _ _ _ _ _ Hfn Hflags). cbn -[strconvUnquote].
  destruct (forallb (flagSupported env tc languages) (map strconvUnquote flags)) eqn:Hall;
    cbn -[strconvUnquote].
  - now rewrite all_supported.
  - now rewrite strip_unsupported by now apply unquoted_nonEmpty.
Qed.

Lemma applyLateTemplateField_keeps_supported_witness :
  applyLateTemplateField Examples.lateEnv Examples.ldLibrary
    (latePropfnmap Examples.lateEnv Examples.ldLibrary) "Cflags"
    (PVSlice (map filter_compiler_flags ["-Wall"; "-Wunsupported"; "-O2"])) ∅
  = Ok (PVSlice (List.filter (flagSupported Examples.lateEnv tgtTypeTarget ["c++"; "c"])
                   ["-Wall"; "-Wunsupported"; "-O2"]), ∅).
Proof.
  assert (Hprop : latePropfnmap Examples.lateEnv Examples.ldLibrary !! "Cflags"
                  = Some {[ "add_if_supported" := FnAddIfSupported tgtTypeTarget ["c++"; "c"] ]})
    by (vm_compute; reflexivity).
  exact (proj1 (applyLateTemplateField_keeps_supported Examples.lateEnv Examples.ldLibrary
                  (latePropfnmap Examples.lateEnv Examples.ldLibrary) "Cflags"
                  {[ "add_if_supported" := FnAddIfSupported tgtTypeTarget ["c++"; "c"] ]}
                  tgtTypeTarget ["c++"; "c"] ["-Wall"; "-Wunsupported"; "-O2"] ∅
                  Hprop eq_refl eq_refl)).
Defined.

(** ** The library and binary emitter: when it succeeds *)

Lemma visitSharedDeps_ok (ds : list (DepTag * Module)) (seen : bool) :
  (exists b, visitSharedDeps ds seen = Ok b) <->
  (forall p, (sharedDepTag, p) ∈ ds -> sharedLibraryLike p = true).
Proof.
  revert seen. induction ds as [|[tag p] ds IH]; intros seen.
  - split; [intros _ p Hp; now apply elem_of_nil in Hp | intros _; now eexists].
  - cbn [visitSharedDeps]. case_bool_decide as Htag.
    + subst tag. unfold sharedLibraryLike at 1.
      destruct (modKind (modInfo p)) eqn:Hk;
        try (split;
             [intros [b Hb]; discriminate
             | intros Hall; specialize (Hall p (ltac:(apply elem_of_cons; now left)));
               unfold sharedLibraryLike in Hall; rewrite Hk in Hall; discriminate]);
        rewrite IH; (split;
          [ intros Hall q Hq; apply elem_of_cons in Hq as [Hq|Hq];
            [injection Hq as ->; unfold sharedLibraryLike; now rewrite Hk | now apply Hall]
          | intros Hall q Hq; apply Hall; apply elem_of_cons; now right ]).
    + rewrite IH. split.
      * intros Hall q Hq. apply elem_of_cons in Hq as [Hq|Hq]; [congruence | now apply Hall].
      * intros Hall q Hq. apply Hall. apply elem_of_cons. now right.
Qed.

Lemma libraryCompileSection_ok (env : AndroidEnv) (names : NameMaps) (sb : Builder)
    (md : Module) (m : Library) (bt : binType) :
  isOk (libraryCompileSection env names sb md m bt) = isOk (GetArmMode env (armModeFlags m)).
Proof.
  unfold libraryCompileSection, specifyArmMode, armModeFlags.
  destruct (GetGeneratedHeaders m) as [headerDirs headerOutputs].
  destruct (GetArmMode env _) as [armMode|msg]; cbn [mbind Res_bind bindRes]; [| reflexivity].
  destruct (foldl _ _ _) as [[reexportShared reexportStatic] reexportHeaders].
  reflexivity.
Qed.

(** X17.  The library emitter writes a fragment exactly when the module
    is a static library, shared library or binary, has no
    [build_wrapper], its flag lists give a consistent ARM mode, and
    every direct dependency under the shared-library tag is a shared
    library, a generated shared library or an external library; in
    every other case it aborts.  (The write of the [.inc] file is an
    insertion in the map of files, which cannot fail.) *)
Theorem androidLibraryBuildAction_succeeds_iff (env : AndroidEnv) (names : NameMaps)
    (sb : Builder) (md : Module) (m : Library) (fs : gmap string string) :
  (exists e, androidLibraryBuildAction env names sb md m fs = Ok e) <->
  (modKind (modInfo md) = KStaticLibrary \/ modKind (modInfo md) = KSharedLibrary \/
   modKind (modInfo md) = KBinary) /\
  Build_wrapper m = None /\
  isOk (GetArmMode env (armModeFlags m)) = true /\
  (forall p, (sharedDepTag, p) ∈ modDirectDeps md -> sharedLibraryLike p = true).
Proof.
  unfold androidLibraryBuildAction.
  rewrite <- (visitSharedDeps_ok (modDirectDeps md) false).
  assert (Hkind : (modKind (modInfo md) = KStaticLibrary \/
                   modKind (modInfo md) = KSharedLibrary \/
                   modKind (modInfo md) = KBinary) <-> exists bt, binTypeOf md = Ok bt).
  { unfold binTypeOf. destruct (modKind (modInfo md)); split;
      try (intros [H|[H|H]]; discriminate); try (intros [bt H]; discriminate);
      try (intros _; now eexists); intros _; auto. }
  rewrite Hkind. clear Hkind.
  destruct (binTypeOf md) as [bt|msg0]; cbn [mbind Res_bind bindRes].
  - pose proof (libraryCompileSection_ok env names sb md m bt) as Hc.
    destruct (Build_wrapper m) as [w|].
    + rewrite bool_decide_eq_true_2 by now eexists.
      split; [intros [e He]; discriminate | intros (_ & H & _); discriminate].
    + rewrite bool_decide_eq_false_2 by (intros [x Hx]; discriminate).
      destruct (libraryCompileSection env names sb md m bt) as [sb1|msg1];
        cbn [mbind Res_bind bindRes isOk] in *.
      * destruct (visitSharedDeps (modDirectDeps md) false) as [b|msg2];
          cbn [mbind Res_bind bindRes].
        -- split; [intros _ | intros _; now eexists].
           repeat split; auto; now eexists.
        -- split; [intros [e He]; discriminate | intros (_ & _ & _ & [b Hb]); discriminate].
      * split; [intros [e He]; discriminate |].
        intros (_ & _ & H & _). rewrite <- Hc in H. discriminate.
  - split; [intros [e He]; discriminate | intros ([bt Hbt] & _); discriminate].
Qed.

(** ** The library and binary emitter: the shape of the fragment *)

Lemma WriteString_app (sb l : Builder) (c : string) :
  WriteString (sb ++ l) c = sb ++ (l ++ [c]).
Proof. unfold WriteString. now rewrite <- app_assoc. Qed.

Lemma writeListAssignment_app (sb l : Builder) (varname : string) (entries : list string) :
  writeListAssignment (sb ++ l) varname entries
  = sb ++ writeListAssignment l varname entries.
Proof.
  unfold writeListAssignment. destruct (0 <? length entries)%nat; [| reflexivity].
  apply WriteString_app.
Qed.

Lemma writeGeneratedSource_app (altname : string) (modules : list string) (sb l : Builder) :
  foldl (writeGeneratedSource altname) (sb ++ l) modules
  = sb ++ foldl (writeGeneratedSource altname) l modules.
Proof.
  revert l. induction modules as [|module modules IH]; intros l; [reflexivity |].
  cbn [foldl]. rewrite <- IH. f_equal.
  unfold writeGeneratedSource. now rewrite !WriteString_app.
Qed.

Ltac push_builder :=
  repeat first
    [ rewrite WriteString_app
    | rewrite writeListAssignment_app
    | rewrite writeGeneratedSource_app ].

(** The first part appends to the builder, starting with the header. *)
Lemma libraryCompileSection_appends (env : AndroidEnv) (names : NameMaps) (sb : Builder)
    (md : Module) (m : Library) (bt : binType) (sb' : Builder) :
  libraryCompileSection env names sb md m bt = Ok sb' ->
  exists rest, sb' = (sb ++ libraryHeader md bt) ++ rest.
Proof.
  unfold libraryCompileSection, specifyArmMode. cbv zeta.
  set (hdr := WriteString (WriteString (WriteString sb _) _) _).
  assert (Hhdr : hdr = (sb ++ libraryHeader md bt) ++ []).
  { subst hdr. unfold libraryHeader, WriteString.
    rewrite app_nil_r, <- !app_assoc. reflexivity. }
  clearbody hdr. subst hdr.
  destruct (GetGeneratedHeaders m) as [headerDirs headerOutputs].
  destruct (GetArmMode env _) as [armMode|msg]; cbn [mbind Res_bind bindRes]; [| discriminate].
  destruct (foldl (reexportStep _ _ _) _ _) as [[reexportShared reexportStatic] reexportHeaders].
  intros [= <-].
  destruct (stripRequested m), (isProprietary m); push_builder; eexists; reflexivity.
Qed.

Lemma libraryInstallSection_appends (env : AndroidEnv) (names : NameMaps) (sb : Builder)
    (m : Library) (bt : binType) (isMultiLib : bool) :
  exists rest, libraryInstallSection env names sb m bt isMultiLib = sb ++ rest.
Proof.
  enough (H : forall l, exists rest,
               libraryInstallSection env names (sb ++ l) m bt isMultiLib = sb ++ rest)
    by (specialize (H []); now rewrite app_nil_r in H).
  intros l. unfold libraryInstallSection.
  destruct (getAndroidInstallPath m) as [[installBase installRel] ok].
  destruct ok, (Post_install_cmd m), (bool_decide (bt = binTypeExecutable)), isMultiLib,
    (bool_decide (TargetType m = tgtTypeTarget)), (bool_decide (bt = binTypeShared)),
    (0 <? length (getInstallDepPhonyNames m))%nat; cbn [andb negb];
    push_builder; eexists; reflexivity.
Qed.

Lemma libraryLinkSection_appends (env : AndroidEnv) (sb : Builder)
    (m : Library) (bt : binType) (isMultiLib : bool) (copydtneeded : string) :
  exists rest,
    libraryLinkSection env sb m bt isMultiLib copydtneeded
    = sb ++ rest ++ [libraryFooter m bt].
Proof.
  enough (H : forall l, exists rest,
               libraryLinkSection env (sb ++ l) m bt isMultiLib copydtneeded
               = sb ++ rest ++ [libraryFooter m bt])
    by (specialize (H []); now rewrite app_nil_r in H).
  intros l. unfold libraryLinkSection, libraryFooter.
  destruct isMultiLib, (bool_decide (TargetType m = tgtTypeTarget));
    push_builder; eexists; reflexivity.
Qed.

(** X18.  A fragment written by the library emitter extends the builder
    it was given: first the [CLEAR_VARS] header, the module name and
    the module class, last the [include] of the build rule for the
    module's target type and kind.  The file
    [<build dir>/<alt short name>.inc] receives the builder's contents
    and no other file is touched. *)
Theorem androidLibraryBuildAction_frame (env : AndroidEnv) (names : NameMaps)
    (sb : Builder) (md : Module) (m : Library) (fs : gmap string string) (e : Emitted)
    (Hrun : androidLibraryBuildAction env names sb md m fs = Ok e) :
  exists bt rest,
    binTypeOf md = Ok bt /\
    emBuilder e = sb ++ libraryHeader md bt ++ rest ++ [libraryFooter m bt] /\
    emFiles e !! getPathInBuildDir (buildDir env) (altShortName md +:+ ".inc")
      = Some (contents (emBuilder e)) /\
    (forall path, path <> getPathInBuildDir (buildDir env) (altShortName md +:+ ".inc") ->
                  emFiles e !! path = fs !! path) /\
    emOuts e = [filepathJoin env (outputDir m) (outputFileName m)].
Proof.
  destruct (androidLibraryBuildAction_inv _ _ _ _ _ _ _ Hrun)
    as (bt & sb1 & hasFwd & Hbt & Hcompile & Hvisit & Hsb).
  destruct (libraryCompileSection_appends _ _ _ _ _ _ _ Hcompile) as [r1 ->].
  destruct (libraryInstallSection_appends env names ((sb ++ libraryHeader md bt) ++ r1) m bt
              (isMultiLibOf md (TargetType m) bt (getAndroidInstallPath m).2)) as [r2 Hr2].
  destruct (libraryLinkSection_appends env
              (((sb ++ libraryHeader md bt) ++ r1) ++ r2) m bt
              (isMultiLibOf md (TargetType m) bt (getAndroidInstallPath m).2)
              (copyDtNeeded env m hasFwd)) as [r3 Hr3].
  exists bt, (r1 ++ r2 ++ r3). split; [assumption |].
  split; [rewrite Hsb, Hr2, Hr3; now rewrite <- !app_assoc |].
  unfold androidLibraryBuildAction in Hrun.
  rewrite Hbt in Hrun. cbn [mbind Res_bind bindRes] in Hrun.
  destruct (bool_decide (is_Some (Build_wrapper m))); [discriminate |].
  rewrite Hcompile in Hrun. cbn [mbind Res_bind bindRes] in Hrun.
  rewrite Hvisit in Hrun. cbn [mbind Res_bind bindRes] in Hrun.
  injection Hrun as <-. cbn [emFiles emBuilder emOuts]. unfold androidMkWriteString.
  split; [now rewrite lookup_insert_eq |].
  split; [| reflexivity].
  intros path Hpath. now rewrite lookup_insert_ne by congruence.
Qed.

Lemma androidLibraryBuildAction_frame_witness :
  exists bt rest,
    binTypeOf Examples.libfoo = Ok bt /\
    emBuilder Examples.libfooEmitted
      = [] ++ libraryHeader Examples.libfoo bt ++ rest
           ++ [libraryFooter (Examples.plainLibrary tgtTypeTarget false) bt] /\
    emFiles Examples.libfooEmitted
      !! getPathInBuildDir (buildDir Examples.androidEnv)
           (altShortName Examples.libfoo +:+ ".inc")
      = Some (contents (emBuilder Examples.libfooEmitted)) /\
    (forall path,
        path <> getPathInBuildDir (buildDir Examples.androidEnv)
                  (altShortName Examples.libfoo +:+ ".inc") ->
        emFiles Examples.libfooEmitted !! path = (∅ : gmap string string) !! path) /\
    emOuts Examples.libfooEmitted
      = [filepathJoin Examples.androidEnv
           (outputDir (Examples.plainLibrary tgtTypeTarget false))
           (outputFileName (Examples.plainLibrary tgtTypeTarget false))].
Proof.
  apply (androidLibraryBuildAction_frame Examples.androidEnv emptyNameMaps []
           Examples.libfoo (Examples.plainLibrary tgtTypeTarget false) ∅).
  vm_compute. reflexivity.
Defined.

(** ** The Linux backend: build statements of a generated module *)

Lemma buildLoop_app (name : string) (rule : Linux.blueprintRule) (implicits : list string)
    (l1 l2 : list Gen.inout) (st : gmap string string * list Linux.BuildParams) :
  Linux.buildLoop name rule implicits (l1 ++ l2) st
  = st' ← Linux.buildLoop name rule implicits l1 st;
    Linux.buildLoop name rule implicits l2 st'.
Proof.
  revert st. induction l1 as [|io l1 IH]; intros st; [reflexivity |].
  cbn [app Linux.buildLoop].
  destruct (Linux.buildInout name rule implicits st io) as [st1|msg];
    cbn [mbind Res_bind bindRes]; [apply IH | reflexivity].
Qed.

(** The one way an iteration fails. *)
Lemma buildInout_ok (name : string) (rule : Linux.blueprintRule) (implicits : list string)
    (st : gmap string string * list Linux.BuildParams) (io : Gen.inout) :
  isOk (Linux.buildInout name rule implicits st io)
  = negb (negb (String.eqb (Gen.depfile io) EmptyString)
          && (1 <? length (Gen.out io))%nat).
Proof.
  unfold Linux.buildInout. destruct st as [args builds].
  destruct (String.eqb (Gen.depfile io) EmptyString); cbn [negb andb isOk]; [reflexivity |].
  destruct (1 <? length (Gen.out io))%nat; reflexivity.
Qed.

Lemma buildLoop_ok (name : string) (rule : Linux.blueprintRule) (implicits : list string)
    (inouts : list Gen.inout) (st : gmap string string * list Linux.BuildParams) :
  (exists st', Linux.buildLoop name rule implicits inouts st = Ok st') <->
  (forall io, io ∈ inouts ->
     Gen.depfile io = EmptyString \/ (length (Gen.out io) <= 1)%nat).
Proof.
  revert st. induction inouts as [|io inouts IH]; intros st.
  - split; [intros _ io Hin; inversion Hin | intros _; now eexists].
  - cbn [Linux.buildLoop]. pose proof (buildInout_ok name rule implicits st io) as Hok.
    assert (Hio : negb (negb (String.eqb (Gen.depfile io) EmptyString)
                        && (1 <? length (Gen.out io))%nat) = true
                  <-> (Gen.depfile io = EmptyString \/ (length (Gen.out io) <= 1)%nat)).
    { destruct (String.eqb_spec (Gen.depfile io) EmptyString) as [He|Hne];
        cbn [negb andb]; [split; auto |].
      destruct (Nat.ltb_spec 1 (length (Gen.out io))); cbn [negb]; split.
      - discriminate.
      - intros [?|?]; [contradiction | lia].
      - intros _; right; lia.
      - reflexivity. }
    destruct (Linux.buildInout name rule implicits st io) as [st1|msg];
      cbn [mbind Res_bind bindRes isOk] in *.
    + rewrite (IH st1). split.
      * intros H io' Hin. apply elem_of_cons in Hin as [->|Hin]; [now apply Hio | now apply H].
      * intros H io' Hin. apply H. now right.
    + split; [intros [st' H]; discriminate |].
      intros H. assert (Hc : false = true); [| discriminate].
      rewrite Hok. apply Hio, H. now left.
Qed.

Lemma buildInout_spec (name : string) (rule : Linux.blueprintRule) (implicits : list string)
    (args : gmap string string) (builds : list Linux.BuildParams) (io : Gen.inout)
    (args' : gmap string string) (builds' : list Linux.BuildParams) :
  Linux.buildInout name rule implicits (args, builds) io = Ok (args', builds') ->
  args' = (if negb (String.eqb (Gen.rspfile io) EmptyString)
           then <["rspfile" := Gen.rspfile io]> args else args) /\
  exists new main,
    builds' = builds ++ new /\
    main ∈ new /\
    Linux.Rule main = rule /\ Linux.Inputs main = Gen.in_ io /\
    Linux.Outputs main = Gen.out io /\ Linux.Args main = args' /\
    Linux.Implicits main = Gen.implicitSrcs io ++ implicits /\
    Forall depfileAlone new /\
    Forall (fun b => Linux.Optional b = true) new /\
    Permutation (flat_map Linux.produced new) (Gen.declared io).
Proof.
  unfold Linux.buildInout.
  destruct (String.eqb_spec (Gen.depfile io) EmptyString) as [He|Hne]; cbn [negb andb].
  - intros [= <- <-]. split; [reflexivity |].
    eexists _, _. split; [reflexivity |].
    split; [apply list_elem_of_singleton; reflexivity |].
    repeat (split; [reflexivity |]).
    split; [constructor; [| constructor]; intros H; now cbn in H |].
    split; [repeat constructor |].
    cbn. rewrite ?app_nil_r. unfold Gen.declared. reflexivity.
  - destruct (Nat.ltb_spec 1 (length (Gen.out io))) as [Hlt|Hle]; [discriminate |].
    intros [= <- <-]. split; [reflexivity |].
    destruct (0 <? length (Gen.implicitOuts io))%nat eqn:Himp.
    + eexists _, _. split; [rewrite <- app_assoc; reflexivity |].
      split; [apply list_elem_of_further, list_elem_of_singleton; reflexivity |].
      repeat (split; [reflexivity |]).
      split; [constructor; [| constructor; [| constructor]] |].
      * intros H. now cbn in H.
      * intros _. cbn. repeat split. exact Hle.
      * split; [repeat constructor |].
        cbn. rewrite ?app_nil_r. unfold Gen.declared. apply Permutation_app_comm.
    + eexists _, _. split; [reflexivity |].
      split; [apply list_elem_of_singleton; reflexivity |].
      repeat (split; [reflexivity |]).
      split; [constructor; [| constructor]; intros _; cbn; repeat split; exact Hle |].
      split; [repeat constructor |].
      cbn. rewrite ?app_nil_r. apply Nat.ltb_ge in Himp. unfold Gen.declared.
      destruct (Gen.implicitOuts io); [now rewrite app_nil_r | cbn in Himp; lia].
Qed.

Lemma buildLoop_spec (name : string) (rule : Linux.blueprintRule) (implicits : list string)
    (inouts : list Gen.inout) (args : gmap string string) (builds : list Linux.BuildParams)
    (args' : gmap string string) (builds' : list Linux.BuildParams) :
  Linux.buildLoop name rule implicits inouts (args, builds) = Ok (args', builds') ->
  exists new,
    builds' = builds ++ new /\
    Forall depfileAlone new /\
    Forall (fun b => Linux.Optional b = true) new /\
    Permutation (flat_map Linux.produced new) (flat_map Gen.declared inouts).
Proof.
  revert args builds. induction inouts as [|io inouts IH]; intros args builds.
  - intros [= <- <-]. exists []. rewrite app_nil_r. repeat split; constructor.
  - cbn [Linux.buildLoop].
    destruct (Linux.buildInout name rule implicits (args, builds) io) as [[args1 builds1]|msg]
      eqn:Hstep; cbn [mbind Res_bind bindRes]; [| discriminate].
    intros Hloop.
    destruct (buildInout_spec _ _ _ _ _ _ _ _ Hstep)
      as (_ & new1 & main & -> & _ & _ & _ & _ & _ & _ & Hdep1 & Hopt1 & Hperm1).
    destruct (IH _ _ Hloop) as (new2 & -> & Hdep2 & Hopt2 & Hperm2).
    exists (new1 ++ new2). split; [now rewrite app_assoc |].
    split; [now apply Forall_app |]. split; [now apply Forall_app |].
    rewrite flat_map_app. cbn [flat_map]. now apply Permutation_app.
Qed.

Lemma generateCommonActions_inv (env : Linux.LinuxEnv) (m : Gen.generateCommon)
    (inouts : list Gen.inout) (g : Linux.Generated) :
  Linux.generateCommonActions env m inouts = Ok g ->
  exists args,
    Linux.buildLoop (Gen.ModuleName m) (Linux.rule g) (Gen.getArgs m).1.2
      (Linux.prefixed env m inouts)
      (Linux.StripUnusedArgs env (Gen.getArgs m).1.1.2 (Gen.getArgs m).1.1.1, [])
    = Ok (args, Linux.builds g).
Proof.
  unfold Linux.generateCommonActions, Linux.prefixed.
  destruct (Gen.getArgs m) as [[[cmd args] implicits] hostTarget]. cbn [fst snd].
  destruct (Linux.buildLoop _ _ _ _ _) as [[args' builds']|msg] eqn:Hloop;
    cbn [mbind Res_bind bindRes]; [| discriminate].
  intros [= <-]. cbn [Linux.rule Linux.builds]. now exists args'.
Qed.

(** X19.  The Linux backend produces the build statements of a
    generated module exactly when no inout combines a depfile with
    more than one output; otherwise it aborts. *)
Theorem generateCommonActions_succeeds_iff (env : Linux.LinuxEnv) (m : Gen.generateCommon)
    (inouts : list Gen.inout) :
  (exists g, Linux.generateCommonActions env m inouts = Ok g) <->
  (forall io, io ∈ Linux.prefixed env m inouts ->
     Gen.depfile io = EmptyString \/ (length (Gen.out io) <= 1)%nat).
Proof.
  unfold Linux.generateCommonActions. fold (Linux.prefixed env m inouts).
  destruct (Gen.getArgs m) as [[[cmd args] implicits] hostTarget].
  rewrite <- (buildLoop_ok (Gen.ModuleName m)
                (Linux.ModuleRule ("gen_" +:+ Gen.Name m)
                   {| Linux.Command :=
                        (if bool_decide (is_Some (args !! "host_bin"))
                         then "LD_LIBRARY_PATH=" +:+ Linux.sharedLibsDir env hostTarget
                              +:+ ":$$LD_LIBRARY_PATH "
                         else EmptyString) +:+ cmd;
                      Linux.Description := "$out";
                      Linux.Restat := true;
                      Linux.Pool := if default false (Gen.Console m)
                                    then Linux.PoolConsole else Linux.PoolNil;
                      Linux.Rspfile := match Gen.Rsp_content m with
                                       | Some _ => "${rspfile}"
                                       | None => EmptyString
                                       end;
                      Linux.RspfileContent := default EmptyString (Gen.Rsp_content m) |}
                   (Linux.SortedKeys env (Linux.StripUnusedArgs env args cmd)
                    ++ ["depfile"; "rspfile"]))
                implicits (Linux.prefixed env m inouts)
                (Linux.StripUnusedArgs env args cmd, [])).
  destruct (Linux.buildLoop _ _ _ _ _) as [[args' builds']|msg];
    cbn [mbind Res_bind bindRes].
  - split; intros _; eexists; reflexivity.
  - split; intros [x H]; discriminate.
Qed.

(** X20.  No build statement of a generated module has both a depfile
    and implicit outputs, and a statement with a depfile has at most
    one output and reads the depfile in GCC format; every statement is
    optional. *)
Theorem generateCommonActions_depfile_alone (env : Linux.LinuxEnv) (m : Gen.generateCommon)
    (inouts : list Gen.inout) (g : Linux.Generated)
    (Hrun : Linux.generateCommonActions env m inouts = Ok g) :
  forall b, b ∈ Linux.builds g ->
    Linux.Optional b = true /\
    (Linux.Depfile b <> EmptyString ->
     Linux.ImplicitOutputs b = [] /\ (length (Linux.Outputs b) <= 1)%nat /\
     Linux.Deps b = Linux.DepsGCC).
Proof.
  destruct (generateCommonActions_inv _ _ _ _ Hrun) as [args Hloop].
  destruct (buildLoop_spec _ _ _ _ _ _ _ _ Hloop) as (new & Hb & Hdep & Hopt & _).
  cbn [app] in Hb. subst new. intros b Hin. split.
  - exact (proj1 (Forall_forall _ _) Hopt b Hin).
  - exact (proj1 (Forall_forall _ _) Hdep b Hin).
Qed.

(** X21.  The files the build statements declare as produced (outputs
    and implicit outputs) are, up to order, the outputs and implicit
    outputs of the inouts: none is lost and none is produced by two
    statements unless it is declared twice. *)
Theorem generateCommonActions_produces (env : Linux.LinuxEnv) (m : Gen.generateCommon)
    (inouts : list Gen.inout) (g : Linux.Generated)
    (Hrun : Linux.generateCommonActions env m inouts = Ok g) :
  Permutation (flat_map Linux.produced (Linux.builds g))
              (flat_map Gen.declared (Linux.prefixed env m inouts)).
Proof.
  destruct (generateCommonActions_inv _ _ _ _ Hrun) as [args Hloop].
  destruct (buildLoop_spec _ _ _ _ _ _ _ _ Hloop) as (new & Hb & _ & _ & Hperm).
  cbn [app] in Hb. now subst new.
Qed.

Lemma generateCommonActions_depfile_alone_witness :
  Forall (fun b =>
            Linux.Optional b = true /\
            (Linux.Depfile b <> EmptyString ->
             Linux.ImplicitOutputs b = [] /\ (length (Linux.Outputs b) <= 1)%nat /\
             Linux.Deps b = Linux.DepsGCC))
         (Linux.builds LinuxExamples.genBuilds).
Proof.
  assert (Hrun : Linux.generateCommonActions LinuxExamples.linuxEnv LinuxExamples.genTool
                   [LinuxExamples.ioFirst; LinuxExamples.ioSecond]
                 = Ok LinuxExamples.genBuilds) by (vm_compute; reflexivity).
  apply Forall_forall.
  exact (generateCommonActions_depfile_alone _ _ _ _ Hrun).
Defined.

Lemma generateCommonActions_produces_witness :
  Permutation (flat_map Linux.produced (Linux.builds LinuxExamples.genBuilds))
              (flat_map Gen.declared
                 (Linux.prefixed LinuxExamples.linuxEnv LinuxExamples.genTool
                    [LinuxExamples.ioFirst; LinuxExamples.ioSecond])).
Proof.
  assert (Hrun : Linux.generateCommonActions LinuxExamples.linuxEnv LinuxExamples.genTool
                   [LinuxExamples.ioFirst; LinuxExamples.ioSecond]
                 = Ok LinuxExamples.genBuilds) by (vm_compute; reflexivity).
  exact (generateCommonActions_produces _ _ _ _ Hrun).
Defined.

Lemma buildLoop_app_inv (name : string) (rule : Linux.blueprintRule) (implicits : list string)
    (l1 l2 : list Gen.inout) (st st' : gmap string string * list Linux.BuildParams) :
  Linux.buildLoop name rule implicits (l1 ++ l2) st = Ok st' ->
  exists st1, Linux.buildLoop name rule implicits l1 st = Ok st1 /\
              Linux.buildLoop name rule implicits l2 st1 = Ok st'.
Proof.
  rewrite buildLoop_app.
  destruct (Linux.buildLoop name rule implicits l1 st) as [st1|msg];
    cbn [mbind Res_bind bindRes]; [| discriminate].
  intros H. now exists st1.
Qed.

(** Steps without a response file leave the argument map alone. *)
Lemma buildLoop_args_kept (name : string) (rule : Linux.blueprintRule) (implicits : list string)
    (inouts : list Gen.inout) (args : gmap string string) (builds : list Linux.BuildParams)
    (args' : gmap string string) (builds' : list Linux.BuildParams) :
  (forall io, io ∈ inouts -> Gen.rspfile io = EmptyString) ->
  Linux.buildLoop name rule implicits inouts (args, builds) = Ok (args', builds') ->
  args' = args.
Proof.
  revert args builds. induction inouts as [|io inouts IH]; intros args builds Hall.
  - now intros [= <- <-].
  - cbn [Linux.buildLoop].
    destruct (Linux.buildInout name rule implicits (args, builds) io) as [[args1 builds1]|msg]
      eqn:Hstep; cbn [mbind Res_bind bindRes]; [| discriminate].
    intros Hloop.
    destruct (buildInout_spec _ _ _ _ _ _ _ _ Hstep) as (Hargs & _).
    rewrite (Hall io) in Hargs by now left. cbn in Hargs. subst args1.
    apply (IH _ _ (fun io' Hin => Hall io' (list_elem_of_further _ _ _ Hin)) Hloop).
Qed.

(** X22.  The argument map is shared by the build statements of a
    module: a step without a response file of its own gets the
    [rspfile] argument of the nearest earlier step that has one. *)
Theorem generateCommonActions_rspfile_inherited (env : Linux.LinuxEnv)
    (m : Gen.generateCommon) (inouts : list Gen.inout) (g : Linux.Generated)
    (pre mid post : list Gen.inout) (io1 io2 : Gen.inout)
    (Hrun : Linux.generateCommonActions env m inouts = Ok g)
    (Hsplit : Linux.prefixed env m inouts = pre ++ io1 :: mid ++ io2 :: post)
    (Hfirst : Gen.rspfile io1 <> EmptyString)
    (Hmid : forall io, io ∈ mid -> Gen.rspfile io = EmptyString)
    (Hsecond : Gen.rspfile io2 = EmptyString) :
  exists b, b ∈ Linux.builds g /\
            Linux.Rule b = Linux.rule g /\
            Linux.Inputs b = Gen.in_ io2 /\
            Linux.Outputs b = Gen.out io2 /\
            Linux.Args b !! "rspfile" = Some (Gen.rspfile io1).
Proof.
  destruct (generateCommonActions_inv _ _ _ _ Hrun) as [args Hloop].
  rewrite Hsplit in Hloop.
  destruct (buildLoop_app_inv _ _ _ _ _ _ _ Hloop) as ([args1 builds1] & _ & Hloop1).
  cbn [Linux.buildLoop] in Hloop1.
  destruct (Linux.buildInout _ _ _ (args1, builds1) io1) as [[args2 builds2]|msg] eqn:Hstep1;
    cbn [mbind Res_bind bindRes] in Hloop1; [| discriminate].
  destruct (buildInout_spec _ _ _ _ _ _ _ _ Hstep1) as (Hargs2 & _).
  destruct (String.eqb_spec (Gen.rspfile io1) EmptyString) as [He|_]; [contradiction |].
  cbn [negb] in Hargs2.
  destruct (buildLoop_app_inv _ _ _ _ _ _ _ Hloop1) as ([args3 builds3] & Hmidloop & Hloop2).
  pose proof (buildLoop_args_kept _ _ _ _ _ _ _ _ Hmid Hmidloop) as ->.
  cbn [Linux.buildLoop] in Hloop2.
  destruct (Linux.buildInout _ _ _ (args2, builds3) io2) as [[args4 builds4]|msg] eqn:Hstep2;
    cbn [mbind Res_bind bindRes] in Hloop2; [| discriminate].
  destruct (buildInout_spec _ _ _ _ _ _ _ _ Hstep2)
    as (Hargs4 & new & main & -> & Hmain & Hrule & Hin & Hout & Hmargs & _).
  rewrite Hsecond in Hargs4. cbn in Hargs4.
  destruct (buildLoop_spec _ _ _ _ _ _ _ _ Hloop2) as (new' & Hb & _).
  exists main. split.
  - rewrite Hb. apply elem_of_app. left. apply elem_of_app. now right.
  - repeat (split; [assumption |]).
    rewrite Hmargs, Hargs4, Hargs2. apply lookup_insert_eq.
Qed.

Lemma generateCommonActions_rspfile_inherited_witness :
  exists b, b ∈ Linux.builds LinuxExamples.genBuilds /\
            Linux.Rule b = Linux.rule LinuxExamples.genBuilds /\
            Linux.Inputs b = ["b.in"] /\
            Linux.Outputs b = ["${BuildDir}/gen/gen/b.c"] /\
            Linux.Args b !! "rspfile" = Some "${BuildDir}/gen/gen/a.rsp".
Proof.
  assert (Hrun : Linux.generateCommonActions LinuxExamples.linuxEnv LinuxExamples.genTool
                   [LinuxExamples.ioFirst; LinuxExamples.ioSecond]
                 = Ok LinuxExamples.genBuilds) by (vm_compute; reflexivity).
  assert (Hsplit : Linux.prefixed LinuxExamples.linuxEnv LinuxExamples.genTool
                     [LinuxExamples.ioFirst; LinuxExamples.ioSecond]
                   = [] ++ LinuxExamples.prefixInout "${BuildDir}/gen/gen" LinuxExamples.ioFirst
                        :: [] ++ LinuxExamples.prefixInout "${BuildDir}/gen/gen"
                                   LinuxExamples.ioSecond :: [])
    by reflexivity.
  assert (Hfirst : Gen.rspfile
                     (LinuxExamples.prefixInout "${BuildDir}/gen/gen" LinuxExamples.ioFirst)
                   <> EmptyString) by (vm_compute; discriminate).
  assert (Hmid : forall io : Gen.inout, io ∈ @nil Gen.inout ->
                                          Gen.rspfile io = EmptyString)
    by (intros io Hin; inversion Hin).
  exact (generateCommonActions_rspfile_inherited _ _ _ _ _ _ _ _ _
           Hrun Hsplit Hfirst Hmid eq_refl).
Defined.

(** ** The Android backend: rules of a generated module *)

Lemma elem_of_writeArg (outs : string) (args : gmap string string) (keys : list string)
    (sb : Builder) (x : string) :
  x ∈ sb -> x ∈ foldl (writeArg outs args) sb keys.
Proof.
  revert sb. induction keys as [|key keys IH]; intros sb H; [assumption |].
  cbn [foldl]. apply IH. unfold writeArg. now apply elem_of_WriteString.
Qed.

Lemma elem_of_writeOtherOutput (m : Gen.generateCommon) (outs : string) (l : list string)
    (sb : Builder) (x : string) :
  x ∈ sb -> x ∈ foldl (writeOtherOutput m outs) sb l.
Proof.
  revert sb. induction l as [|f l IH]; intros sb H; [assumption |].
  cbn [foldl]. apply IH. unfold writeOtherOutput. now do 2 apply elem_of_WriteString.
Qed.

Lemma writeOtherOutput_lines (m : Gen.generateCommon) (outs : string) (l : list string)
    (sb : Builder) (f : string) :
  f ∈ l ->
  (f +:+ ": " +:+ outs +:+ nl) ∈ foldl (writeOtherOutput m outs) sb l /\
  (outputsVarName m +:+ " += " +:+ f +:+ nl) ∈ foldl (writeOtherOutput m outs) sb l.
Proof.
  revert sb. induction l as [|g l IH]; intros sb H; [now apply elem_of_nil in H |].
  cbn [foldl]. apply elem_of_cons in H as [->|H]; [| now apply IH].
  split; apply elem_of_writeOtherOutput; unfold writeOtherOutput, WriteString.
  - apply elem_of_app. left. apply elem_of_app. right. now left.
  - apply elem_of_app. right. now left.
Qed.

(** What one iteration adds for its outputs; earlier chunks stay. *)
Lemma writeInout_spec (genv : GenEnv) (m : Gen.generateCommon) (cmd : string)
    (args : gmap string string) (sb sb' : Builder) (io : Gen.inout) :
  writeInout genv m cmd args sb io = Ok sb' ->
  (forall x, x ∈ sb -> x ∈ sb') /\
  exists outs others,
    Gen.out io = outs :: others /\
    (forall f, f ∈ Gen.declared io -> (outputsVarName m +:+ " += " +:+ f +:+ nl) ∈ sb') /\
    (forall f, f ∈ others ++ Gen.implicitOuts io -> (f +:+ ": " +:+ outs +:+ nl) ∈ sb').
Proof.
  unfold writeInout. destruct (Gen.out io) as [|outs others] eqn:Hout; [discriminate |].
  cbv zeta. intros H.
  apply (f_equal (fun r => match r with Ok a => a | Die _ => sb end)) in H.
  cbv beta iota in H. subst sb'.
  set (sbArgs := foldl (writeArg outs args) sb (SortedKeys genv args)).
  set (sbHead := WriteString _ (outputsVarName m +:+ " += " +:+ outs +:+ nl)).
  assert (Hkeep : forall x, x ∈ sb -> x ∈ sbHead).
  { intros x Hx. subst sbHead. apply elem_of_WriteString.
    assert (Hargs : x ∈ sbArgs) by now apply elem_of_writeArg.
    clearbody sbArgs.
    destruct (negb (String.eqb (Gen.depfile io) EmptyString)), (Gen.Rsp_content m),
      (stringsContains cmd "$(LOCAL_PATH)");
      repeat apply elem_of_WriteString; exact Hargs. }
  assert (Hfirst : (outputsVarName m +:+ " += " +:+ outs +:+ nl) ∈ sbHead).
  { subst sbHead. unfold WriteString at 1. apply elem_of_app. right. now left. }
  clearbody sbHead. split.
  - intros x Hx. apply elem_of_WriteString, elem_of_writeOtherOutput, Hkeep, Hx.
  - exists outs, others. split; [reflexivity |]. split.
    + intros f Hf. unfold Gen.declared in Hf. rewrite Hout in Hf. cbn [app] in Hf.
      apply elem_of_WriteString. apply elem_of_cons in Hf as [->|Hf].
      * now apply elem_of_writeOtherOutput.
      * now apply writeOtherOutput_lines.
    + intros f Hf. apply elem_of_WriteString. now apply writeOtherOutput_lines.
Qed.

Lemma writeInouts_ok (genv : GenEnv) (m : Gen.generateCommon) (cmd : string)
    (args : gmap string string) (inouts : list Gen.inout) (sb : Builder) :
  (exists sb', writeInouts genv m cmd args sb inouts = Ok sb') <->
  (forall io, io ∈ inouts -> Gen.out io <> []).
Proof.
  revert sb. induction inouts as [|io inouts IH]; intros sb.
  - split; [intros _ io Hin; now apply elem_of_nil in Hin | intros _; now eexists].
  - cbn [writeInouts]. unfold writeInout at 1.
    destruct (Gen.out io) as [|outs others] eqn:Hout; cbn [mbind Res_bind bindRes].
    + split; [intros [sb' H]; discriminate |].
      intros H. exfalso. apply (H io); [now left | assumption].
    + rewrite IH. split.
      * intros H io' Hin. apply elem_of_cons in Hin as [->|Hin]; [now rewrite Hout | now apply H].
      * intros H io' Hin. apply H. now right.
Qed.

Lemma writeInouts_spec (genv : GenEnv) (m : Gen.generateCommon) (cmd : string)
    (args : gmap string string) (inouts : list Gen.inout) (sb sb' : Builder) :
  writeInouts genv m cmd args sb inouts = Ok sb' ->
  (forall x, x ∈ sb -> x ∈ sb') /\
  (forall io, io ∈ inouts ->
     exists outs others,
       Gen.out io = outs :: others /\
       (forall f, f ∈ Gen.declared io -> (outputsVarName m +:+ " += " +:+ f +:+ nl) ∈ sb') /\
       (forall f, f ∈ others ++ Gen.implicitOuts io -> (f +:+ ": " +:+ outs +:+ nl) ∈ sb')).
Proof.
  revert sb. induction inouts as [|io inouts IH]; intros sb.
  - intros [= <-]. split; [auto |]. intros io Hin. now apply elem_of_nil in Hin.
  - cbn [writeInouts].
    destruct (writeInout genv m cmd args sb io) as [sb1|msg] eqn:Hstep;
      cbn [mbind Res_bind bindRes]; [| discriminate].
    intros Hloop.
    destruct (writeInout_spec _ _ _ _ _ _ _ Hstep) as (Hkeep1 & outs & others & Hout & Hd & Ho).
    destruct (IH _ Hloop) as (Hkeep2 & Hrest).
    split; [auto |].
    intros io' Hin. apply elem_of_cons in Hin as [->|Hin]; [| now apply Hrest].
    exists outs, others. split; [assumption |]. split; auto.
Qed.

Lemma generateCommonActions_android_inv (env : AndroidEnv) (genv : GenEnv) (sb : Builder)
    (m : Gen.generateCommon) (inouts : list Gen.inout) (e : GenEmitted) :
  generateCommonActions env genv sb m inouts = Ok e ->
  exists sb0 sb1,
    (forall x, x ∈ sb -> x ∈ sb0) /\
    writeInouts genv m (Gen.getArgs m).1.1.1
      (StripUnusedArgs genv (Gen.getArgs m).1.1.2 (Gen.getArgs m).1.1.1)
      sb0 (prefixedInouts env genv m inouts) = Ok sb1 /\
    (forall x, x ∈ sb1 -> x ∈ genBuilder e).
Proof.
  unfold generateCommonActions, prefixedInouts.
  destruct (Gen.getArgs m) as [[[cmd args] implicits] hostTarget]. cbn [fst snd].
  destruct (writeInouts _ _ _ _ _ _) as [sb1|msg] eqn:Hloop;
    cbn [mbind Res_bind bindRes]; [| discriminate].
  intros [= <-]. cbn [genBuilder]. eexists _, sb1. split; [| split; [exact Hloop |]].
  - intros x Hx. now repeat apply elem_of_WriteString.
  - intros x Hx. now repeat apply elem_of_WriteString.
Qed.

(** X23.  The Android backend writes the rules of a generated module
    exactly when every inout has at least one output: it takes the
    first output as the target of the rule, and an inout without
    outputs makes it panic. *)
Theorem generateCommonActions_android_succeeds_iff (env : AndroidEnv) (genv : GenEnv)
    (sb : Builder) (m : Gen.generateCommon) (inouts : list Gen.inout) :
  (exists e, generateCommonActions env genv sb m inouts = Ok e) <->
  (forall io, io ∈ prefixedInouts env genv m inouts -> Gen.out io <> []).
Proof.
  unfold generateCommonActions. fold (prefixedInouts env genv m inouts).
  destruct (Gen.getArgs m) as [[[cmd args] implicits] hostTarget].
  rewrite <- (writeInouts_ok genv m cmd (StripUnusedArgs genv args cmd)
                (prefixedInouts env genv m inouts)
                (WriteString
                   (WriteString
                      (WriteString
                         (WriteString
                            (WriteString
                               (WriteString sb
                                  ("##########################" +:+ nl +:+
                                   "include $(CLEAR_VARS)" +:+ nl +:+ nl))
                               ("LOCAL_MODULE := " +:+ Gen.Name m +:+ nl))
                            ("LOCAL_MODULE_CLASS := STATIC_LIBRARIES" +:+ nl))
                         (outputsVarName m +:+ " := " +:+ nl))
                      (outputDirVarName m +:+ " := " +:+ sourceOutputDir env m +:+ nl))
                   nl)).
  destruct (writeInouts _ _ _ _ _ _) as [sb1|msg]; cbn [mbind Res_bind bindRes].
  - split; intros _; eexists; reflexivity.
  - split; intros [x H]; discriminate.
Qed.

(** X24.  In the fragment of a generated module, every output and
    implicit output of every inout is added to the module's
    [_OUTPUTS] variable, and every one but the first output of its
    inout has a rule making it depend on that first output; what was
    in the builder before stays. *)
Theorem generateCommonActions_android_outputs (env : AndroidEnv) (genv : GenEnv)
    (sb : Builder) (m : Gen.generateCommon) (inouts : list Gen.inout) (e : GenEmitted)
    (io : Gen.inout)
    (Hrun : generateCommonActions env genv sb m inouts = Ok e)
    (Hio : io ∈ prefixedInouts env genv m inouts) :
  (forall x, x ∈ sb -> x ∈ genBuilder e) /\
  exists outs others,
    Gen.out io = outs :: others /\
    (forall f, f ∈ Gen.out io ++ Gen.implicitOuts io ->
       (outputsVarName m +:+ " += " +:+ f +:+ nl) ∈ genBuilder e) /\
    (forall f, f ∈ others ++ Gen.implicitOuts io ->
       (f +:+ ": " +:+ outs +:+ nl) ∈ genBuilder e).
Proof.
  destruct (generateCommonActions_android_inv _ _ _ _ _ _ Hrun)
    as (sb0 & sb1 & Hpre & Hloop & Hpost).
  destruct (writeInouts_spec _ _ _ _ _ _ _ Hloop) as (Hkeep & Hall).
  split; [auto |].
  destruct (Hall io Hio) as (outs & others & Hout & Hd & Ho).
  exists outs, others. split; [assumption |]. split.
  - intros f Hf. apply Hpost, Hd, Hf.
  - intros f Hf. apply Hpost, Ho, Hf.
Qed.

Lemma generateCommonActions_android_outputs_witness :
  (forall x, x ∈ @nil string -> x ∈ genBuilder GenExamples.genEmitted) /\
  exists outs others,
    Gen.out (LinuxExamples.prefixInout "$(HOST_OUT_GEN)/STATIC_LIBRARIES/gen"
               LinuxExamples.ioFirst) = outs :: others /\
    (forall f,
        f ∈ Gen.out (LinuxExamples.prefixInout "$(HOST_OUT_GEN)/STATIC_LIBRARIES/gen"
                       LinuxExamples.ioFirst)
            ++ Gen.implicitOuts (LinuxExamples.prefixInout
                                   "$(HOST_OUT_GEN)/STATIC_LIBRARIES/gen"
                                   LinuxExamples.ioFirst) ->
        (outputsVarName LinuxExamples.genTool +:+ " += " +:+ f +:+ nl)
          ∈ genBuilder GenExamples.genEmitted) /\
    (forall f,
        f ∈ others ++ Gen.implicitOuts (LinuxExamples.prefixInout
                                         "$(HOST_OUT_GEN)/STATIC_LIBRARIES/gen"
                                         LinuxExamples.ioFirst) ->
        (f +:+ ": " +:+ outs +:+ nl) ∈ genBuilder GenExamples.genEmitted).
Proof.
  assert (Hrun : generateCommonActions Examples.androidEnv GenExamples.genEnv []
                   LinuxExamples.genTool [LinuxExamples.ioFirst; LinuxExamples.ioSecond]
                 = Ok GenExamples.genEmitted) by (vm_compute; reflexivity).
  assert (Hio : LinuxExamples.prefixInout "$(HOST_OUT_GEN)/STATIC_LIBRARIES/gen"
                  LinuxExamples.ioFirst
                ∈ prefixedInouts Examples.androidEnv GenExamples.genEnv LinuxExamples.genTool
                    [LinuxExamples.ioFirst; LinuxExamples.ioSecond]) by now left.
  exact (generateCommonActions_android_outputs _ _ _ _ _ _ _ Hrun Hio).
Defined.

(** ** The Android backend: aliases, resources and installed files *)

Lemma declareAlias_app (sb : Builder) (name : string) (srcs : list string) :
  declareAlias sb name srcs = sb ++ declareAlias [] name srcs.
Proof.
  unfold declareAlias. rewrite <- (app_nil_r sb) at 1. now rewrite !WriteString_app.
Qed.

Lemma WriteString_here (sb : Builder) (c : string) : c ∈ WriteString sb c.
Proof. unfold WriteString. apply elem_of_app. right. now left. Qed.

Ltac find_chunk :=
  first [ apply WriteString_here
        | apply elem_of_WriteString; find_chunk
        | apply elem_of_writeListAssignment; find_chunk ].

Lemma elem_of_resourceFile (Base : string -> string) (m : Resource)
    (installBase installRel : string) (sb : Builder) (req : list string) (file x : string) :
  x ∈ sb -> x ∈ (resourceFile Base m installBase installRel (sb, req) file).1.
Proof.
  intros H. unfold resourceFile. cbn [fst].
  destruct (resIsProprietary m);
    repeat first [apply elem_of_WriteString | apply elem_of_writeListAssignment];
    exact H.
Qed.

Lemma resourceFile_declares (Base : string -> string) (m : Resource)
    (installBase installRel : string) (sb : Builder) (req : list string) (file : string) :
  let st := resourceFile Base m installBase installRel (sb, req) file in
  st.2 = req ++ [pathToModuleName file] /\
  declaresModule (pathToModuleName file) st.1 /\
  ("LOCAL_SRC_FILES := " +:+ file +:+ nl) ∈ st.1.
Proof.
  cbv zeta. unfold resourceFile, declaresModule. cbn [fst snd].
  split; [reflexivity |].
  split.
  - destruct (resIsProprietary m); find_chunk.
  - destruct (resIsProprietary m); find_chunk.
Qed.

Lemma resourceFiles_spec (Base : string -> string) (m : Resource)
    (installBase installRel : string) (files : list string) (sb : Builder) (req : list string) :
  let st := foldl (resourceFile Base m installBase installRel) (sb, req) files in
  st.2 = req ++ map pathToModuleName files /\
  (forall x, x ∈ sb -> x ∈ st.1) /\
  (forall file, file ∈ files ->
     declaresModule (pathToModuleName file) st.1 /\
     ("LOCAL_SRC_FILES := " +:+ file +:+ nl) ∈ st.1).
Proof.
  cbv zeta. revert sb req. induction files as [|file files IH]; intros sb req.
  - cbn. rewrite app_nil_r. split; [reflexivity |]. split; [auto |].
    intros file H. now apply elem_of_nil in H.
  - cbn [foldl map].
    destruct (resourceFile Base m installBase installRel (sb, req) file) as [sb1 req1] eqn:Hstep.
    pose proof (resourceFile_declares Base m installBase installRel sb req file) as Hd.
    cbv zeta in Hd. rewrite Hstep in Hd. cbn [fst snd] in Hd. destruct Hd as (-> & Hmod & Hsrc).
    destruct (IH sb1 (req ++ [pathToModuleName file])) as (Hreq & Hkeep & Hall).
    split; [now rewrite Hreq, <- app_assoc |].
    split.
    + intros x Hx. apply Hkeep.
      pose proof (elem_of_resourceFile Base m installBase installRel sb req file x Hx) as H.
      now rewrite Hstep in H.
    + intros f Hf. apply elem_of_cons in Hf as [->|Hf]; [| now apply Hall].
      split; now apply Hkeep.
Qed.

(** X25.  For an enabled, installable resource module the fragment
    declares one prebuilt module per file to install, named by
    [pathToModuleName] and copying that file, and ends with the alias
    of the module, which requires the install dependencies followed by
    those modules, in the order of the files.  The fragment is written
    to [<build dir>/<alt short name>.inc]. *)
Theorem resourceActions_alias (env : AndroidEnv) (Base : string -> string)
    (md : Module) (m : Resource) (fs : gmap string string)
    (Henabled : enabledAndRequired md = true)
    (Hinstall : (resInstallPath m).2 = true) :
  exists body,
    resourceActions env Base md m fs
    = (Some (body ++ declareAlias [] (modName (modInfo md))
                       (resInstallDepPhonyNames m
                        ++ map pathToModuleName (resFilesToInstall m))),
       <[getPathInBuildDir (buildDir env) (altShortName md +:+ ".inc")
         := contents (body ++ declareAlias [] (modName (modInfo md))
                                (resInstallDepPhonyNames m
                                 ++ map pathToModuleName (resFilesToInstall m)))]> fs) /\
    (forall file, file ∈ resFilesToInstall m ->
       declaresModule (pathToModuleName file) body /\
       ("LOCAL_SRC_FILES := " +:+ file +:+ nl) ∈ body).
Proof.
  unfold resourceActions. rewrite Henabled. cbn [negb].
  destruct (resInstallPath m) as [[installBase installRel] ok]. cbn [snd] in Hinstall.
  subst ok. cbn [negb].
  pose proof (resourceFiles_spec Base m installBase installRel (resFilesToInstall m) []
                (resInstallDepPhonyNames m)) as Hspec.
  cbv zeta in Hspec.
  destruct (foldl _ _ _) as [sb req]. cbn [fst snd] in Hspec.
  destruct Hspec as (-> & _ & Hall).
  exists sb. split; [| exact Hall].
  rewrite declareAlias_app. reflexivity.
Qed.

Lemma resourceActions_alias_witness :
  exists body,
    resourceActions Examples.androidEnv ResourceExamples.lastComponent
      ResourceExamples.firmwareModule ResourceExamples.firmware ∅
    = (Some (body ++ declareAlias [] "firmware" ["fw_tool"; "fw__a_bin"; "fw__b_bin"]),
       <[getPathInBuildDir "$(BOB_ANDROIDMK_DIR)" "firmware.inc"
         := contents (body ++ declareAlias [] "firmware"
                                ["fw_tool"; "fw__a_bin"; "fw__b_bin"])]> ∅) /\
    (forall file, file ∈ ["fw/a.bin"; "fw/b.bin"] ->
       declaresModule (pathToModuleName file) body /\
       ("LOCAL_SRC_FILES := " +:+ file +:+ nl) ∈ body).
Proof.
  exact (resourceActions_alias Examples.androidEnv ResourceExamples.lastComponent
           ResourceExamples.firmwareModule ResourceExamples.firmware ∅ eq_refl eq_refl).
Defined.

Lemma elem_of_installFile (Base : string -> string) (installBase installRel : string)
    (tags files : list string) (sb : Builder) (x : string) :
  x ∈ sb -> x ∈ foldl (installFile Base installBase installRel tags) sb files.
Proof.
  revert sb. induction files as [|file files IH]; intros sb H; [assumption |].
  cbn [foldl]. apply IH. unfold installFile.
  repeat first [apply elem_of_WriteString | apply elem_of_writeListAssignment]. exact H.
Qed.

Lemma installFile_declares (Base : string -> string) (installBase installRel : string)
    (tags files : list string) (sb : Builder) (file : string) :
  file ∈ files ->
  declaresModule (pathToModuleName file)
    (foldl (installFile Base installBase installRel tags) sb files) /\
  ("LOCAL_PREBUILT_MODULE_FILE := " +:+ file +:+ nl +:+ nl)
    ∈ foldl (installFile Base installBase installRel tags) sb files.
Proof.
  revert sb. induction files as [|g files IH]; intros sb H; [now apply elem_of_nil in H |].
  cbn [foldl]. apply elem_of_cons in H as [->|H]; [| now apply IH].
  unfold declaresModule.
  split; apply elem_of_installFile; unfold installFile; find_chunk.
Qed.

Lemma elem_of_installGeneratedFiles (Base : string -> string) (sb : Builder)
    (installPath : string * string * bool) (files tags : list string) (x : string) :
  x ∈ sb -> x ∈ installGeneratedFiles Base sb installPath files tags.
Proof.
  intros H. unfold installGeneratedFiles.
  destruct installPath as [[installBase installRel] ok].
  destruct ok; cbn [negb]; [| assumption].
  now apply elem_of_installFile, elem_of_WriteString.
Qed.

(** X26.  An enabled generated-source (or transform-source) module
    whose rules can be written gets one fragment, in
    [<build dir>/<alt short name>.inc]: it adds every output and
    implicit output of the inouts to the module's [_OUTPUTS] variable
    and, if the module is installable, declares for each file to
    install a prebuilt module named by [pathToModuleName]; a module
    that is not installable gets no such module, and a module that is
    not enabled or not required leaves the build directory alone. *)
Theorem generateSourceActions_fragment (env : AndroidEnv) (genv : GenEnv)
    (Base : string -> string) (md : Module) (m : Gen.generateCommon) (ins : Installable)
    (inouts : list Gen.inout) (fs fs' : gmap string string)
    (Hrun : generateSourceActions env genv Base md m ins inouts fs = Ok fs') :
  if enabledAndRequired md then
    exists e sb,
      generateCommonActions env genv [] m inouts = Ok e /\
      sb = installGeneratedFiles Base (genBuilder e) (insInstallPath ins)
             (insFilesToInstall ins) (insTags ins) /\
      fs' = <[getPathInBuildDir (buildDir env) (altShortName md +:+ ".inc") := contents sb]> fs /\
      (forall io f, io ∈ prefixedInouts env genv m inouts -> f ∈ Gen.declared io ->
         (outputsVarName m +:+ " += " +:+ f +:+ nl) ∈ sb) /\
      (if (insInstallPath ins).2
       then forall file, file ∈ insFilesToInstall ins ->
              declaresModule (pathToModuleName file) sb /\
              ("LOCAL_PREBUILT_MODULE_FILE := " +:+ file +:+ nl +:+ nl) ∈ sb
       else sb = genBuilder e)
  else fs' = fs.
Proof.
  unfold generateSourceActions in Hrun.
  destruct (enabledAndRequired md); [| now injection Hrun as <-].
  destruct (generateCommonActions env genv [] m inouts) as [e|msg] eqn:Hgen;
    cbn [mbind Res_bind bindRes] in Hrun; [| discriminate].
  injection Hrun as <-. exists e. eexists. split; [reflexivity |]. split; [reflexivity |].
  split; [reflexivity |]. split.
  - intros io f Hio Hf. apply elem_of_installGeneratedFiles.
    destruct (generateCommonActions_android_inv _ _ _ _ _ _ Hgen)
      as (sb0 & sb1 & _ & Hloop & Hpost).
    destruct (writeInouts_spec _ _ _ _ _ _ _ Hloop) as (_ & Hall).
    destruct (Hall io Hio) as (outs & others & _ & Hd & _).
    apply Hpost, Hd, Hf.
  - unfold installGeneratedFiles.
    destruct (insInstallPath ins) as [[installBase installRel] ok]. cbn [snd].
    destruct ok; cbn [negb]; [| reflexivity].
    intros file Hfile. now apply installFile_declares.
Qed.

Lemma generateSourceActions_fragment_witness :
  exists e sb,
    generateCommonActions Examples.androidEnv GenExamples.genEnv [] LinuxExamples.genTool
      [LinuxExamples.ioFirst; LinuxExamples.ioSecond] = Ok e /\
    sb = installGeneratedFiles ResourceExamples.lastComponent (genBuilder e)
           (insInstallPath ResourceExamples.genInstall)
           (insFilesToInstall ResourceExamples.genInstall)
           (insTags ResourceExamples.genInstall) /\
    ResourceExamples.genFiles
    = <[getPathInBuildDir (buildDir Examples.androidEnv)
          (altShortName ResourceExamples.genModule +:+ ".inc") := contents sb]> ∅ /\
    (forall io f,
        io ∈ prefixedInouts Examples.androidEnv GenExamples.genEnv LinuxExamples.genTool
               [LinuxExamples.ioFirst; LinuxExamples.ioSecond] ->
        f ∈ Gen.declared io ->
        (outputsVarName LinuxExamples.genTool +:+ " += " +:+ f +:+ nl) ∈ sb) /\
    (forall file, file ∈ insFilesToInstall ResourceExamples.genInstall ->
       declaresModule (pathToModuleName file) sb /\
       ("LOCAL_PREBUILT_MODULE_FILE := " +:+ file +:+ nl +:+ nl) ∈ sb).
Proof.
  assert (Hrun : generateSourceActions Examples.androidEnv GenExamples.genEnv
                   ResourceExamples.lastComponent ResourceExamples.genModule
                   LinuxExamples.genTool ResourceExamples.genInstall
                   [LinuxExamples.ioFirst; LinuxExamples.ioSecond] ∅
                 = Ok ResourceExamples.genFiles) by (vm_compute; reflexivity).
  exact (generateSourceActions_fragment _ _ _ _ _ _ _ _ _ Hrun).
Defined.

(** ** Kernel modules: the symbol files of the modules depended on *)

Lemma extraSymbolsVisit_spec (ds : list (DepTag * Module)) (modules : list Module) :
  (Forall (fun p => modKind (modInfo p) = KKernelModule)
     (map snd (List.filter (fun d => bool_decide (d.1 = kernelModuleDepTag)) ds)) ->
   extraSymbolsVisit ds modules
   = Ok (modules
         ++ map snd (List.filter (fun d => bool_decide (d.1 = kernelModuleDepTag)) ds))) /\
  (forall r, extraSymbolsVisit ds modules = Ok r ->
     Forall (fun p => modKind (modInfo p) = KKernelModule)
       (map snd (List.filter (fun d => bool_decide (d.1 = kernelModuleDepTag)) ds))).
Proof.
  revert modules. induction ds as [|[tag p] ds IH]; intros modules.
  - cbn. rewrite app_nil_r. split; [reflexivity | constructor].
  - cbn [extraSymbolsVisit List.filter fst]. destruct (bool_decide (tag = kernelModuleDepTag)).
    + cbn [map snd]. split.
      * intros H. inversion H as [|? ? Hp Hrest]; subst. rewrite Hp.
        rewrite (proj1 (IH _) Hrest). now rewrite <- app_assoc.
      * intros r H. destruct (modKind (modInfo p)) eqn:Hk; try discriminate.
        constructor; [assumption |]. exact (proj2 (IH _) r H).
    + apply IH.
Qed.

Lemma foldl_snoc_map {A B} (f : A -> B) (l : list A) (acc : list B) :
  foldl (fun files p => files ++ [f p]) acc l = acc ++ map f l.
Proof.
  revert acc. induction l as [|a l IH]; intros acc; cbn [foldl map].
  - now rewrite app_nil_r.
  - rewrite IH. now rewrite <- app_assoc.
Qed.

(** X27.  [extraSymbolsFiles] returns a result exactly when every
    direct dependency under the kernel-module tag is a kernel module,
    and the result is then the [Module.symvers] file in the output
    directory of each of them, in the order of the dependencies;
    dependencies under other tags are not looked at. *)
Theorem extraSymbolsFiles_spec (Join : string -> string -> string)
    (outputDir : Module -> string) (md : Module) :
  ((exists files, extraSymbolsFiles Join outputDir md = Ok files) <->
   (forall p, (kernelModuleDepTag, p) ∈ modDirectDeps md ->
              modKind (modInfo p) = KKernelModule)) /\
  (forall files, extraSymbolsFiles Join outputDir md = Ok files ->
     files = map (fun p => Join (outputDir p) "Module.symvers") (kernelModuleDeps md)).
Proof.
  unfold extraSymbolsFiles, extraSymbolsModules, kernelModuleDeps.
  destruct (extraSymbolsVisit_spec (modDirectDeps md) []) as [Hok Hinv].
  assert (Hall : Forall (fun p => modKind (modInfo p) = KKernelModule)
                   (map snd (List.filter (fun d => bool_decide (d.1 = kernelModuleDepTag))
                               (modDirectDeps md)))
                 <-> (forall p, (kernelModuleDepTag, p) ∈ modDirectDeps md ->
                                modKind (modInfo p) = KKernelModule)).
  { rewrite Forall_forall. split.
    - intros H p Hin. apply H. apply list_elem_of_fmap. exists (kernelModuleDepTag, p).
      split; [reflexivity |]. apply list_elem_of_In, filter_In.
      split; [now apply list_elem_of_In | now apply bool_decide_eq_true_2].
    - intros H p Hin. apply list_elem_of_fmap in Hin as ([tag q] & -> & Hin).
      apply list_elem_of_In, filter_In in Hin as [Hin Htag]. cbn [fst snd] in *.
      apply bool_decide_eq_true_1 in Htag. subst tag. apply H. now apply list_elem_of_In. }
  split.
  - rewrite <- Hall. split.
    + intros [files H].
      destruct (extraSymbolsVisit (modDirectDeps md) []) as [modules|msg] eqn:Hv;
        cbn [mbind Res_bind bindRes] in H; [| discriminate].
      exact (Hinv _ eq_refl).
    + intros H. rewrite (Hok H). cbn [mbind Res_bind bindRes]. now eexists.
  - intros files H.
    destruct (extraSymbolsVisit (modDirectDeps md) []) as [modules|msg] eqn:Hv;
      cbn [mbind Res_bind bindRes] in H; [| discriminate].
    injection H as <-. rewrite foldl_snoc_map. cbn [app].
    pose proof (Hok (Hinv _ eq_refl)) as Heq. cbn [app] in Heq.
    injection Heq as ->. reflexivity.
Qed.

(** ** List-valued variables of a library fragment *)

Lemma hasChunk_elem (t : string) (sb : Builder) : hasChunk t sb = true <-> t ∈ sb.
Proof.
  unfold hasChunk. rewrite existsb_exists. split.
  - intros (c & Hin & Hc). apply String.eqb_eq in Hc as <-. now apply list_elem_of_In.
  - intros Hin. exists t. split; [now apply list_elem_of_In | apply String.eqb_refl].
Qed.

Lemma hasChunk_WriteString (t : string) (sb : Builder) (c : string) :
  hasChunk t (WriteString sb c) = hasChunk t sb || String.eqb t c.
Proof.
  unfold hasChunk, WriteString. rewrite existsb_app. cbn. now rewrite orb_false_r.
Qed.

Lemma hasChunk_prefix (t : string) (sb : Builder) (p rest : string) :
  GoStrings.HasPrefix t p = false ->
  hasChunk t (WriteString sb (p +:+ rest)) = hasChunk t sb.
Proof.
  intros H. rewrite hasChunk_WriteString, prefix_not_line by assumption.
  apply orb_false_r.
Qed.

Lemma hasChunk_empty (t : string) (sb : Builder) :
  nonEmpty t = true -> hasChunk t (WriteString sb EmptyString) = hasChunk t sb.
Proof.
  intros H. rewrite hasChunk_WriteString. unfold nonEmpty in H.
  apply negb_true_iff in H. rewrite H. apply orb_false_r.
Qed.

Lemma hasChunk_choice (t : string) (sb : Builder) (c : bool) (a b : string) :
  hasChunk t (WriteString sb (if c then a else b))
  = if c then hasChunk t (WriteString sb a) else hasChunk t (WriteString sb b).
Proof. now destruct c. Qed.

Lemma if_same {A} (c : bool) (x : A) : (if c then x else x) = x.
Proof. now destruct c. Qed.

Lemma hasChunk_list (t : string) (sb : Builder) (varname : string) (entries : list string) :
  GoStrings.HasPrefix t (varname +:+ " := ") = false ->
  hasChunk t (writeListAssignment sb varname entries) = hasChunk t sb.
Proof.
  intros H. unfold writeListAssignment.
  destruct (0 <? length entries)%nat; [| reflexivity].
  rewrite <- (hasChunk_prefix t sb (varname +:+ " := ")
                (GoStrings.Join entries " " +:+ nl) H).
  now rewrite append_assoc.
Qed.

Lemma hasChunk_list_empty (t : string) (sb : Builder) (varname : string)
    (entries : list string) :
  entries = [] -> hasChunk t (writeListAssignment sb varname entries) = hasChunk t sb.
Proof. now intros ->. Qed.

Lemma hasChunk_generated (t altname : string) (modules : list string) (sb : Builder) :
  containsChar "," t = false ->
  GoStrings.HasPrefix t "LOCAL_GENERATED_SOURCES+=" = false ->
  GoStrings.HasPrefix t "$(" = false ->
  GoStrings.HasPrefix t tab = false ->
  hasChunk t (foldl (writeGeneratedSource altname) sb modules) = hasChunk t sb.
Proof.
  intros Hcomma Hgen Hdollar Htab.
  revert sb. induction modules as [|module modules IH]; intros sb; [reflexivity |].
  cbn [foldl]. rewrite IH. unfold writeGeneratedSource. cbv zeta.
  rewrite (hasChunk_prefix t _ tab) by assumption.
  change (("$(" +:+ altname +:+ "_" +:+ module +:+ "_SRCS)") +:+
          ": $(local-generated-sources-dir)" +:+ "/%: " +:+
          ("$(" +:+ module +:+ "_GEN_DIR)") +:+ "/%" +:+ nl)
    with ("$(" +:+ ((altname +:+ "_" +:+ module +:+ "_SRCS)") +:+
                    ": $(local-generated-sources-dir)" +:+ "/%: " +:+
                    ("$(" +:+ module +:+ "_GEN_DIR)") +:+ "/%" +:+ nl)).
  rewrite (hasChunk_prefix t _ "$(") by assumption.
  rewrite (hasChunk_prefix t _ "LOCAL_GENERATED_SOURCES+=") by assumption.
  rewrite hasChunk_WriteString.
  destruct (String.eqb t _) eqn:E; [| apply orb_false_r].
  apply (string_eqb_containsChar ",") in E. rewrite Hcomma in E.
  rewrite !containsChar_app in E. cbn in E. rewrite ?orb_true_r in E. discriminate E.
Qed.

Lemma hasChunk_list_other (t : string) (sb : Builder) (varname : string)
    (entries : list string) :
  otherOrEmpty t (varname, entries) ->
  hasChunk t (writeListAssignment sb varname entries) = hasChunk t sb.
Proof.
  intros [H|H]; [now apply hasChunk_list | now apply hasChunk_list_empty].
Qed.

Lemma Ok_inj {A} (a b : A) : Ok a = Ok b -> a = b.
Proof. now intros [= ->]. Qed.

(** Chunks are dropped from the outside in: a chunk with a literal
    head that the line does not start with, the assignment of another
    variable or of an empty list. *)
Ltac drop_chunks :=
  repeat first
    [ rewrite hasChunk_list_other by assumption
    | rewrite hasChunk_prefix by assumption
    | rewrite hasChunk_choice
    | rewrite if_same
    | rewrite hasChunk_empty by assumption
    | rewrite hasChunk_generated by assumption ].

Ltac split_heads H :=
  unfold clearOfHeads, libraryHeads in H; cbn [forallb] in H;
  repeat (let H' := fresh "Hh" in apply andb_true_iff in H as [H' H];
          try apply andb_true_iff in H' as [? H']);
  repeat match goal with
         | Hn : negb _ = true |- _ => apply negb_true_iff in Hn
         end.

Ltac split_lists H :=
  repeat (let H' := fresh "Hv" in apply Forall_cons_iff in H as [H' H]).

Lemma libraryCompileSection_chunk (env : AndroidEnv) (names : NameMaps) (sb : Builder)
    (md : Module) (m : Library) (bt : binType) (sb' : Builder) (t : string) :
  libraryCompileSection env names sb md m bt = Ok sb' ->
  clearOfHeads t = true ->
  Forall (otherOrEmpty t) (compileLists env names m bt) ->
  hasChunk t sb' = hasChunk t sb.
Proof.
  unfold libraryCompileSection, compileLists, specifyArmMode.
  destruct (GetGeneratedHeaders m) as [headerDirs headerOutputs].
  destruct (GetArmMode env _) as [armMode|msg]; cbn [mbind Res_bind bindRes]; [| discriminate].
  destruct (foldl (reexportStep _ _ _) _ _) as [[reexportShared reexportStatic] reexportHeaders].
  intros H Hheads Hlists. split_heads Hheads.
  cbv zeta in Hlists. cbn [fst snd] in Hlists. split_lists Hlists.
  revert H.
  destruct (isProprietary m), (stripRequested m);
    cbv beta zeta delta [specifyCompilerStandard]; intros H; apply Ok_inj in H; subst sb';
    drop_chunks; reflexivity.
Qed.

Lemma libraryInstallSection_chunk (env : AndroidEnv) (names : NameMaps) (sb : Builder)
    (m : Library) (bt : binType) (isMultiLib : bool) (t : string) :
  clearOfHeads t = true ->
  GoStrings.HasPrefix t "LOCAL_REQUIRED_MODULES:=" = false \/ getInstallDepPhonyNames m = [] ->
  hasChunk t (libraryInstallSection env names sb m bt isMultiLib) = hasChunk t sb.
Proof.
  intros Hheads Hreq. split_heads Hheads.
  unfold libraryInstallSection.
  destruct (getAndroidInstallPath m) as [[installBase installRel] ok].
  destruct Hreq as [Hreq|Hreq].
  - destruct ok, (Post_install_cmd m), (bool_decide (bt = binTypeExecutable)), isMultiLib,
      (bool_decide (TargetType m = tgtTypeTarget)), (bool_decide (bt = binTypeShared)),
      (0 <? length (getInstallDepPhonyNames m))%nat; cbn [andb negb]; cbv zeta;
      drop_chunks; reflexivity.
  - rewrite Hreq. cbn [length Nat.ltb Nat.leb].
    destruct ok, (Post_install_cmd m), (bool_decide (bt = binTypeExecutable)), isMultiLib,
      (bool_decide (TargetType m = tgtTypeTarget)), (bool_decide (bt = binTypeShared));
      cbn [andb negb]; cbv zeta; drop_chunks; reflexivity.
Qed.

Lemma libraryLinkSection_chunk (env : AndroidEnv) (sb : Builder)
    (m : Library) (bt : binType) (isMultiLib : bool) (copydtneeded : string) (t : string) :
  clearOfHeads t = true ->
  Forall (otherOrEmpty t) (linkLists env m bt isMultiLib copydtneeded) ->
  hasChunk t (libraryLinkSection env sb m bt isMultiLib copydtneeded) = hasChunk t sb.
Proof.
  intros Hheads Hlists. split_heads Hheads.
  unfold libraryLinkSection. unfold linkLists in Hlists.
  destruct isMultiLib, (bool_decide (TargetType m = tgtTypeTarget));
    cbv zeta in *; cbn [app] in Hlists; split_lists Hlists; drop_chunks; reflexivity.
Qed.

(** A line that is clear of the other chunks and of the assignments
    of non-empty lists is not in the fragment. *)
Lemma library_chunk_absent (env : AndroidEnv) (names : NameMaps)
    (md : Module) (m : Library) (bt : binType) (sb1 : Builder) (copydtneeded : string)
    (t : string) :
  libraryCompileSection env names [] md m bt = Ok sb1 ->
  clearOfHeads t = true ->
  GoStrings.HasPrefix t "LOCAL_REQUIRED_MODULES:=" = false \/ getInstallDepPhonyNames m = [] ->
  Forall (otherOrEmpty t)
    (libraryLists env names m bt
       (isMultiLibOf md (TargetType m) bt (getAndroidInstallPath m).2) copydtneeded) ->
  t ∉ libraryLinkSection env
        (libraryInstallSection env names sb1 m bt
           (isMultiLibOf md (TargetType m) bt (getAndroidInstallPath m).2))
        m bt (isMultiLibOf md (TargetType m) bt (getAndroidInstallPath m).2) copydtneeded.
Proof.
  intros Hcompile Hheads Hreq Hlists Hin.
  unfold libraryLists in Hlists. apply Forall_app in Hlists as [Hc Hl].
  apply hasChunk_elem in Hin.
  rewrite (libraryLinkSection_chunk _ _ _ _ _ _ _ Hheads Hl) in Hin.
  rewrite (libraryInstallSection_chunk _ _ _ _ _ _ _ Hheads Hreq) in Hin.
  rewrite (libraryCompileSection_chunk _ _ _ _ _ _ _ _ Hcompile Hheads Hc) in Hin.
  discriminate Hin.
Qed.

Lemma writeListAssignment_here (sb : Builder) (varname : string) (entries : list string) :
  entries <> [] -> listAssignment varname entries ∈ writeListAssignment sb varname entries.
Proof.
  intros H. rewrite (writeListAssignment_nonempty _ _ _ H).
  apply elem_of_app. right. now left.
Qed.

Ltac find_assignment :=
  first [ apply writeListAssignment_here; assumption
        | apply elem_of_WriteString; find_assignment
        | apply elem_of_writeListAssignment; find_assignment ].

Lemma libraryCompileSection_assigns (env : AndroidEnv) (names : NameMaps) (sb : Builder)
    (md : Module) (m : Library) (bt : binType) (sb' : Builder) :
  libraryCompileSection env names sb md m bt = Ok sb' ->
  Forall (fun vl => vl.2 <> [] -> listAssignment vl.1 vl.2 ∈ sb') (compileLists env names m bt).
Proof.
  unfold libraryCompileSection, compileLists, specifyArmMode.
  destruct (GetGeneratedHeaders m) as [headerDirs headerOutputs].
  destruct (GetArmMode env _) as [armMode|msg]; cbn [mbind Res_bind bindRes]; [| discriminate].
  destruct (foldl (reexportStep _ _ _) _ _) as [[reexportShared reexportStatic] reexportHeaders].
  destruct (isProprietary m), (stripRequested m);
    cbv zeta; intros H; apply Ok_inj in H; subst sb';
    repeat constructor; cbn [fst snd]; intros Hne; find_assignment.
Qed.

Lemma libraryLinkSection_assigns (env : AndroidEnv) (sb : Builder)
    (m : Library) (bt : binType) (isMultiLib : bool) (copydtneeded : string) :
  Forall (fun vl => vl.2 <> [] ->
            listAssignment vl.1 vl.2 ∈ libraryLinkSection env sb m bt isMultiLib copydtneeded)
    (linkLists env m bt isMultiLib copydtneeded).
Proof.
  unfold libraryLinkSection, linkLists.
  destruct isMultiLib, (bool_decide (TargetType m = tgtTypeTarget));
    cbv zeta; cbn [app]; repeat constructor; cbn [fst snd]; intros Hne; find_assignment.
Qed.

(** C10 (amended).  In the fragment of a static library, shared library
    or binary, every list-valued variable that the library emitter
    writes through [writeListAssignment] is omitted when its list is
    empty and assigned otherwise, and so is [LOCAL_REQUIRED_MODULES],
    which it writes behind a length guard.  The list of link flags is
    the filtered [Ldflags], then the forwarding option, then the
    version-script flag if any; the forwarding option is
    [-fuse-ld=bfd] with the linker's transitivity flag when a direct
    shared-library dependency is a forwarding library and the empty
    string otherwise.  That list is never empty, so the fragment always
    holds the [LOCAL_LDFLAGS] assignment, or with multilib the pair
    [LOCAL_LDFLAGS_32] and [LOCAL_LDFLAGS_64]; with no link flag, no
    forwarding library and no version script it is one empty string. *)
Theorem androidLibraryBuildAction_ldflags (env : AndroidEnv) (names : NameMaps)
    (md : Module) (m : Library) (fs : gmap string string) (e : Emitted)
    (Hrun : androidLibraryBuildAction env names [] md m fs = Ok e) :
  exists (bt : binType) (copydtneeded : string),
    binTypeOf md = Ok bt /\
    (hasForwardingDep md ->
     copydtneeded = "-fuse-ld=bfd " +:+ keepSharedLibraryTransitivity env (TargetType m)) /\
    (~ hasForwardingDep md -> copydtneeded = EmptyString) /\
    let isMultiLib := isMultiLibOf md (TargetType m) bt (getAndroidInstallPath m).2 in
    let ldflags := libraryLdflags env m bt copydtneeded in
    Forall (omittedWhenEmpty (emBuilder e))
      (libraryLists env names m bt isMultiLib copydtneeded) /\
    (getInstallDepPhonyNames m = [] -> requiredModulesAssignment [] ∉ emBuilder e) /\
    (exists tail,
        ldflags = List.filter (AndroidLinkFlags env) (Ldflags m) ++ copydtneeded :: tail) /\
    ldflags <> [] /\
    (if isMultiLib
     then listAssignment "LOCAL_LDFLAGS_32" ldflags ∈ emBuilder e /\
          listAssignment "LOCAL_LDFLAGS_64" ldflags ∈ emBuilder e
     else listAssignment "LOCAL_LDFLAGS" ldflags ∈ emBuilder e) /\
    (Ldflags m = [] -> ~ hasForwardingDep md -> getVersionScript m = None ->
     ldflags = [EmptyString] /\
     listAssignment "LOCAL_LDFLAGS" ldflags = "LOCAL_LDFLAGS := " +:+ nl).
Proof.
  destruct (androidLibraryBuildAction_inv _ _ _ _ _ _ _ Hrun)
    as (bt & sb1 & hasFwd & Hbt & Hcompile & Hvisit & Hsb).
  exists bt, (copyDtNeeded env m hasFwd).
  pose proof (visitSharedDeps_spec _ _ _ Hvisit) as Hspec.
  assert (Hyes : hasForwardingDep md ->
                 copyDtNeeded env m hasFwd
                 = "-fuse-ld=bfd " +:+ keepSharedLibraryTransitivity env (TargetType m)).
  { intros Hdep. unfold copyDtNeeded.
    rewrite (proj2 Hspec (or_intror Hdep)). reflexivity. }
  assert (Hno : ~ hasForwardingDep md -> copyDtNeeded env m hasFwd = EmptyString).
  { intros Hnone. unfold copyDtNeeded. destruct hasFwd; [| reflexivity].
    exfalso. apply Hnone.
    destruct (proj1 Hspec eq_refl) as [Hs|Hdep]; [discriminate | exact Hdep]. }
  split; [exact Hbt |]. split; [exact Hyes |]. split; [exact Hno |].
  cbv zeta. rewrite Hsb.
  set (isMultiLib := isMultiLibOf md (TargetType m) bt (getAndroidInstallPath m).2).
  set (copydtneeded := copyDtNeeded env m hasFwd).
  assert (Habsent : forall t,
             clearOfHeads t = true ->
             GoStrings.HasPrefix t "LOCAL_REQUIRED_MODULES:=" = false \/
               getInstallDepPhonyNames m = [] ->
             Forall (otherOrEmpty t) (libraryLists env names m bt isMultiLib copydtneeded) ->
             t ∉ libraryLinkSection env (libraryInstallSection env names sb1 m bt isMultiLib)
                   m bt isMultiLib copydtneeded)
    by (intros t; apply library_chunk_absent; exact Hcompile).
  split; [| split; [| split; [| split; [| split]]]].
  - assert (Hab : Forall (fun vl => vl.2 = [] ->
                            listAssignment vl.1 [] ∉
                              libraryLinkSection env
                                (libraryInstallSection env names sb1 m bt isMultiLib)
                                m bt isMultiLib copydtneeded)
                    (libraryLists env names m bt isMultiLib copydtneeded)).
    { clearbody isMultiLib copydtneeded.
      unfold libraryLists, compileLists, linkLists in *. cbv zeta in *.
      revert Habsent.
      destruct isMultiLib, (bool_decide (TargetType m = tgtTypeTarget));
        intros Habsent; cbn [app] in *;
        repeat first [apply Forall_nil_2 | apply Forall_cons_2];
        cbn [fst snd]; intros Hl;
        (apply Habsent;
         [ vm_compute; reflexivity
         | left; reflexivity
         | repeat first [apply Forall_nil_2 | apply Forall_cons_2];
           first [left; reflexivity | right; exact Hl] ]). }
    assert (Hpr : Forall (fun vl => vl.2 <> [] ->
                            listAssignment vl.1 vl.2 ∈
                              libraryLinkSection env
                                (libraryInstallSection env names sb1 m bt isMultiLib)
                                m bt isMultiLib copydtneeded)
                    (libraryLists env names m bt isMultiLib copydtneeded)).
    { unfold libraryLists. apply Forall_app. split.
      - eapply Forall_impl; [exact (libraryCompileSection_assigns _ _ _ _ _ _ _ Hcompile) |].
        intros vl Hvl Hne. specialize (Hvl Hne).
        destruct (libraryInstallSection_appends env names sb1 m bt isMultiLib) as [r1 ->].
        destruct (libraryLinkSection_appends env (sb1 ++ r1) m bt isMultiLib copydtneeded)
          as [r2 ->].
        rewrite !elem_of_app. left. now left.
      - apply libraryLinkSection_assigns. }
    apply Forall_forall. intros vl Hin. split.
    + exact (proj1 (Forall_forall _ _) Hab vl Hin).
    + exact (proj1 (Forall_forall _ _) Hpr vl Hin).
  - intros Hreq. unfold requiredModulesAssignment. apply Habsent.
    + vm_compute. reflexivity.
    + now right.
    + clearbody isMultiLib copydtneeded.
      unfold libraryLists, compileLists, linkLists. cbv zeta.
      destruct isMultiLib, (bool_decide (TargetType m = tgtTypeTarget));
        cbn [app]; repeat first [apply Forall_nil_2 | apply Forall_cons_2];
        left; reflexivity.
  - apply libraryLdflags_shape.
  - apply libraryLdflags_nonempty.
  - pose proof (libraryLinkSection_ldflags env
                  (libraryInstallSection env names sb1 m bt isMultiLib)
                  m bt isMultiLib copydtneeded) as Hld.
    exact Hld.
  - intros Hnil Hnone Hvs. subst copydtneeded. rewrite (Hno Hnone).
    unfold libraryLdflags. rewrite Hnil, Hvs. cbn.
    destruct (isSharedOrExecutable bt); split; reflexivity.
Qed.

Lemma androidLibraryBuildAction_ldflags_witness :
  exists (bt : binType) (copydtneeded : string),
    binTypeOf Examples.libfoo = Ok bt /\
    (hasForwardingDep Examples.libfoo ->
     copydtneeded
     = "-fuse-ld=bfd " +:+ keepSharedLibraryTransitivity Examples.androidEnv
                             (TargetType (Examples.plainLibrary tgtTypeTarget false))) /\
    (~ hasForwardingDep Examples.libfoo -> copydtneeded = EmptyString) /\
    let isMultiLib :=
      isMultiLibOf Examples.libfoo (TargetType (Examples.plainLibrary tgtTypeTarget false)) bt
        (getAndroidInstallPath (Examples.plainLibrary tgtTypeTarget false)).2 in
    let ldflags :=
      libraryLdflags Examples.androidEnv (Examples.plainLibrary tgtTypeTarget false)
        bt copydtneeded in
    Forall (omittedWhenEmpty (emBuilder Examples.libfooEmitted))
      (libraryLists Examples.androidEnv emptyNameMaps
         (Examples.plainLibrary tgtTypeTarget false) bt isMultiLib copydtneeded) /\
    (getInstallDepPhonyNames (Examples.plainLibrary tgtTypeTarget false) = [] ->
     requiredModulesAssignment [] ∉ emBuilder Examples.libfooEmitted) /\
    (exists tail,
        ldflags = List.filter (AndroidLinkFlags Examples.androidEnv)
                    (Ldflags (Examples.plainLibrary tgtTypeTarget false))
                  ++ copydtneeded :: tail) /\
    ldflags <> [] /\
    (if isMultiLib
     then listAssignment "LOCAL_LDFLAGS_32" ldflags ∈ emBuilder Examples.libfooEmitted /\
          listAssignment "LOCAL_LDFLAGS_64" ldflags ∈ emBuilder Examples.libfooEmitted
     else listAssignment "LOCAL_LDFLAGS" ldflags ∈ emBuilder Examples.libfooEmitted) /\
    (Ldflags (Examples.plainLibrary tgtTypeTarget false) = [] ->
     ~ hasForwardingDep Examples.libfoo ->
     getVersionScript (Examples.plainLibrary tgtTypeTarget false) = None ->
     ldflags = [EmptyString] /\
     listAssignment "LOCAL_LDFLAGS" ldflags = "LOCAL_LDFLAGS := " +:+ nl).
Proof.
  assert (Hrun : androidLibraryBuildAction Examples.androidEnv emptyNameMaps []
                    Examples.libfoo (Examples.plainLibrary tgtTypeTarget false) ∅
                  = Ok Examples.libfooEmitted) by (vm_compute; reflexivity).
  exact (androidLibraryBuildAction_ldflags _ _ _ _ _ _ Hrun).
Defined.

(** C10 as stated fails outside the library emitter: the alias emitter
    writes [LOCAL_REQUIRED_MODULES] through [newlineSeparatedList]
    without a guard, so the fragment of an alias without sources holds
    the assignment of an empty list. *)
Lemma aliasActions_writes_empty_list :
  ("LOCAL_REQUIRED_MODULES :=" +:+ newlineSeparatedList []) ∈ declareAlias [] "myalias" [] /\
  newlineSeparatedList [] = " " +:+ String backslash nl +:+ "    " +:+ nl /\
  aliasActions Examples.androidEnv "myalias" [] ∅
  = {[ "$(BOB_ANDROIDMK_DIR)/myalias.inc" := contents (declareAlias [] "myalias" []) ]}.
Proof.
  split; [| split; [vm_compute; reflexivity |]].
  - unfold declareAlias. find_chunk.
  - unfold aliasActions, androidMkWriteString. now rewrite insert_empty.
Qed.
